(** * nand_ring: a circular append-only log over raw NAND flash

    Shallow embedding of [src/nand_ring.c].  The ring engine is written over
    an external NAND driver, a CRC routine and a boot clock; these
    collaborators are modelled as a small simulated device with injectable
    program/erase faults.  Machine integers are [Z] with their wrap-around
    written out. *)

From Stdlib Require Import ZArith List Bool String Lia Setoid Morphisms.
Import ListNotations.
Local Open Scope Z_scope.

(** ** Machine integers *)

Definition u32 (x : Z) : Z := x mod 2 ^ 32.
Definition u64 (x : Z) : Z := x mod 2 ^ 64.

(** ** Outcomes of a call

    [Ok] is a normal return; [Halt] is the host panic raised by
    [osalDbgCheck], [osalDbgAssert] and [osalSysHalt]; [Hang] is a loop of the
    source that has not finished within the fuel given to the model. *)

Inductive outcome (A : Type) : Type :=
| Ok (a : A)
| Halt (msg : string)
| Hang.

Arguments Ok {A} a.
Arguments Halt {A} msg.
Arguments Hang {A}.

Definition bind {A B : Type} (m : outcome A) (k : A -> outcome B) : outcome B :=
  match m with
  | Ok a => k a
  | Halt msg => Halt msg
  | Hang => Hang
  end.

Notation "x <- m ;; k" := (bind m (fun x => k))
  (at level 61, m at next level, right associativity).
Notation "' pat <- m ;; k" := (bind m (fun x => match x with pat => k end))
  (at level 61, pat pattern, m at next level, right associativity).

Definition osalDbgCheck (c : bool) : outcome unit :=
  if c then Ok tt else Halt "osalDbgCheck".

Definition osalDbgAssert (c : bool) (msg : string) : outcome unit :=
  if c then Ok tt else Halt msg.

Definition osalSysHalt {A : Type} (msg : string) : outcome A := Halt msg.

(** [OSAL_SUCCESS] and [OSAL_FAILED] are the boolean status values of the
    host abstraction layer. *)
Definition OSAL_SUCCESS : bool := false.
Definition OSAL_FAILED : bool := true.

(** ** Constants of the source *)

Definition PAGE_ID_WASTED : Z := 0.
Definition PAGE_ID_FIRST : Z := 1.
Definition BLOCK_NOT_FOUND : Z := 0xFFFFFFFF.
Definition LAST_PAGE_NOT_FOUND : Z := 0xFFFFFFFF.
Definition MIN_RING_SIZE : Z := 64.
Definition SCRATCHPAD_SIZE : Z := 2048 + 64.

(** ** Data model *)

(** The per-page header sealed into the spare area. *)
Record NandPageHeader : Type := mkHeader {
  page_ecc : Z;
  bad_mark : Z;
  id : Z;
  utc_correction : Z;
  time_boot_uS : Z;
  spare_crc : Z
}.

(** Modelled from the spec: [sizeof(NandPageHeader)], declared in the absent
    [nand_ring.h]; the on-flash layout table ends with the 4-byte
    [spare_crc] at offset 32. *)
Definition sizeof_NandPageHeader : Z := 36.

(** What a spare area holds, as far as the header goes: nothing (erased
    flash, all [0xFF]), a header copied there by [header2spare], the
    close-out pattern of [close_prev_session] (two [0xFF] bytes followed by
    zeros) over the whole header, or bytes programmed raw over the head of
    what the spare area held before, short of the header or of another
    pattern. *)
Inductive Spare : Type :=
| SpareErased
| SpareHeader (h : NandPageHeader)
| SpareClosed
| SpareRaw (bytes : list Z) (under : Spare).

Record Page : Type := mkPage {
  pg_data : list Z;
  pg_spare : Spare
}.

Record NANDConfig : Type := mkNANDConfig {
  blocks : Z;
  pages_per_block : Z;
  page_data_size : Z;
  page_spare_size : Z
}.

Inductive nandstate_t : Type := NAND_UNINIT | NAND_STOP | NAND_READY.

(** Modelled from the spec: the NAND driver object of the absent [libnand.h],
    as a simulated device: its geometry, the bad-block table, the contents of
    every page, and the faults still to be injected, one flag per fallible
    driver call (program, erase, data move) in the order the calls are made;
    once the list is used up every call succeeds.  [nd_time] is the boot
    clock of the absent [timeboot_u64.h]. *)
Record NANDDriver : Type := mkNAND {
  nd_state : nandstate_t;
  nd_config : NANDConfig;
  nd_bad : Z -> bool;
  nd_pages : Z -> Z -> Page;
  nd_faults : list bool;
  nd_time : Z
}.

Record NandRingConfig : Type := mkRingConfig {
  start_blk : Z;
  len : Z
}.

Inductive nandringstate_t : Type :=
| NAND_RING_UNINIT
| NAND_RING_IDLE
| NAND_RING_MOUNTED
| NAND_RING_STOP.

Record NandRing : Type := mkRing {
  config : option NandRingConfig;
  state : nandringstate_t;
  cur_blk : Z;
  cur_page : Z;
  cur_id : Z;
  ring_utc_correction : Z;
  _dbg_fake_write_faled : Z
}.

Definition nandringstate_eqb (a b : nandringstate_t) : bool :=
  match a, b with
  | NAND_RING_UNINIT, NAND_RING_UNINIT
  | NAND_RING_IDLE, NAND_RING_IDLE
  | NAND_RING_MOUNTED, NAND_RING_MOUNTED
  | NAND_RING_STOP, NAND_RING_STOP => true
  | _, _ => false
  end.

Definition nandstate_eqb (a b : nandstate_t) : bool :=
  match a, b with
  | NAND_UNINIT, NAND_UNINIT | NAND_STOP, NAND_STOP | NAND_READY, NAND_READY => true
  | _, _ => false
  end.

(** Field updates. *)

Definition set_bad (nand : NANDDriver) (f : Z -> bool) : NANDDriver :=
  mkNAND (nd_state nand) (nd_config nand) f (nd_pages nand)
         (nd_faults nand) (nd_time nand).

Definition set_pages (nand : NANDDriver) (f : Z -> Z -> Page) : NANDDriver :=
  mkNAND (nd_state nand) (nd_config nand) (nd_bad nand) f
         (nd_faults nand) (nd_time nand).

Definition set_faults (nand : NANDDriver) (l : list bool) : NANDDriver :=
  mkNAND (nd_state nand) (nd_config nand) (nd_bad nand) (nd_pages nand)
         l (nd_time nand).

Definition set_state (ring : NandRing) (s : nandringstate_t) : NandRing :=
  mkRing (config ring) s (cur_blk ring) (cur_page ring) (cur_id ring)
         (ring_utc_correction ring) (_dbg_fake_write_faled ring).

Definition set_config (ring : NandRing) (c : option NandRingConfig) : NandRing :=
  mkRing c (state ring) (cur_blk ring) (cur_page ring) (cur_id ring)
         (ring_utc_correction ring) (_dbg_fake_write_faled ring).

Definition set_cur_blk (ring : NandRing) (b : Z) : NandRing :=
  mkRing (config ring) (state ring) b (cur_page ring) (cur_id ring)
         (ring_utc_correction ring) (_dbg_fake_write_faled ring).

Definition set_cur_page (ring : NandRing) (p : Z) : NandRing :=
  mkRing (config ring) (state ring) (cur_blk ring) p (cur_id ring)
         (ring_utc_correction ring) (_dbg_fake_write_faled ring).

Definition set_cur_id (ring : NandRing) (i : Z) : NandRing :=
  mkRing (config ring) (state ring) (cur_blk ring) (cur_page ring) i
         (ring_utc_correction ring) (_dbg_fake_write_faled ring).

Definition set_dbg (ring : NandRing) (x : Z) : NandRing :=
  mkRing (config ring) (state ring) (cur_blk ring) (cur_page ring) (cur_id ring)
         (ring_utc_correction ring) x.

(** ** The simulated NAND driver *)

Definition erased_page (nand : NANDDriver) : Page :=
  mkPage (repeat 0xFF (Z.to_nat (page_data_size (nd_config nand)))) SpareErased.

(** [memset(&buf[off], c, n)] on an array: the bytes of the array from
    [off] on, [n] of them at most, become [c].  The source may ask for bytes
    behind the end of the array (undefined behaviour in C); the array itself
    then changes up to its end only. *)
Fixpoint memset (buf : list Z) (off : nat) (c : Z) (n : nat) : list Z :=
  match buf with
  | [] => []
  | x :: rest =>
      match off with
      | S off' => x :: memset rest off' c n
      | O =>
          match n with
          | O => x :: rest
          | S n' => c :: memset rest O c n'
          end
      end
  end.

(** The static scratchpad of [SCRATCHPAD_SIZE] bytes as [close_prev_session]
    prepares it, whatever the page size of the device:
    [memset(scratchpad, 0, SCRATCHPAD_SIZE)] then
    [memset(&scratchpad[pds], 0xFF, 2)]. *)
Definition scratchpad (nand : NANDDriver) : list Z :=
  memset (repeat 0 (Z.to_nat SCRATCHPAD_SIZE))
         (Z.to_nat (page_data_size (nd_config nand))) 0xFF 2.

(** Two [0xFF] bytes followed by zeros. *)
Definition is_closeout (s : list Z) : bool :=
  match s with
  | a :: b :: rest => (a =? 0xFF) && (b =? 0xFF) && forallb (Z.eqb 0) rest
  | _ => false
  end.

(** Modelled from the spec: what the spare area holds once the bytes [s]
    are programmed raw from its start on.  No byte leaves it as it was; the
    close-out pattern over the whole header (or the whole spare area, when
    that is shorter) is [SpareClosed]; anything else lies over what the spare
    area held. *)
Definition program_spare (pss : Z) (old : Spare) (s : list Z) : Spare :=
  match s with
  | [] => old
  | _ =>
      if (Z.min sizeof_NandPageHeader pss <=? Z.of_nat (List.length s)) && is_closeout s
      then SpareClosed
      else SpareRaw s old
  end.

(** Modelled from the spec: a raw program of [bytes] from the start of a
    page: they replace the head of the data area, and those that reach
    behind it the head of the spare area; bytes behind the end of the page
    are not programmed. *)
Definition program_page (nand : NANDDriver) (old : Page) (bytes : list Z) : Page :=
  let pds := Z.to_nat (page_data_size (nd_config nand)) in
  let pss := Z.to_nat (page_spare_size (nd_config nand)) in
  let d := firstn pds bytes in
  mkPage (d ++ skipn (List.length d) (pg_data old))
         (program_spare (page_spare_size (nd_config nand)) (pg_spare old)
                        (firstn pss (skipn pds bytes))).

(** A driver status is reduced to the bit [nandFailed] tests. *)
Definition nandFailed (status : bool) : bool := status.

(** The next injected fault, if any is left. *)
Definition pop_fault (nand : NANDDriver) : bool * NANDDriver :=
  match nd_faults nand with
  | [] => (false, nand)
  | f :: rest => (f, set_faults nand rest)
  end.

Definition nandIsBad (nand : NANDDriver) (blk : Z) : bool := nd_bad nand blk.

Definition nandMarkBad (nand : NANDDriver) (blk : Z) : NANDDriver :=
  set_bad nand (fun b => if b =? blk then true else nd_bad nand b).

Definition nandReadPageSpare (nand : NANDDriver) (blk page : Z) : Spare :=
  pg_spare (nd_pages nand blk page).

Definition update_page (nand : NANDDriver) (blk page : Z) (pg : Page) : NANDDriver :=
  set_pages nand (fun b p =>
    if (b =? blk) && (p =? page) then pg else nd_pages nand b p).

(** Modelled from the spec: [erase(blk) -> status].  A failed erase leaves
    the block as it was. *)
Definition nandErase (nand : NANDDriver) (blk : Z) : bool * NANDDriver :=
  let (failed, nand1) := pop_fault nand in
  if failed then (true, nand1)
  else (false, set_pages nand1 (fun b p =>
          if b =? blk then erased_page nand else nd_pages nand b p)).

(** Modelled from the spec: the ECC the driver computes over the page data is
    opaque to the engine. *)
Definition nand_ecc (data : list Z) : Z :=
  u32 (fold_left Z.lxor data 0).

(** Modelled from the spec: [write_page_data(blk, page, buf, len) ->
    (status, ecc)].  A failed program leaves the page as it was. *)
Definition nandWritePageData (nand : NANDDriver) (blk page : Z) (data : list Z)
  : bool * Z * NANDDriver :=
  let (failed, nand1) := pop_fault nand in
  if failed then (true, 0, nand1)
  else (false, nand_ecc data,
        update_page nand1 blk page
          (mkPage data (pg_spare (nd_pages nand blk page)))).

(** Modelled from the spec: [write_page_spare(blk, page, buf, len) -> status]. *)
Definition nandWritePageSpare (nand : NANDDriver) (blk page : Z) (sparebuf : Spare)
  : bool * NANDDriver :=
  let (failed, nand1) := pop_fault nand in
  if failed then (true, nand1)
  else (false, update_page nand1 blk page
                 (mkPage (pg_data (nd_pages nand blk page)) sparebuf)).

(** Modelled from the spec: [write_page_whole(blk, page, buf, len) -> status],
    data and spare in one program, with no sealing by the engine: the first
    [len] bytes of [buf] are programmed from the start of the page. *)
Definition nandWritePageWhole (nand : NANDDriver) (blk page : Z) (buf : list Z)
           (len : Z) : bool * NANDDriver :=
  let (failed, nand1) := pop_fault nand in
  if failed then (true, nand1)
  else (false, update_page nand1 blk page
                 (program_page nand (nd_pages nand blk page)
                               (firstn (Z.to_nat len) buf))).

(** Modelled from the spec: [data_move(src_blk, dst_blk, n_pages, scratch) ->
    status] copies pages [[0, n_pages)] of the source block, data and spare,
    to the same page numbers of the destination. *)
Definition nandDataMove (nand : NANDDriver) (src_blk dst_blk n_pages : Z)
  : bool * NANDDriver :=
  let (failed, nand1) := pop_fault nand in
  if failed then (true, nand1)
  else (false, set_pages nand1 (fun b p =>
          if (b =? dst_blk) && (0 <=? p) && (p <? n_pages)
          then nd_pages nand src_blk p else nd_pages nand b p)).

(** Modelled from the spec: [now_boot_us() -> u64]. *)
Definition timebootU64 (nand : NANDDriver) : Z := u64 (nd_time nand).

(** ** Local functions of [nand_ring.c]

    The static functions read the ring through [ring->config] only (and
    [block_data_rescue] through [ring->cur_blk]); they take the configuration
    [cfg] the pointer refers to, and the exported functions dereference it. *)

Section Engine.

(** The CRC-32 of the absent [soft_crc.h], applied by [calc_spare_crc] to the
    header without its trailing [spare_crc] field, with seed [0xFFFFFFFF]. *)
Variable softcrc32 : list Z -> Z -> Z.

Fixpoint get_total_good_loop (n : nat) (nand : NANDDriver) (start b ret : Z) : Z :=
  match n with
  | O => ret
  | S n' =>
      let ret := if negb (nandIsBad nand (u32 (start + b))) then u32 (ret + 1) else ret in
      get_total_good_loop n' nand start (b + 1) ret
  end.

Definition get_total_good (ring : NandRing) (nand : NANDDriver) : outcome Z :=
  match config ring with
  | None => Halt "osalDbgCheck"
  | Some cfg =>
      Ok (get_total_good_loop (Z.to_nat (len cfg)) nand (start_blk cfg) 0 0)
  end.

Fixpoint next_good_loop (fuel : nat) (cfg : NandRingConfig) (nand : NANDDriver)
         (current b : Z) : outcome Z :=
  match fuel with
  | O => Hang
  | S fuel' =>
      let b := u32 (b + 1) in
      let b := if b =? u32 (start_blk cfg + len cfg) then start_blk cfg else b in
      if negb (nandIsBad nand b) then Ok b
      else if negb (b =? current) then next_good_loop fuel' cfg nand current b
      else Ok BLOCK_NOT_FOUND
  end.

Definition next_good (fuel : nat) (cfg : NandRingConfig) (nand : NANDDriver)
           (current : Z) : outcome Z :=
  next_good_loop fuel cfg nand current current.

Fixpoint erase_next (fuel : nat) (cfg : NandRingConfig) (nand : NANDDriver)
         (cur_blk : Z) : outcome (Z * NANDDriver) :=
  match fuel with
  | O => Hang
  | S fuel' =>
      blk <- next_good fuel' cfg nand cur_blk ;;
      let (status, nand1) := nandErase nand blk in
      if nandFailed status
      then erase_next fuel' cfg (nandMarkBad nand1 blk) cur_blk
      else Ok (blk, nand1)
  end.

Definition nand_ring_crc32 (data : list Z) : Z := u32 (softcrc32 data 0xFFFFFFFF).

(** The header bytes but the last four: the fields in declaration order. *)
Definition calc_spare_crc (header : NandPageHeader) : Z :=
  nand_ring_crc32 [page_ecc header; bad_mark header; id header;
                   utc_correction header; time_boot_uS header].

(** Modelled from the spec: erased flash reads as [0xFF] and the close-out
    pattern as zeros, and neither validates, nor does a header that bytes of
    a raw program lie over (the engine programs nothing raw but the
    close-out pattern, stamped so that the check fails); a stored header
    validates when its [spare_crc] field is the CRC recomputed over the
    rest. *)
Definition header_crc_valid (spare : Spare) : bool :=
  match spare with
  | SpareHeader header =>
      if spare_crc header =? calc_spare_crc header then true else false
  | SpareErased | SpareClosed | SpareRaw _ _ => false
  end.

Definition header2spare (header : NandPageHeader) : Spare := SpareHeader header.

(** The [id] field of whatever the spare buffer holds, read through the
    header pointer. *)
Fixpoint spare_id (spare : Spare) : Z :=
  match spare with
  | SpareHeader header => id header
  | SpareErased => 0xFFFFFFFFFFFFFFFF
  | SpareClosed => 0
  | SpareRaw bytes under =>
      (* Modelled from the spec: [id] is the little-endian field at bytes 8
         to 15 of the header. *)
      let below := spare_id under in
      fold_right (fun b acc => b + 256 * acc) 0
        (map (fun k => match nth_error bytes (8 + k) with
                       | Some b => b
                       | None => Z.land (Z.shiftr below (8 * Z.of_nat k)) 0xFF
                       end) (seq 0 8))
  end.

Definition read_page_id (nand : NANDDriver) (blk page : Z) : Z :=
  let sparebuf := nandReadPageSpare nand blk page in
  if negb (header_crc_valid sparebuf) then PAGE_ID_WASTED
  else spare_id sparebuf.

Definition first_good (fuel : nat) (cfg : NandRingConfig) (nand : NANDDriver)
  : outcome Z :=
  next_good fuel cfg nand (u32 (u32 (start_blk cfg + len cfg) - 1)).

Fixpoint last_written_block_loop (fuel : nat) (cfg : NandRingConfig)
         (nand : NANDDriver) (first b last_blk last_id : Z) : outcome Z :=
  match fuel with
  | O => Hang
  | S fuel' =>
      let id := read_page_id nand b 0 in
      let '(last_blk, last_id) :=
        if last_id <=? id then (b, id) else (last_blk, last_id) in
      b' <- next_good fuel' cfg nand b ;;
      if first <? b'
      then last_written_block_loop fuel' cfg nand first b' last_blk last_id
      else Ok last_blk
  end.

Definition last_written_block (fuel : nat) (cfg : NandRingConfig)
           (nand : NANDDriver) : outcome Z :=
  first <- first_good fuel cfg nand ;;
  last_written_block_loop fuel cfg nand first first BLOCK_NOT_FOUND PAGE_ID_FIRST.

Fixpoint last_written_page_loop (n : nat) (nand : NANDDriver)
         (last_blk page last_page last_id : Z) : Z :=
  match n with
  | O => last_page
  | S n' =>
      let id := read_page_id nand last_blk page in
      let '(last_page, last_id) :=
        if last_id <=? id then (page, id) else (last_page, last_id) in
      last_written_page_loop n' nand last_blk (page + 1) last_page last_id
  end.

Definition last_written_page (nand : NANDDriver) (last_blk : Z) : outcome Z :=
  _ <- osalDbgCheck (negb (BLOCK_NOT_FOUND =? last_blk)) ;;
  let ppb := pages_per_block (nd_config nand) in
  let last_page :=
    last_written_page_loop (Z.to_nat ppb) nand last_blk 0
                           LAST_PAGE_NOT_FOUND PAGE_ID_FIRST in
  _ <- osalDbgCheck (negb (LAST_PAGE_NOT_FOUND =? last_page)) ;;
  Ok last_page.

Fixpoint close_prev_session_loop (n : nat) (nand : NANDDriver)
         (scratchpad : list Z) (last_blk page : Z) : NANDDriver :=
  match n with
  | O => nand
  | S n' =>
      let (status, nand1) :=
        nandWritePageWhole nand last_blk page scratchpad SCRATCHPAD_SIZE in
      let nand2 := if nandFailed status then nandMarkBad nand1 last_blk else nand1 in
      close_prev_session_loop n' nand2 scratchpad last_blk (page + 1)
  end.

Definition close_prev_session (fuel : nat) (cfg : NandRingConfig)
           (nand : NANDDriver) (last_blk last_page : Z)
  : outcome (Z * NANDDriver) :=
  let ppb := pages_per_block (nd_config nand) in
  let nand1 :=
    if negb (last_page =? u32 (ppb - 1))
    then close_prev_session_loop (Z.to_nat (ppb - last_page)) nand
                                 (scratchpad nand) last_blk last_page
    else nand in
  erase_next fuel cfg nand1 last_blk.

Definition mkfs (fuel : nat) (cfg : NandRingConfig) (nand : NANDDriver)
  : outcome (Z * NANDDriver) :=
  cur_blk <- first_good fuel cfg nand ;;
  erase_next fuel cfg nand cur_blk.

Fixpoint block_data_rescue_retry (fuel : nat) (cfg : NandRingConfig)
         (ring : NandRing) (nand : NANDDriver) (failed_blk failed_page : Z)
  : outcome (Z * NANDDriver) :=
  match fuel with
  | O => Hang
  | S fuel' =>
      '(target_blk, nand1) <- erase_next fuel' cfg nand (cur_blk ring) ;;
      let (status, nand2) := nandDataMove nand1 failed_blk target_blk failed_page in
      if nandFailed status
      then block_data_rescue_retry fuel' cfg ring (nandMarkBad nand2 target_blk)
                                   failed_blk failed_page
      else Ok (target_blk, nand2)
  end.

Definition block_data_rescue (fuel : nat) (cfg : NandRingConfig)
           (ring : NandRing) (nand : NANDDriver) (failed_blk failed_page : Z)
  : outcome (Z * NANDDriver) :=
  if 0 <? failed_page
  then block_data_rescue_retry fuel cfg ring nand failed_blk failed_page
  else erase_next fuel cfg nand (cur_blk ring).

(** ** Exported functions *)

Definition nandRingObjectInit (ring : NandRing) : outcome NandRing :=
  Ok (set_dbg (set_state (set_config ring None) NAND_RING_UNINIT) 0).

Definition nandRingStart (ring : NandRing) (nand : NANDDriver)
           (cfg : option NandRingConfig) : outcome NandRing :=
  match cfg with
  | None => Halt "osalDbgCheck"
  | Some c =>
      _ <- osalDbgAssert (nandstate_eqb NAND_READY (nd_state nand))
                         "NAND must be started externally" ;;
      _ <- osalDbgAssert (u32 (start_blk c + len c) <=? blocks (nd_config nand))
                         "NAND overflow" ;;
      _ <- osalDbgCheck (MIN_RING_SIZE <=? len c) ;;
      _ <- osalDbgAssert (sizeof_NandPageHeader <=? page_spare_size (nd_config nand))
                         "Not enough room in spare area" ;;
      Ok (set_state (set_config ring (Some c)) NAND_RING_IDLE)
  end.

Definition nandRingMount (fuel : nat) (ring : NandRing) (nand : NANDDriver)
  : outcome (bool * NandRing * NANDDriver) :=
  _ <- osalDbgCheck (nandringstate_eqb NAND_RING_IDLE (state ring)) ;;
  total <- get_total_good ring nand ;;
  if total <? MIN_RING_SIZE / 2 then Ok (OSAL_FAILED, ring, nand)
  else
    match config ring with
    | None => Halt "NULL"
    | Some cfg =>
        last_blk <- last_written_block fuel cfg nand ;;
        '(ring1, nand1) <-
          (if BLOCK_NOT_FOUND =? last_blk then
             '(blk, nand1) <- mkfs fuel cfg nand ;;
             Ok (set_cur_id (set_cur_page (set_cur_blk ring blk) 0) PAGE_ID_FIRST,
                 nand1)
           else
             last_page <- last_written_page nand last_blk ;;
             let last_id := read_page_id nand last_blk last_page in
             '(blk, nand1) <- close_prev_session fuel cfg nand last_blk last_page ;;
             Ok (set_cur_id (set_cur_page (set_cur_blk ring blk) 0) (u64 (last_id + 1)),
                 nand1)) ;;
        Ok (OSAL_SUCCESS, set_state ring1 NAND_RING_MOUNTED, nand1)
    end.

Fixpoint nandRingWritePage_retry (fuel : nat) (cfg : NandRingConfig)
         (ring : NandRing) (nand : NANDDriver) (data : list Z)
  : outcome (NandRing * NANDDriver) :=
  match fuel with
  | O => Hang
  | S fuel' =>
      let '(status, page_ecc, nand1) :=
        nandWritePageData nand (cur_blk ring) (cur_page ring) data in
      if nandFailed status then
        let nand2 := nandMarkBad nand1 (cur_blk ring) in
        '(blk, nand3) <- block_data_rescue fuel' cfg ring nand2
                                           (cur_blk ring) (cur_page ring) ;;
        nandRingWritePage_retry fuel' cfg (set_cur_blk ring blk) nand3 data
      else
        let header0 :=
          mkHeader page_ecc 0xFFFF (cur_id ring) (ring_utc_correction ring)
                   (timebootU64 nand1) 0 in
        let header :=
          mkHeader page_ecc 0xFFFF (cur_id ring) (ring_utc_correction ring)
                   (timebootU64 nand1) (calc_spare_crc header0) in
        let (status, nand2) :=
          nandWritePageSpare nand1 (cur_blk ring) (cur_page ring)
                             (header2spare header) in
        if nandFailed status then
          let nand3 := nandMarkBad nand2 (cur_blk ring) in
          '(blk, nand4) <- block_data_rescue fuel' cfg ring nand3
                                             (cur_blk ring) (cur_page ring) ;;
          nandRingWritePage_retry fuel' cfg (set_cur_blk ring blk) nand4 data
        else Ok (ring, nand2)
  end.

Definition nandRingWritePage (fuel : nat) (ring : NandRing) (nand : NANDDriver)
           (data : option (list Z)) : outcome (NandRing * NANDDriver) :=
  match data with
  | None => Halt "osalDbgCheck"
  | Some data =>
      _ <- osalDbgCheck (nandringstate_eqb NAND_RING_MOUNTED (state ring)) ;;
      match config ring with
      | None => Halt "NULL"
      | Some cfg =>
          let ppb := pages_per_block (nd_config nand) in
          '(ring1, nand1) <- nandRingWritePage_retry fuel cfg ring nand data ;;
          let ring2 := set_cur_id ring1 (u64 (cur_id ring1 + 1)) in
          let ring3 := set_cur_page ring2 (u32 (cur_page ring2 + 1)) in
          if cur_page ring3 =? ppb then
            let ring4 := set_cur_page ring3 0 in
            '(blk, nand2) <- erase_next fuel cfg nand1 (cur_blk ring4) ;;
            Ok (set_cur_blk ring4 blk, nand2)
          else Ok (ring3, nand1)
      end
  end.

Definition nandRingTotalGood (ring : NandRing) (nand : NANDDriver) : outcome Z :=
  _ <- osalDbgCheck (nandringstate_eqb NAND_RING_MOUNTED (state ring)) ;;
  get_total_good ring nand.

Definition nandRingSetUtcCorrection (correction : Z) : outcome unit :=
  osalSysHalt "Unrealized yet".

Definition nandRingSearchSessions (result : list Z) (max_sessions : Z)
  : outcome (Z * list Z) :=
  _ <- (osalSysHalt "Unrealized yet" : outcome unit) ;;
  Ok (0, result).

Definition nandRingUmount (ring : NandRing) : outcome NandRing :=
  Ok (set_state ring NAND_RING_IDLE).

Definition nandRingStop (ring : NandRing) : outcome NandRing :=
  _ <- osalDbgCheck (nandringstate_eqb NAND_RING_IDLE (state ring)) ;;
  Ok (set_config (set_state ring NAND_RING_STOP) None).

End Engine.

(** ** Vocabulary of the properties *)

(** [b] is a block of the ring. *)
Definition in_ring (cfg : NandRingConfig) (b : Z) : Prop :=
  start_blk cfg <= b < start_blk cfg + len cfg.

(** A well-formed configuration: the ring lies inside the device, whose
    block count fits the 32-bit block index. *)
Definition cfg_ok (cfg : NandRingConfig) (nand : NANDDriver) : Prop :=
  0 <= start_blk cfg /\ 0 < len cfg /\
  start_blk cfg + len cfg <= blocks (nd_config nand) /\
  blocks (nd_config nand) < 2 ^ 32.

(** Number of blocks the driver does not report bad among the [n] blocks
    from [b] on. *)
Fixpoint count_good (n : nat) (nand : NANDDriver) (b : Z) : Z :=
  match n with
  | O => 0
  | S n' => (if nd_bad nand b then 0 else 1) + count_good n' nand (b + 1)
  end.

(** The good blocks of the ring, counted as [get_total_good] does. *)
Definition good_blocks (cfg : NandRingConfig) (nand : NANDDriver) : Z :=
  count_good (Z.to_nat (len cfg)) nand (start_blk cfg).

(** *** The block iterator *)

Definition good (nand : NANDDriver) (b : Z) : Prop := nd_bad nand b = false.

Definition ring_all_bad (cfg : NandRingConfig) (nand : NANDDriver) : Prop :=
  forall x, in_ring cfg x -> nd_bad nand x = true.

(** Blocks strictly after [c] up to and including [b], in ring order. *)
Definition seg (c b x : Z) : Prop :=
  if c <=? b then c < x <= b else (c < x \/ x <= b).

(** Blocks strictly between [c] and [r] in ring order; every other block
    when [r = c]. *)
Definition between (c r x : Z) : Prop :=
  if c <? r then c < x < r else (c < x \/ x < r).

(** What [next_good] promises about its result [r] when started at [c]. *)
Definition next_good_post (cfg : NandRingConfig) (nand : NANDDriver) (c r : Z)
  : Prop :=
  (r = BLOCK_NOT_FOUND /\ ring_all_bad cfg nand) \/
  (in_ring cfg r /\ good nand r /\
   forall x, in_ring cfg x -> between c r x -> nd_bad nand x = true).

(** Steps left before the walk from [b] comes back to [current]. *)
Definition walk_left (cfg : NandRingConfig) (current b : Z) : Z :=
  if b <? current then current - b else current - b + len cfg.

(** *** Frame conditions of the driver calls *)

(** What every driver call keeps: the geometry, the driver state and the
    clock; bad marks are never removed and injected faults only used up. *)
Definition frame (nand nand' : NANDDriver) : Prop :=
  nd_config nand' = nd_config nand /\
  nd_state nand' = nd_state nand /\
  nd_time nand' = nd_time nand /\
  (forall b, nd_bad nand b = true -> nd_bad nand' b = true) /\
  (List.length (nd_faults nand') <= List.length (nd_faults nand))%nat.

(** *** [erase_next] *)

(** Every page of the block reads as erased flash. *)
Definition block_erased (nand : NANDDriver) (blk : Z) : Prop :=
  forall p, nd_pages nand blk p = erased_page nand.

(** What [erase_next] promises about the block [blk] it returns: only that
    block has changed, it is erased, and it is the good block that follows
    [cur] in the ring (once the blocks whose erase failed are marked bad). *)
Definition erase_next_post (cfg : NandRingConfig) (nand : NANDDriver)
           (cur blk : Z) (nand' : NANDDriver) : Prop :=
  frame nand nand' /\
  (forall b p, b <> blk -> nd_pages nand' b p = nd_pages nand b p) /\
  block_erased nand' blk /\
  (blk = BLOCK_NOT_FOUND \/ good nand' blk) /\
  (in_ring cfg cur -> next_good_post cfg nand' cur blk).

(** *** The log invariant *)

Definition ppb (nand : NANDDriver) : Z := pages_per_block (nd_config nand).

(** A usable geometry: at least one page per block, and a page count that
    fits the 32-bit page index. *)
Definition geo_ok (nand : NANDDriver) : Prop := 0 < ppb nand < 2 ^ 32.

(** The spare area of a page, as [nandReadPageSpare] returns it. *)
Definition sp (nand : NANDDriver) (b p : Z) : Spare := pg_spare (nd_pages nand b p).

Section LogPredicates.

Variable softcrc32 : list Z -> Z -> Z.
Variable cfg : NandRingConfig.

(** The header CRC of page [p] of block [b] validates. *)
Definition valid (nand : NANDDriver) (b p : Z) : bool :=
  header_crc_valid softcrc32 (sp nand b p).

Local Notation "'rid'" := (read_page_id softcrc32).

(** Block-prefix validity, with the identifiers of the valid prefix in
    increasing order and inside the range of usable identifiers. *)
Definition block_inv (nand : NANDDriver) (b : Z) : Prop :=
  exists k,
    0 <= k <= ppb nand /\
    (forall p, 0 <= p < ppb nand -> (valid nand b p = true <-> p < k)) /\
    (forall p, 0 <= p < k -> 1 <= rid nand b p < 2 ^ 64 - 1) /\
    (forall p q, 0 <= p -> p < q -> q < k -> rid nand b p < rid nand b q).

(** Two good blocks that both start with a valid page hold identifier
    ranges that lie one wholly before the other. *)
Definition ordered_blocks (nand : NANDDriver) : Prop :=
  forall b1 b2,
    in_ring cfg b1 -> in_ring cfg b2 -> good nand b1 -> good nand b2 ->
    b1 <> b2 -> 1 <= rid nand b1 0 -> 1 <= rid nand b2 0 ->
    (forall p, 0 <= p < ppb nand -> rid nand b1 p < rid nand b2 0) \/
    (forall p, 0 <= p < ppb nand -> rid nand b2 p < rid nand b1 0).

(** The invariant of the device contents, whatever the ring state. *)
Definition nand_inv (nand : NANDDriver) : Prop :=
  cfg_ok cfg nand /\ geo_ok nand /\
  (forall b, in_ring cfg b -> block_inv nand b) /\
  ordered_blocks nand.

(** Every identifier readable in a good block of the ring is below [i]. *)
Definition ids_below (nand : NANDDriver) (i : Z) : Prop :=
  forall b p, in_ring cfg b -> good nand b -> 0 <= p < ppb nand -> rid nand b p < i.

(** The tail of the log: block [c] holds valid pages [[0, p)] and nothing
    valid from [p] on, and [i] is the next identifier. *)
Definition tail_inv (nand : NANDDriver) (c p i : Z) : Prop :=
  0 <= p <= ppb nand /\ 1 <= i < 2 ^ 64 /\
  ids_below nand i /\
  (in_ring cfg c ->
   good nand c /\
   (forall q, 0 <= q < p -> valid nand c q = true) /\
   (forall q, p <= q < ppb nand -> valid nand c q = false) /\
   (0 < p -> forall b q, in_ring cfg b -> good nand b -> b <> c ->
              0 <= q < ppb nand -> rid nand b q < rid nand c 0)) /\
  (~ in_ring cfg c -> ring_all_bad cfg nand).

(** The invariant of a mounted ring: [cur_blk], [cur_page] and [cur_id]
    describe the tail of the log. *)
Definition mounted_inv (ring : NandRing) (nand : NANDDriver) : Prop :=
  cur_page ring < ppb nand /\
  tail_inv nand (cur_blk ring) (cur_page ring) (cur_id ring).

(** The invariant of ring and device together. *)
Definition ring_inv (ring : NandRing) (nand : NANDDriver) : Prop :=
  config ring = Some cfg /\ nand_inv nand /\
  (state ring = NAND_RING_MOUNTED -> mounted_inv ring nand).

(** A device change that only takes valid pages away: in every block of the
    ring the spares below some page are kept and no page from there on
    validates; bad marks may be added. *)
Definition shrinks (nand nand' : NANDDriver) : Prop :=
  frame nand nand' /\
  forall b, in_ring cfg b ->
    exists k', forall p, 0 <= p < ppb nand ->
      (p < k' -> sp nand' b p = sp nand b p) /\
      (k' <= p -> valid nand' b p = false).

(** *** Changes that leave the log as it reads *)

(** The same bad marks and the same spare areas: what a failed driver call,
    or a program of the data area alone, leaves behind. *)
Definition same_log (nand nand1 : NANDDriver) : Prop :=
  frame nand nand1 /\ nd_bad nand1 = nd_bad nand /\
  forall b p, sp nand1 b p = sp nand b p.

(** *** Data rescue *)

(** The failed block [c] once it is marked bad: its first [p] pages are still
    valid and wait to be moved. *)
Definition src_inv (nand : NANDDriver) (c p i : Z) : Prop :=
  0 <= p < ppb nand /\ 1 <= i < 2 ^ 64 /\
  ids_below nand i /\
  (in_ring cfg c ->
   nd_bad nand c = true /\
   (forall q, 0 <= q < p -> valid nand c q = true /\ rid nand c q < i) /\
   (0 < p -> forall b q, in_ring cfg b -> good nand b -> b <> c ->
              0 <= q < ppb nand -> rid nand b q < rid nand c 0)) /\
  (~ in_ring cfg c -> ring_all_bad cfg nand).

(** What a data rescue of the first [p] pages of [c] delivers: a good block
    [t] that holds them and is erased from page [p] on. *)
Definition rescue_post (n : NANDDriver) (c p i t : Z) (n' : NANDDriver) : Prop :=
  nand_inv n' /\ tail_inv n' t p i /\ frame n n' /\
  (in_ring cfg t ->
   in_ring cfg c /\ t <> c /\
   forall q, 0 <= q < p -> nd_pages n' t q = nd_pages n c q) /\
  (forall q, ~ 0 <= q < p -> nd_pages n' t q = erased_page n').

(** Whether the next injected faults make the program of the data area, or
    that of the spare area after it, fail. *)
Definition program_failed (nand : NANDDriver) : bool :=
  hd false (nd_faults nand) || hd false (tl (nd_faults nand)).

(** What the write-and-seal loop of [nandRingWritePage] has achieved when it
    is left: the page is sealed at the same page number, with the same
    identifier, in block [cur_blk ring1]. *)
Definition write_post (ring : NandRing) (n : NANDDriver) (data : list Z)
           (ring1 : NandRing) (n1 : NANDDriver) : Prop :=
  let c := cur_blk ring in
  let p := cur_page ring in
  let i := cur_id ring in
  let c' := cur_blk ring1 in
  ring1 = set_cur_blk ring c' /\
  nand_inv n1 /\ tail_inv n1 c' (p + 1) (i + 1) /\ frame n n1 /\
  valid n1 c' p = true /\ rid n1 c' p = i /\
  pg_data (nd_pages n1 c' p) = data /\
  (in_ring cfg c' ->
   in_ring cfg c /\ forall q, 0 <= q < p -> nd_pages n1 c' q = nd_pages n c q) /\
  (program_failed n = true ->
   nd_bad n1 c = true /\
   forall q, p < q -> nd_pages n1 c' q = erased_page n1) /\
  (program_failed n = false ->
   c' = c /\ nd_bad n1 = nd_bad n /\
   forall b q, b <> c \/ q <> p -> nd_pages n1 b q = nd_pages n b q).

(** The block the scan hands back: none when no good block starts with a
    valid page, else a good block whose first page carries the largest
    identifier found on a first page. *)
Definition scan_post (nand : NANDDriver) (lb : Z) : Prop :=
  (lb = BLOCK_NOT_FOUND /\
   forall b, in_ring cfg b -> good nand b -> rid nand b 0 < 1) \/
  (in_ring cfg lb /\ good nand lb /\ 1 <= rid nand lb 0 /\
   forall b, in_ring cfg b -> good nand b -> rid nand b 0 <= rid nand lb 0).

(** The same about the blocks below [bound], for the running maximum
    [(last_blk, last_id)] of the scan loop. *)
Definition scan_acc (nand : NANDDriver) (bound last_blk last_id : Z) : Prop :=
  (last_blk = BLOCK_NOT_FOUND /\ last_id = 1 /\
   forall x, in_ring cfg x -> good nand x -> x < bound -> rid nand x 0 < 1) \/
  (in_ring cfg last_blk /\ good nand last_blk /\ rid nand last_blk 0 = last_id /\
   1 <= last_id /\
   forall x, in_ring cfg x -> good nand x -> x < bound -> rid nand x 0 <= last_id).

(** *** Mount *)

(** [m] is the largest identifier on a readable page of a good block of the
    ring, or [0] when there is none. *)
Definition durable_max (nand : NANDDriver) (m : Z) : Prop :=
  0 <= m /\
  (forall b q, in_ring cfg b -> good nand b -> 0 <= q < ppb nand ->
               rid nand b q <= m) /\
  (m = 0 \/
   exists b q, in_ring cfg b /\ good nand b /\ 0 <= q < ppb nand /\
               rid nand b q = m).

(** What a successful mount establishes, [m] being the largest durable
    identifier found on the device. *)
Definition mount_post (ring : NandRing) (n : NANDDriver) (m : Z)
           (ring' : NandRing) (n' : NANDDriver) : Prop :=
  durable_max n m /\
  ring' = set_state (set_cur_id (set_cur_page (set_cur_blk ring (cur_blk ring')) 0)
                                (m + 1)) NAND_RING_MOUNTED /\
  block_erased n' (cur_blk ring') /\
  shrinks n n' /\ nand_inv n' /\ tail_inv n' (cur_blk ring') 0 (m + 1) /\
  32 <= good_blocks cfg n.

(** *** Termination

    Every failed driver call uses up one injected fault and costs the ring at
    most one good block, so a ring that holds more good blocks than there are
    faults left never runs out of blocks. *)

(** Good blocks of the ring in excess of the faults left to inject. *)
Definition budget (nand : NANDDriver) : Z :=
  good_blocks cfg nand - Z.of_nat (List.length (nd_faults nand)).

End LogPredicates.

(** *** Durable pages and reachable states *)

(** The blocks of the ring, and the pages of a block, as lists. *)
Definition ring_blocks (cfg : NandRingConfig) : list Z :=
  map (fun i => start_blk cfg + Z.of_nat i) (seq 0 (Z.to_nat (len cfg))).




(** A device fresh from the factory: every page erased. *)
Definition fresh (nand : NANDDriver) : Prop :=
  forall b p, nd_pages nand b p = erased_page nand.

(** Power-up: the ring object is initialised and started on [cfg], whatever
    the memory held. *)
Definition boot (ring0 : NandRing) (nand : NANDDriver) (cfg : NandRingConfig)
  : outcome NandRing :=
  ring1 <- nandRingObjectInit ring0 ;;
  nandRingStart ring1 nand (Some cfg).

(** Fault injection and the passing of time leave the media as they are. *)
Definition inject (nand : NANDDriver) (faults : list bool) (time : Z) : NANDDriver :=
  mkNAND (nd_state nand) (nd_config nand) (nd_bad nand) (nd_pages nand) faults time.

(** The states a ring on configuration [cfg] goes through: power-up on a
    fresh device, then mounts, appends (as long as the 64-bit identifier has
    not run out), unmounts, power losses followed by a new power-up, and
    injected faults, in any order. *)
Inductive reachable (softcrc32 : list Z -> Z -> Z) (cfg : NandRingConfig)
  : NandRing -> NANDDriver -> Prop :=
| reach_boot ring0 ring nand :
    fresh nand -> cfg_ok cfg nand -> geo_ok nand ->
    boot ring0 nand cfg = Ok ring ->
    reachable softcrc32 cfg ring nand
| reach_mount fuel ring nand b ring' nand' :
    reachable softcrc32 cfg ring nand ->
    nandRingMount softcrc32 fuel ring nand = Ok (b, ring', nand') ->
    reachable softcrc32 cfg ring' nand'
| reach_write fuel ring nand data ring' nand' :
    reachable softcrc32 cfg ring nand ->
    cur_id ring < 2 ^ 64 - 1 ->
    nandRingWritePage softcrc32 fuel ring nand (Some data) = Ok (ring', nand') ->
    reachable softcrc32 cfg ring' nand'
| reach_umount ring nand ring' :
    reachable softcrc32 cfg ring nand ->
    nandRingUmount ring = Ok ring' ->
    reachable softcrc32 cfg ring' nand
| reach_power_loss ring nand ring0 ring' :
    reachable softcrc32 cfg ring nand ->
    boot ring0 nand cfg = Ok ring' ->
    reachable softcrc32 cfg ring' nand
| reach_inject ring nand faults time :
    reachable softcrc32 cfg ring nand ->
    reachable softcrc32 cfg ring (inject nand faults time).

(** ** A reference device and worked runs *)

(** A bitwise CRC-32 (reflected polynomial [0xEDB88320]) standing for the
    absent [softcrc32]; every header field is fed as eight bytes. *)
Definition crc32_step (c : Z) : Z :=
  if Z.testbit c 0 then Z.lxor (Z.shiftr c 1) 0xEDB88320 else Z.shiftr c 1.

Definition crc32_byte (c b : Z) : Z :=
  Nat.iter 8 crc32_step (Z.lxor c (Z.land b 0xFF)).

Definition crc32_field (c x : Z) : Z :=
  fold_left crc32_byte (map (fun k => Z.shiftr x (8 * k)) [0; 1; 2; 3; 4; 5; 6; 7]) c.

Definition crc32 (data : list Z) (seed : Z) : Z := fold_left crc32_field data seed.

(** The device of the boundary scenarios: 64 blocks of 64 pages of
    2048 + 64 bytes, no bad block, every page erased. *)
Definition spec_nand : NANDDriver :=
  mkNAND NAND_READY (mkNANDConfig 64 64 2048 64) (fun _ => false)
         (fun _ _ => mkPage (repeat 0xFF 2048) SpareErased) [] 0.

(** A smaller device for worked examples: 64 blocks of 4 pages of 16 + 64
    bytes. *)
Definition small_nand (faults : list bool) : NANDDriver :=
  mkNAND NAND_READY (mkNANDConfig 64 4 16 64) (fun _ => false)
         (fun _ _ => mkPage (repeat 0xFF 16) SpareErased) faults 0.

(** The same device with every block marked bad. *)
Definition worn_nand : NANDDriver :=
  mkNAND NAND_READY (mkNANDConfig 64 4 16 64) (fun _ => true)
         (fun _ _ => mkPage (repeat 0xFF 16) SpareErased) [] 0.

Definition ex_cfg : NandRingConfig := mkRingConfig 0 64.

(** A ring object as memory holds it before [nandRingObjectInit]. *)
Definition ex_ring_raw : NandRing := mkRing None NAND_RING_STOP 7 7 7 0 0.

Definition ex_ring_idle : NandRing := mkRing (Some ex_cfg) NAND_RING_IDLE 7 7 7 0 0.

Definition ex_data (b : Z) : list Z := repeat b 16.

Definition ex_fuel : nat := 200.

(** What an example run ends with: [cur_blk], [cur_page], [cur_id]. *)
Definition summary (o : outcome (NandRing * NANDDriver)) : option (Z * Z * Z) :=
  match o with
  | Ok (r, _) => Some (cur_blk r, cur_page r, cur_id r)
  | _ => None
  end.

(** Mount-time recovery after a power-up. *)
Definition recover (nand : NANDDriver) : outcome (NandRing * NANDDriver) :=
  ring <- boot ex_ring_raw nand ex_cfg ;;
  '(_, ring', nand') <- nandRingMount crc32 ex_fuel ring nand ;;
  Ok (ring', nand').

(** A first session on the small device: mount, then two appends. *)
Definition ex_session : outcome (NandRing * NANDDriver) :=
  '(r1, n1) <- recover (small_nand []) ;;
  '(r2, n2) <- nandRingWritePage crc32 ex_fuel r1 n1 (Some (ex_data 0xA5)) ;;
  nandRingWritePage crc32 ex_fuel r2 n2 (Some (ex_data 0x5A)).

Definition ex_recover_once : outcome (NandRing * NANDDriver) :=
  '(_, n) <- ex_session ;; recover n.

Definition ex_recover_twice : outcome (NandRing * NANDDriver) :=
  '(_, n) <- ex_session ;; '(_, n') <- recover n ;; recover n'.

(** A recovery cut by a power loss inside [close_prev_session], after the
    first write of its loop (page 1 of block 1), followed by a full one. *)
Definition ex_recover_interrupted : outcome (NandRing * NANDDriver) :=
  '(_, n) <- ex_session ;;
  recover (snd (nandWritePageWhole n 1 1 (scratchpad n) SCRATCHPAD_SIZE)).

Definition ex_state (o : outcome (NandRing * NANDDriver)) : NandRing * NANDDriver :=
  match o with
  | Ok s => s
  | _ => (ex_ring_raw, worn_nand)
  end.

(** The small device mounted, then after one, two and three appends. *)
Definition ex_s1 : NandRing * NANDDriver := ex_state (recover (small_nand [])).

Definition ex_append (s : NandRing * NANDDriver) (b : Z) : NandRing * NANDDriver :=
  ex_state (nandRingWritePage crc32 ex_fuel (fst s) (snd s) (Some (ex_data b))).

Definition ex_s2 : NandRing * NANDDriver := ex_append ex_s1 0xA5.
Definition ex_s3 : NandRing * NANDDriver := ex_append ex_s2 0x5A.
Definition ex_s4 : NandRing * NANDDriver := ex_append ex_s3 0x3C.

(** After a fourth append block 1 is full and the ring has rolled over. *)
Definition ex_s5 : NandRing * NANDDriver := ex_append ex_s4 0xC3.

(** The small device with block 5 as its only good block. *)
Definition lone_nand : NANDDriver :=
  mkNAND NAND_READY (mkNANDConfig 64 4 16 64) (fun b => negb (b =? 5))
         (fun _ _ => mkPage (repeat 0xFF 16) SpareErased) [] 0.

(** The small device with blocks 0 to 2 bad. *)
Definition patchy_nand (faults : list bool) : NANDDriver :=
  mkNAND NAND_READY (mkNANDConfig 64 4 16 64) (fun b => b <? 3)
         (fun _ _ => mkPage (repeat 0xFF 16) SpareErased) faults 0.

(** An [erase_next] from block 0 whose first two erases fail. *)
Definition ex_erased : Z * NANDDriver :=
  match erase_next ex_fuel ex_cfg (small_nand [true; true]) 0 with
  | Ok s => s
  | _ => (BLOCK_NOT_FOUND, worn_nand)
  end.






(** * Properties of the engine *)

(** ** Basic facts *)

Lemma u32_small x : 0 <= x < 2 ^ 32 -> u32 x = x.
Proof. intros H. unfold u32. apply Z.mod_small. exact H. Qed.

Lemma u64_small x : 0 <= x < 2 ^ 64 -> u64 x = x.
Proof. intros H. unfold u64. apply Z.mod_small. exact H. Qed.

Lemma count_good_bounds n nand b : 0 <= count_good n nand b <= Z.of_nat n.
Proof.
  revert b. induction n as [|n IH]; intros b.
  - simpl. lia.
  - cbn [count_good]. specialize (IH (b + 1)).
    destruct (nd_bad nand b); lia.
Qed.

Lemma get_total_good_loop_count n nand start b ret :
  0 <= start + b -> start + b + Z.of_nat n <= 2 ^ 32 ->
  0 <= ret -> ret + Z.of_nat n < 2 ^ 32 ->
  get_total_good_loop n nand start b ret = ret + count_good n nand (start + b).
Proof.
  revert b ret. induction n as [|n IH]; intros b ret Hb Hn Hr Hrn.
  - simpl. lia.
  - cbn [get_total_good_loop count_good]. unfold nandIsBad.
    rewrite (u32_small (start + b)) by lia.
    destruct (nd_bad nand (start + b)); cbn [negb].
    + rewrite IH by lia. replace (start + (b + 1)) with (start + b + 1) by lia. lia.
    + rewrite (u32_small (ret + 1)) by lia.
      rewrite IH by lia. replace (start + (b + 1)) with (start + b + 1) by lia. lia.
Qed.

Lemma get_total_good_count ring nand cfg :
  config ring = Some cfg -> cfg_ok cfg nand ->
  get_total_good ring nand = Ok (good_blocks cfg nand).
Proof.
  intros Hc (Hs & Hl & Hb & Hk). unfold get_total_good, good_blocks. rewrite Hc.
  rewrite get_total_good_loop_count; rewrite ?Z2Nat.id; try lia.
  f_equal. rewrite Z.add_0_r. reflexivity.
Qed.

(** ** Lifecycle: state checks, unimplemented operations, mount failure *)

(** C10: for every argument, [nandRingSetUtcCorrection] and
    [nandRingSearchSessions] end in the host panic raised by
    [osalSysHalt("Unrealized yet")]: no value is returned, and neither
    function is handed a ring or a device it could modify. *)
Theorem unimplemented_operations_halt :
  (forall correction : Z,
      nandRingSetUtcCorrection correction = Halt "Unrealized yet") /\
  (forall (result : list Z) (max_sessions : Z),
      nandRingSearchSessions result max_sessions = Halt "Unrealized yet").
Proof. split; intros; reflexivity. Qed.

(** C8: a mount of an [IDLE] ring whose span holds fewer than
    [MIN_RING_SIZE / 2 = 32] good blocks returns [OSAL_FAILED] and leaves the
    ring ([state], [cur_blk], [cur_page], [cur_id]) and the device as they
    were; and a mount that returns [OSAL_FAILED] did so for that reason. *)
Theorem mount_too_few_good_blocks :
  forall softcrc32 fuel ring nand cfg,
    state ring = NAND_RING_IDLE ->
    config ring = Some cfg ->
    cfg_ok cfg nand ->
    (good_blocks cfg nand < 32 ->
     nandRingMount softcrc32 fuel ring nand = Ok (OSAL_FAILED, ring, nand)) /\
    (forall ring' nand',
        nandRingMount softcrc32 fuel ring nand = Ok (OSAL_FAILED, ring', nand') ->
        good_blocks cfg nand < 32 /\ ring' = ring /\ nand' = nand).
Proof.
  intros crc fuel ring nand cfg Hst Hcfg Hok.
  unfold nandRingMount. rewrite Hst. cbn [nandringstate_eqb osalDbgCheck bind].
  rewrite (get_total_good_count _ _ _ Hcfg Hok). cbn [bind].
  change (MIN_RING_SIZE / 2) with 32.
  destruct (good_blocks cfg nand <? 32) eqn:Hlt.
  - apply Z.ltb_lt in Hlt. split; [reflexivity|].
    intros ring' nand' H. inversion H; subst. repeat split; auto.
  - apply Z.ltb_ge in Hlt. split; [lia|].
    intros ring' nand' H. rewrite Hcfg in H.
    destruct (last_written_block crc fuel cfg nand) as [lb| |]; cbn [bind] in H;
      try discriminate.
    match type of H with
    | bind ?m _ = _ => destruct m as [[r1 n1]| |]; cbn [bind] in H; discriminate
    end.
Qed.

Ltac zbool :=
  repeat match goal with
  | H : (_ =? _) = true |- _ => apply Z.eqb_eq in H
  | H : (_ =? _) = false |- _ => apply Z.eqb_neq in H
  | H : (_ <? _) = true |- _ => apply Z.ltb_lt in H
  | H : (_ <? _) = false |- _ => apply Z.ltb_ge in H
  | H : (_ <=? _) = true |- _ => apply Z.leb_le in H
  | H : (_ <=? _) = false |- _ => apply Z.leb_gt in H
  end.

Ltac zcase_on t :=
  let E := fresh "E" in
  destruct t eqn:E; rewrite ?E in *; zbool.

Ltac zcases :=
  repeat match goal with
  | |- context [?a =? ?b] => zcase_on (a =? b)
  | |- context [?a <? ?b] => zcase_on (a <? b)
  | |- context [?a <=? ?b] => zcase_on (a <=? b)
  | H : context [?a =? ?b] |- _ => zcase_on (a =? b)
  | H : context [?a <? ?b] |- _ => zcase_on (a <? b)
  | H : context [?a <=? ?b] |- _ => zcase_on (a <=? b)
  end.

Lemma not_found_outside cfg nand :
  cfg_ok cfg nand -> ~ in_ring cfg BLOCK_NOT_FOUND.
Proof. unfold cfg_ok, in_ring, BLOCK_NOT_FOUND. lia. Qed.

(** ** The block iterator *)

Section NextGood.

Variable cfg : NandRingConfig.
Variable nand : NANDDriver.
Hypothesis Hcfg : cfg_ok cfg nand.

Lemma next_good_loop_result fuel current :
  forall b r,
    next_good_loop fuel cfg nand current b = Ok r ->
    r = BLOCK_NOT_FOUND \/ good nand r.
Proof.
  induction fuel as [|fuel IH]; intros b r H; cbn [next_good_loop] in H.
  - discriminate.
  - unfold nandIsBad in H.
    set (b1 := if u32 (b + 1) =? u32 (start_blk cfg + len cfg)
               then start_blk cfg else u32 (b + 1)) in *.
    destruct (nd_bad nand b1) eqn:Hbad; cbn [negb] in H.
    + destruct (b1 =? current); cbn [negb] in H.
      * inversion H. auto.
      * eauto.
    + inversion H; subst. right. exact Hbad.
Qed.

Lemma next_good_loop_spec fuel current :
  in_ring cfg current ->
  forall b r,
    in_ring cfg b ->
    (forall x, in_ring cfg x -> seg current b x -> nd_bad nand x = true) ->
    next_good_loop fuel cfg nand current b = Ok r ->
    next_good_post cfg nand current r.
Proof.
  intros Hc. destruct Hcfg as (Hs & Hl & Hb & Hk). unfold in_ring in Hc.
  induction fuel as [|fuel IH]; intros b r Hbr Hseg H; cbn [next_good_loop] in H.
  - discriminate.
  - unfold in_ring in Hbr. unfold nandIsBad in H.
    rewrite (u32_small (b + 1)) in H by lia.
    rewrite (u32_small (start_blk cfg + len cfg)) in H by lia.
    set (b1 := if b + 1 =? start_blk cfg + len cfg then start_blk cfg else b + 1) in *.
    assert (Hb1 : in_ring cfg b1).
    { unfold in_ring, b1. zcases; lia. }
    destruct (nd_bad nand b1) eqn:Hbad; cbn [negb] in H.
    + destruct (b1 =? current) eqn:Heq; cbn [negb] in H.
      * inversion H; subst r. left. split; [reflexivity|].
        intros x Hx. apply Z.eqb_eq in Heq.
        destruct (Z.eq_dec x current) as [->|Hne]; [congruence|].
        apply Hseg; [exact Hx|]. unfold in_ring in Hx.
        unfold seg, b1 in *. zcases; lia.
      * apply (IH b1 r Hb1); [|exact H].
        intros x Hx Hsx. apply Z.eqb_neq in Heq.
        destruct (Z.eq_dec x b1) as [->|Hne]; [exact Hbad|].
        apply Hseg; [exact Hx|]. unfold in_ring in Hx, Hb1.
        unfold seg, b1 in *. zcases; lia.
    + inversion H; subst r. right. split; [exact Hb1|]. split; [exact Hbad|].
      intros x Hx Hbx. apply Hseg; [exact Hx|]. unfold in_ring in Hx.
      unfold seg, between, b1 in *. zcases; lia.
Qed.

Lemma next_good_spec fuel current r :
  in_ring cfg current ->
  next_good fuel cfg nand current = Ok r ->
  next_good_post cfg nand current r.
Proof.
  intros Hc H. apply (next_good_loop_spec fuel current Hc current r Hc); [|exact H].
  intros x _ Hx. unfold seg in Hx. zcases; lia.
Qed.

Lemma next_good_loop_terminates fuel current :
  in_ring cfg current ->
  forall b,
    in_ring cfg b ->
    walk_left cfg current b <= Z.of_nat fuel ->
    exists r, next_good_loop fuel cfg nand current b = Ok r.
Proof.
  intros Hc. destruct Hcfg as (Hs & Hl & Hb & Hk). unfold in_ring in Hc.
  induction fuel as [|fuel IH]; intros b Hbr Hfuel.
  - unfold in_ring in Hbr. unfold walk_left in Hfuel. zcases; lia.
  - cbn [next_good_loop]. unfold in_ring in Hbr. unfold nandIsBad.
    rewrite (u32_small (b + 1)) by lia.
    rewrite (u32_small (start_blk cfg + len cfg)) by lia.
    set (b1 := if b + 1 =? start_blk cfg + len cfg then start_blk cfg else b + 1) in *.
    assert (Hb1 : in_ring cfg b1).
    { unfold in_ring, b1. zcases; lia. }
    destruct (nd_bad nand b1) eqn:Hbad; cbn [negb]; [|eauto].
    destruct (b1 =? current) eqn:Heq; cbn [negb]; [eauto|].
    apply IH; [exact Hb1|]. apply Z.eqb_neq in Heq.
    unfold in_ring in Hb1. unfold walk_left, b1 in *. zcases; lia.
Qed.

Lemma next_good_terminates fuel current :
  in_ring cfg current ->
  len cfg <= Z.of_nat fuel ->
  exists r, next_good fuel cfg nand current = Ok r.
Proof.
  intros Hc Hf. apply next_good_loop_terminates; auto.
  unfold walk_left. rewrite Z.ltb_irrefl. lia.
Qed.

End NextGood.

(** ** Frame conditions of the driver calls *)

Lemma frame_refl nand : frame nand nand.
Proof. unfold frame. repeat split; auto. Qed.

Lemma frame_trans n1 n2 n3 : frame n1 n2 -> frame n2 n3 -> frame n1 n3.
Proof.
  unfold frame. intros (A1 & A2 & A3 & A4 & A5) (B1 & B2 & B3 & B4 & B5).
  repeat split; try congruence; auto; lia.
Qed.

Lemma frame_cfg_ok cfg n1 n2 : frame n1 n2 -> cfg_ok cfg n1 -> cfg_ok cfg n2.
Proof. unfold frame, cfg_ok. intros (A & _) H. rewrite A. exact H. Qed.

Lemma frame_all_bad cfg n1 n2 :
  frame n1 n2 -> ring_all_bad cfg n1 -> ring_all_bad cfg n2.
Proof. unfold frame, ring_all_bad. intros (_ & _ & _ & A & _) H x Hx. auto. Qed.

Lemma frame_mark_bad nand blk : frame nand (nandMarkBad nand blk).
Proof.
  unfold frame, nandMarkBad, set_bad. cbn. repeat split; auto.
  intros b Hb. destruct (b =? blk); auto.
Qed.

Lemma pop_fault_frame nand f nand1 :
  pop_fault nand = (f, nand1) ->
  frame nand nand1 /\ nd_bad nand1 = nd_bad nand /\ nd_pages nand1 = nd_pages nand /\
  (f = true -> S (List.length (nd_faults nand1)) = List.length (nd_faults nand)).
Proof.
  unfold pop_fault, frame. destruct (nd_faults nand) as [|x rest] eqn:E;
    intros H; inversion H; subst; cbn; rewrite ?E; cbn;
    repeat split; auto; try lia; try discriminate.
Qed.

Lemma nandErase_spec nand blk status nand1 :
  nandErase nand blk = (status, nand1) ->
  frame nand nand1 /\ nd_bad nand1 = nd_bad nand /\
  (status = true ->
   nd_pages nand1 = nd_pages nand /\
   S (List.length (nd_faults nand1)) = List.length (nd_faults nand)) /\
  (status = false ->
   forall b p, nd_pages nand1 b p =
               if b =? blk then erased_page nand else nd_pages nand b p).
Proof.
  unfold nandErase. destruct (pop_fault nand) as [f n1] eqn:E.
  apply pop_fault_frame in E. destruct E as (F & B & P & L).
  destruct f; intros H; inversion H; subst.
  - split; [exact F|]. split; [exact B|]. split; [auto|discriminate].
  - unfold frame in *. cbn. destruct F as (F1 & F2 & F3 & F4 & F5).
    split; [auto|]. split; [exact B|]. split; [discriminate|].
    intros _ b p. unfold update_page; cbn. rewrite ?P. reflexivity.
Qed.

(** ** [erase_next] *)

Lemma erased_page_frame n1 n2 : frame n1 n2 -> erased_page n2 = erased_page n1.
Proof. unfold frame, erased_page. intros (A & _). rewrite A. reflexivity. Qed.

Lemma next_good_post_bad cfg n1 n2 c r :
  nd_bad n2 = nd_bad n1 -> next_good_post cfg n1 c r -> next_good_post cfg n2 c r.
Proof.
  unfold next_good_post, ring_all_bad, good. intros E. rewrite E. auto.
Qed.

Lemma erase_next_spec cfg fuel :
  forall nand cur blk nand',
    cfg_ok cfg nand ->
    erase_next fuel cfg nand cur = Ok (blk, nand') ->
    erase_next_post cfg nand cur blk nand'.
Proof.
  induction fuel as [|fuel IH]; intros nand cur blk nand' Hok H;
    cbn [erase_next] in H; [discriminate|].
  destruct (next_good fuel cfg nand cur) as [b| |] eqn:Hng; cbn [bind] in H;
    try discriminate.
  destruct (nandErase nand b) as [status nand1] eqn:He.
  apply nandErase_spec in He. destruct He as (F & B & Hfail & Hsucc).
  destruct status; cbn [nandFailed] in H.
  - apply IH in H.
    2:{ apply (frame_cfg_ok cfg nand1); [apply frame_mark_bad|].
        apply (frame_cfg_ok cfg nand); auto. }
    destruct H as (F' & P' & E' & G' & N').
    destruct (Hfail eq_refl) as (Hp & _).
    split; [|split; [|split; [|split]]]; auto.
    + eapply frame_trans; [exact F|]. eapply frame_trans; [apply frame_mark_bad|exact F'].
    + intros x p Hx. rewrite P' by exact Hx. cbn. rewrite Hp. reflexivity.
  - inversion H; subst b nand1. clear H. specialize (Hsucc eq_refl).
    split; [|split; [|split; [|split]]]; auto.
    + intros x p Hx. rewrite Hsucc. apply Z.eqb_neq in Hx. rewrite Hx. reflexivity.
    + intros p. rewrite Hsucc, Z.eqb_refl. symmetry. apply erased_page_frame. exact F.
    + unfold next_good in Hng. apply next_good_loop_result in Hng.
      unfold good in *. rewrite B. exact Hng.
    + intros Hc. apply (next_good_post_bad cfg nand); [exact B|].
      eapply next_good_spec; eauto.
Qed.

Lemma erase_next_terminates cfg fuel :
  forall nand cur,
    cfg_ok cfg nand -> in_ring cfg cur ->
    len cfg + Z.of_nat (List.length (nd_faults nand)) < Z.of_nat fuel ->
    exists blk nand', erase_next fuel cfg nand cur = Ok (blk, nand').
Proof.
  induction fuel as [|fuel IH]; intros nand cur Hok Hc Hf.
  - destruct Hok as (? & ? & ? & ?). lia.
  - cbn [erase_next].
    destruct (next_good_terminates cfg nand Hok fuel cur Hc) as [b Hb]; [lia|].
    rewrite Hb. cbn [bind].
    destruct (nandErase nand b) as [status nand1] eqn:He.
    apply nandErase_spec in He. destruct He as (F & B & Hfail & Hsucc).
    destruct status; cbn [nandFailed]; [|eauto].
    destruct (Hfail eq_refl) as (_ & Hl).
    apply IH; auto.
    + apply (frame_cfg_ok cfg nand1); [apply frame_mark_bad|].
      apply (frame_cfg_ok cfg nand); auto.
    + cbn. lia.
Qed.

(** ** The log invariant *)

Section Invariant.

Variable softcrc32 : list Z -> Z -> Z.
Variable cfg : NandRingConfig.

Local Notation "'rid'" := (read_page_id softcrc32).

Lemma rid_invalid nand b p : valid softcrc32 nand b p = false -> rid nand b p = 0.
Proof.
  unfold valid, read_page_id, nandReadPageSpare, sp. intros ->. reflexivity.
Qed.

Lemma rid_sp n1 n2 b1 p1 b2 p2 :
  sp n1 b1 p1 = sp n2 b2 p2 -> rid n1 b1 p1 = rid n2 b2 p2.
Proof. unfold read_page_id, nandReadPageSpare, sp. intros ->. reflexivity. Qed.

Lemma valid_sp n1 n2 b1 p1 b2 p2 :
  sp n1 b1 p1 = sp n2 b2 p2 -> valid softcrc32 n1 b1 p1 = valid softcrc32 n2 b2 p2.
Proof. unfold valid. intros ->. reflexivity. Qed.

Lemma frame_ppb n1 n2 : frame n1 n2 -> ppb n2 = ppb n1.
Proof. unfold frame, ppb. intros (A & _). rewrite A. reflexivity. Qed.

Lemma frame_geo_ok n1 n2 : frame n1 n2 -> geo_ok n1 -> geo_ok n2.
Proof. unfold geo_ok. intros F. rewrite (frame_ppb _ _ F). auto. Qed.

Lemma frame_good n1 n2 b : frame n1 n2 -> good n2 b -> good n1 b.
Proof.
  unfold frame, good. intros (_ & _ & _ & A & _) H.
  destruct (nd_bad n1 b) eqn:E; [|reflexivity]. apply A in E. congruence.
Qed.

Lemma block_inv_rid_nonneg nand b p :
  block_inv softcrc32 nand b -> 0 <= p < ppb nand -> 0 <= rid nand b p.
Proof.
  intros (k & Hk & Hv & Hr & _) Hp.
  destruct (Z_lt_dec p k) as [L|L].
  - specialize (Hr p). lia.
  - rewrite rid_invalid; [lia|]. destruct (valid softcrc32 nand b p) eqn:E; [|reflexivity].
    apply Hv in E; [lia|exact Hp].
Qed.

Lemma block_inv_first_invalid nand b p :
  block_inv softcrc32 nand b -> rid nand b 0 < 1 -> 0 <= p < ppb nand -> rid nand b p = 0.
Proof.
  intros (k & Hk & Hv & Hr & _) H0 Hp.
  assert (k <= 0) by (destruct (Z_lt_dec 0 k) as [L|L]; [specialize (Hr 0); lia|lia]).
  apply rid_invalid. destruct (valid softcrc32 nand b p) eqn:E; [|reflexivity].
  apply Hv in E; [lia|exact Hp].
Qed.

Lemma shrinks_rid n n' b p :
  shrinks softcrc32 cfg n n' -> in_ring cfg b -> 0 <= p < ppb n ->
  rid n' b p = rid n b p \/ rid n' b p = 0.
Proof.
  intros (F & S) Hb Hp. destruct (S b Hb) as (k' & Hk').
  destruct (Hk' p Hp) as (A & B).
  destruct (Z_lt_dec p k') as [L|L].
  - left. apply rid_sp. auto.
  - right. apply rid_invalid. apply B. lia.
Qed.

Lemma shrinks_block_inv n n' b :
  shrinks softcrc32 cfg n n' -> in_ring cfg b -> block_inv softcrc32 n b -> block_inv softcrc32 n' b.
Proof.
  intros (F & S) Hb (k & Hk & Hv & Hr & Hm).
  destruct (S b Hb) as (k' & Hk').
  unfold block_inv. rewrite (frame_ppb _ _ F).
  exists (Z.min k (Z.max 0 k')). split; [lia|]. split; [|split].
  - intros p Hp. destruct (Hk' p Hp) as (A & B).
    destruct (Z_lt_dec p k') as [L|L].
    + rewrite (valid_sp n' n b p b p) by auto. rewrite Hv by exact Hp. lia.
    + rewrite B by lia. split; [discriminate|lia].
  - intros p Hp. assert (Hp' : 0 <= p < ppb n) by lia.
    destruct (Hk' p Hp') as (A & _).
    rewrite (rid_sp n' n b p b p) by (apply A; lia). apply Hr. lia.
  - intros p q Hp Hpq Hq.
    assert (Hp' : 0 <= p < ppb n) by lia. assert (Hq' : 0 <= q < ppb n) by lia.
    destruct (Hk' p Hp') as (A & _). destruct (Hk' q Hq') as (A' & _).
    rewrite (rid_sp n' n b p b p) by (apply A; lia).
    rewrite (rid_sp n' n b q b q) by (apply A'; lia).
    apply Hm; lia.
Qed.

Lemma shrinks_nand_inv n n' : shrinks softcrc32 cfg n n' -> nand_inv softcrc32 cfg n -> nand_inv softcrc32 cfg n'.
Proof.
  intros HS (Hc & Hg & Hb & Ho). pose proof HS as (F & S).
  split; [eapply frame_cfg_ok; eauto|]. split; [eapply frame_geo_ok; eauto|].
  split; [intros b Hin; eapply shrinks_block_inv; eauto|].
  intros b1 b2 H1 H2 G1 G2 Hne R1 R2. rewrite (frame_ppb _ _ F).
  assert (P0 : 0 <= 0 < ppb n) by (unfold geo_ok in Hg; lia).
  assert (E1 : rid n' b1 0 = rid n b1 0)
    by (destruct (shrinks_rid n n' b1 0 HS H1 P0); lia).
  assert (E2 : rid n' b2 0 = rid n b2 0)
    by (destruct (shrinks_rid n n' b2 0 HS H2 P0); lia).
  rewrite E1, E2 in *.
  destruct (Ho b1 b2 H1 H2 (frame_good _ _ _ F G1) (frame_good _ _ _ F G2) Hne R1 R2)
    as [L|L]; [left|right]; intros p Hp; specialize (L p Hp).
  - destruct (shrinks_rid n n' b1 p HS H1 Hp) as [E|E]; lia.
  - destruct (shrinks_rid n n' b2 p HS H2 Hp) as [E|E]; lia.
Qed.

Lemma shrinks_ids_below n n' i :
  shrinks softcrc32 cfg n n' -> nand_inv softcrc32 cfg n -> 1 <= i -> ids_below softcrc32 cfg n i -> ids_below softcrc32 cfg n' i.
Proof.
  intros HS (_ & _ & Hb & _) Hi H b p Hin G Hp. pose proof HS as (F & _).
  rewrite (frame_ppb _ _ F) in Hp.
  specialize (H b p Hin (frame_good _ _ _ F G) Hp).
  destruct (shrinks_rid n n' b p HS Hin Hp) as [E|E]; lia.
Qed.

Lemma shrinks_refl n : shrinks softcrc32 cfg n n.
Proof.
  split; [apply frame_refl|]. intros b _. exists (ppb n). intros p Hp.
  split; [reflexivity|lia].
Qed.

Lemma shrinks_trans n1 n2 n3 : shrinks softcrc32 cfg n1 n2 -> shrinks softcrc32 cfg n2 n3 -> shrinks softcrc32 cfg n1 n3.
Proof.
  intros (F1 & S1) (F2 & S2). split; [eapply frame_trans; eauto|].
  intros b Hb. destruct (S1 b Hb) as (k1 & H1). destruct (S2 b Hb) as (k2 & H2).
  rewrite (frame_ppb _ _ F1) in H2.
  exists (Z.min k1 k2). intros p Hp.
  destruct (H1 p Hp) as (A1 & B1). destruct (H2 p Hp) as (A2 & B2). split.
  - intros L. rewrite A2 by lia. apply A1. lia.
  - intros L. destruct (Z_lt_dec p k2) as [L2|L2].
    + rewrite (valid_sp n3 n2 b p b p) by auto. apply B1. lia.
    + apply B2. lia.
Qed.

(** *** Effect of the driver's program calls *)

Lemma nandWritePageData_spec nand blk page data status ecc nand1 :
  nandWritePageData nand blk page data = (status, ecc, nand1) ->
  frame nand nand1 /\ nd_bad nand1 = nd_bad nand /\
  (status = true ->
   nd_pages nand1 = nd_pages nand /\
   S (List.length (nd_faults nand1)) = List.length (nd_faults nand)) /\
  (status = false ->
   forall b p, nd_pages nand1 b p =
               if (b =? blk) && (p =? page)
               then mkPage data (sp nand blk page) else nd_pages nand b p).
Proof.
  unfold nandWritePageData. destruct (pop_fault nand) as [f n1] eqn:E.
  apply pop_fault_frame in E. destruct E as (F & B & P & L).
  destruct f; intros H; inversion H; subst.
  - split; [exact F|]. split; [exact B|]. split; [auto|discriminate].
  - unfold frame in *. cbn. destruct F as (F1 & F2 & F3 & F4 & F5).
    split; [auto|]. split; [exact B|]. split; [discriminate|].
    intros _ b p. unfold update_page; cbn. rewrite ?P. reflexivity.
Qed.

Lemma nandWritePageSpare_spec nand blk page buf status nand1 :
  nandWritePageSpare nand blk page buf = (status, nand1) ->
  frame nand nand1 /\ nd_bad nand1 = nd_bad nand /\
  (status = true ->
   nd_pages nand1 = nd_pages nand /\
   S (List.length (nd_faults nand1)) = List.length (nd_faults nand)) /\
  (status = false ->
   forall b p, nd_pages nand1 b p =
               if (b =? blk) && (p =? page)
               then mkPage (pg_data (nd_pages nand blk page)) buf
               else nd_pages nand b p).
Proof.
  unfold nandWritePageSpare. destruct (pop_fault nand) as [f n1] eqn:E.
  apply pop_fault_frame in E. destruct E as (F & B & P & L).
  destruct f; intros H; inversion H; subst.
  - split; [exact F|]. split; [exact B|]. split; [auto|discriminate].
  - unfold frame in *. cbn. destruct F as (F1 & F2 & F3 & F4 & F5).
    split; [auto|]. split; [exact B|]. split; [discriminate|].
    intros _ b p. unfold update_page; cbn. rewrite ?P. reflexivity.
Qed.

Lemma nandWritePageWhole_spec nand blk page buf len status nand1 :
  nandWritePageWhole nand blk page buf len = (status, nand1) ->
  frame nand nand1 /\ nd_bad nand1 = nd_bad nand /\
  (status = true ->
   nd_pages nand1 = nd_pages nand /\
   S (List.length (nd_faults nand1)) = List.length (nd_faults nand)) /\
  (status = false ->
   forall b p, nd_pages nand1 b p =
               if (b =? blk) && (p =? page)
               then program_page nand (nd_pages nand blk page)
                                 (firstn (Z.to_nat len) buf)
               else nd_pages nand b p).
Proof.
  unfold nandWritePageWhole. destruct (pop_fault nand) as [f n1] eqn:E.
  apply pop_fault_frame in E. destruct E as (F & B & P & L).
  destruct f; intros H; inversion H; subst.
  - split; [exact F|]. split; [exact B|]. split; [auto|discriminate].
  - unfold frame in *. cbn. destruct F as (F1 & F2 & F3 & F4 & F5).
    split; [auto|]. split; [exact B|]. split; [discriminate|].
    intros _ b p. unfold update_page; cbn. rewrite ?P. reflexivity.
Qed.

Lemma nandDataMove_spec nand src dst n status nand1 :
  nandDataMove nand src dst n = (status, nand1) ->
  frame nand nand1 /\ nd_bad nand1 = nd_bad nand /\
  (status = true ->
   nd_pages nand1 = nd_pages nand /\
   S (List.length (nd_faults nand1)) = List.length (nd_faults nand)) /\
  (status = false ->
   forall b p, nd_pages nand1 b p =
               if (b =? dst) && (0 <=? p) && (p <? n)
               then nd_pages nand src p else nd_pages nand b p).
Proof.
  unfold nandDataMove. destruct (pop_fault nand) as [f n1] eqn:E.
  apply pop_fault_frame in E. destruct E as (F & B & P & L).
  destruct f; intros H; inversion H; subst.
  - split; [exact F|]. split; [exact B|]. split; [auto|discriminate].
  - unfold frame in *. cbn. destruct F as (F1 & F2 & F3 & F4 & F5).
    split; [auto|]. split; [exact B|]. split; [discriminate|].
    intros _ b p. unfold update_page; cbn. rewrite ?P. reflexivity.
Qed.

(** *** [erase_next] and the invariant *)

Lemma valid_erased nand b p :
  nd_pages nand b p = erased_page nand -> valid softcrc32 nand b p = false.
Proof. unfold valid, sp. intros ->. reflexivity. Qed.

Lemma erase_next_shrinks nand cur t nand' :
  erase_next_post cfg nand cur t nand' -> shrinks softcrc32 cfg nand nand'.
Proof.
  intros (F & P & E & G & N). split; [exact F|].
  intros b Hb. destruct (Z.eq_dec b t) as [->|Hne].
  - exists 0. intros p Hp. split; [lia|]. intros _. apply valid_erased. apply E.
  - exists (ppb nand). intros p Hp. split; [|lia]. intros _.
    unfold sp. rewrite P by exact Hne. reflexivity.
Qed.

Lemma mark_bad_shrinks nand blk : shrinks softcrc32 cfg nand (nandMarkBad nand blk).
Proof.
  split; [apply frame_mark_bad|]. intros b _. exists (ppb nand). intros p Hp.
  split; [reflexivity|lia].
Qed.

Lemma tail_after_erase nand cur t nand' i :
  nand_inv softcrc32 cfg nand -> 1 <= i < 2 ^ 64 -> ids_below softcrc32 cfg nand i ->
  in_ring cfg cur \/ ring_all_bad cfg nand ->
  erase_next_post cfg nand cur t nand' ->
  tail_inv softcrc32 cfg nand' t 0 i.
Proof.
  intros Hinv Hi Hbelow Hcur Hpost.
  pose proof (erase_next_shrinks _ _ _ _ Hpost) as HS.
  pose proof Hinv as (Hc & Hg & _).
  destruct Hpost as (F & P & E & G & N).
  split; [unfold geo_ok in Hg; rewrite (frame_ppb _ _ F); lia|].
  split; [exact Hi|]. split; [eapply shrinks_ids_below; eauto; lia|]. split.
  - intros Ht. split; [|split; [|split]].
    + destruct G as [->|G]; [|exact G]. exfalso. eapply not_found_outside; eauto.
    + intros q Hq. lia.
    + intros q _. apply valid_erased. apply E.
    + lia.
  - intros Ht. destruct Hcur as [Hcur|Hall]; [|eapply frame_all_bad; eauto].
    destruct (N Hcur) as [(_ & A)|(A & _)]; [exact A|contradiction].
Qed.

Lemma same_log_valid n n1 b p : same_log n n1 -> valid softcrc32 n1 b p = valid softcrc32 n b p.
Proof. intros (_ & _ & H). apply valid_sp. apply H. Qed.

Lemma same_log_rid n n1 b p : same_log n n1 -> rid n1 b p = rid n b p.
Proof. intros (_ & _ & H). apply rid_sp. apply H. Qed.

Lemma same_log_shrinks n n1 : same_log n n1 -> shrinks softcrc32 cfg n n1.
Proof.
  intros (F & B & H). split; [exact F|]. intros b _. exists (ppb n).
  intros p Hp. split; [intros _; apply H|lia].
Qed.

Lemma same_log_tail_inv n n1 c p i :
  same_log n n1 -> tail_inv softcrc32 cfg n c p i -> tail_inv softcrc32 cfg n1 c p i.
Proof.
  intros HS. pose proof HS as (F & B & H).
  unfold tail_inv, ids_below, good, ring_all_bad.
  rewrite (frame_ppb _ _ F), B.
  setoid_rewrite (fun b p => same_log_valid n n1 b p HS).
  setoid_rewrite (fun b p => same_log_rid n n1 b p HS).
  auto.
Qed.

Lemma tail_to_src nand c p i :
  tail_inv softcrc32 cfg nand c p i -> p < ppb nand ->
  src_inv softcrc32 cfg (nandMarkBad nand c) c p i.
Proof.
  intros (Hp & Hi & Hbelow & Hin & Hout) Hlt.
  pose proof (frame_mark_bad nand c) as F.
  split; [rewrite (frame_ppb _ _ F); lia|]. split; [exact Hi|]. split; [|split].
  - intros b q Hb G Hq. rewrite (frame_ppb _ _ F) in Hq.
    exact (Hbelow b q Hb (frame_good _ _ _ F G) Hq).
  - intros Hc. destruct (Hin Hc) as (G & V & I & O). split; [|split].
    + cbn. rewrite Z.eqb_refl. reflexivity.
    + intros q Hq. split; [exact (V q Hq)|]. apply (Hbelow c q Hc G). lia.
    + intros Hp0 b q Hb Gb Hne Hq. rewrite (frame_ppb _ _ F) in Hq.
      exact (O Hp0 b q Hb (frame_good _ _ _ F Gb) Hne Hq).
  - intros Hc. eapply frame_all_bad; eauto.
Qed.

Lemma first_page_valid_rid nand c :
  block_inv softcrc32 nand c -> valid softcrc32 nand c 0 = true -> 0 < ppb nand -> 1 <= rid nand c 0.
Proof.
  intros (k & Hk & Hv & Hr & _) V Hg.
  assert (0 < k) by (apply Hv; [lia|exact V]).
  specialize (Hr 0). lia.
Qed.

Lemma rescue_erase_step nand c p i t n3 :
  nand_inv softcrc32 cfg nand -> src_inv softcrc32 cfg nand c p i ->
  erase_next_post cfg nand c t n3 ->
  nand_inv softcrc32 cfg n3 /\ src_inv softcrc32 cfg n3 c p i /\
  (in_ring cfg t -> in_ring cfg c /\ t <> c /\ good n3 t) /\
  (in_ring cfg c -> forall q, nd_pages n3 c q = nd_pages nand c q) /\
  (~ in_ring cfg t -> ring_all_bad cfg n3).
Proof.
  intros Hinv (Hp & Hi & Hbelow & Hin & Hout) Hpost.
  pose proof (erase_next_shrinks _ _ _ _ Hpost) as HS.
  pose proof Hinv as (Hc & Hg & Hblk & _).
  destruct Hpost as (F & P & E & G & N).
  assert (Hgood : in_ring cfg t -> good n3 t).
  { intros Ht. destruct G as [->|G]; [|exact G].
    exfalso. eapply not_found_outside; eauto. }
  assert (Htc : in_ring cfg t -> in_ring cfg c /\ t <> c).
  { intros Ht. specialize (Hgood Ht).
    assert (Hc' : in_ring cfg c).
    { destruct (Z_le_dec (start_blk cfg) c) as [L1|L1];
        [destruct (Z_lt_dec c (start_blk cfg + len cfg)) as [L2|L2];
         [split; assumption|]|];
      exfalso;
      (assert (Hn : ~ in_ring cfg c) by (unfold in_ring; lia));
      pose proof (frame_all_bad cfg _ _ F (Hout Hn) t Ht) as B;
      unfold good in Hgood; congruence. }
    split; [exact Hc'|]. intros ->.
    destruct (Hin Hc') as (B & _). destruct F as (_ & _ & _ & M & _).
    apply M in B. unfold good in Hgood. congruence. }
  assert (Hsame : in_ring cfg c -> forall q, nd_pages n3 c q = nd_pages nand c q).
  { intros Hc' q. apply P. intros ->.
    destruct G as [E0|G].
    - rewrite E0 in Hc'. eapply not_found_outside; eauto.
    - destruct (Hin Hc') as (B & _). destruct F as (_ & _ & _ & M & _).
      apply M in B. unfold good in G. congruence. }
  split; [eapply shrinks_nand_inv; eauto|]. split; [|split; [|split]].
  - split; [rewrite (frame_ppb _ _ F); exact Hp|]. split; [exact Hi|].
    split; [eapply shrinks_ids_below; eauto; lia|]. split.
    + intros Hc'. destruct (Hin Hc') as (B & V & O).
      specialize (Hsame Hc').
      assert (Esp : forall q, sp n3 c q = sp nand c q)
        by (intros q; unfold sp; rewrite Hsame; reflexivity).
      split; [destruct F as (_ & _ & _ & M & _); auto|]. split.
      * intros q Hq. rewrite (valid_sp n3 nand c q c q) by apply Esp.
        rewrite (rid_sp n3 nand c q c q) by apply Esp. auto.
      * intros Hp0 b q Hb Gb Hne Hq. rewrite (frame_ppb _ _ F) in Hq.
        rewrite (rid_sp n3 nand c 0 c 0) by apply Esp.
        pose proof (O Hp0 b q Hb (frame_good _ _ _ F Gb) Hne Hq) as Lt.
        assert (1 <= rid nand c 0).
        { apply first_page_valid_rid; [auto| |unfold geo_ok in Hg; lia].
          apply V. lia. }
        destruct (shrinks_rid nand n3 b q HS Hb Hq) as [Eq|Eq]; lia.
    + intros Hc'. eapply frame_all_bad; eauto.
  - intros Ht. destruct (Htc Ht). auto.
  - exact Hsame.
  - intros Ht.
    destruct (Z_le_dec (start_blk cfg) c) as [L1|L1];
      [destruct (Z_lt_dec c (start_blk cfg + len cfg)) as [L2|L2]|].
    + destruct (N (conj L1 L2)) as [(_ & A)|(A & _)]; [exact A|contradiction].
    + eapply frame_all_bad; [exact F|]. apply Hout. unfold in_ring. lia.
    + eapply frame_all_bad; [exact F|]. apply Hout. unfold in_ring. lia.
Qed.

Lemma in_ring_dec b : {in_ring cfg b} + {~ in_ring cfg b}.
Proof.
  unfold in_ring.
  destruct (Z_le_dec (start_blk cfg) b); [|right; lia].
  destruct (Z_lt_dec b (start_blk cfg + len cfg)); [left; lia|right; lia].
Qed.

Lemma block_inv_ext n n' b :
  ppb n' = ppb n -> (forall q, sp n' b q = sp n b q) ->
  block_inv softcrc32 n b -> block_inv softcrc32 n' b.
Proof.
  intros Ep Es. unfold block_inv. rewrite Ep.
  setoid_rewrite (fun q => valid_sp n' n b q b q (Es q)).
  setoid_rewrite (fun q => rid_sp n' n b q b q (Es q)).
  auto.
Qed.

(** Pages [[0, p)] of the failed block [c] arrive in the erased block [t]. *)
Lemma rescue_move_step n3 c p i t n4 :
  nand_inv softcrc32 cfg n3 -> src_inv softcrc32 cfg n3 c p i -> block_erased n3 t ->
  (in_ring cfg t -> in_ring cfg c /\ t <> c /\ good n3 t) ->
  (~ in_ring cfg t -> ring_all_bad cfg n3) ->
  frame n3 n4 -> nd_bad n4 = nd_bad n3 ->
  (forall b q, nd_pages n4 b q =
               if (b =? t) && (0 <=? q) && (q <? p)
               then nd_pages n3 c q else nd_pages n3 b q) ->
  nand_inv softcrc32 cfg n4 /\ tail_inv softcrc32 cfg n4 t p i.
Proof.
  intros Hinv (Hp & Hi & Hbelow & Hin & Hout) Her Ht Hnt F B Epg.
  pose proof Hinv as (Hc & Hg & Hblk & Hord).
  pose proof (frame_ppb _ _ F) as Ep.
  assert (Esp_other : forall b q, b <> t -> sp n4 b q = sp n3 b q).
  { intros b q Hne. unfold sp. rewrite Epg.
    apply Z.eqb_neq in Hne. rewrite Hne. reflexivity. }
  assert (Esp_in : forall q, 0 <= q < p -> sp n4 t q = sp n3 c q).
  { intros q Hq. unfold sp. rewrite Epg. rewrite Z.eqb_refl.
    destruct (Z.leb_spec 0 q); [|lia]. destruct (Z.ltb_spec q p); [|lia].
    reflexivity. }
  assert (Eout : forall q, ~ 0 <= q < p -> valid softcrc32 n4 t q = false).
  { intros q Hq. unfold valid, sp. rewrite Epg. rewrite Z.eqb_refl.
    destruct (Z.leb_spec 0 q); destruct (Z.ltb_spec q p); try lia;
      cbn [andb]; rewrite Her; reflexivity. }
  destruct (in_ring_dec t) as [Hit|Hot].
  - destruct (Ht Hit) as (Hic & Htc & Gt).
    destruct (Hin Hic) as (Bc & Vc & Oc).
    assert (Hblk4 : forall b, in_ring cfg b -> block_inv softcrc32 n4 b).
    { intros b Hb. destruct (Z.eq_dec b t) as [->|Hne].
      - destruct (Hblk c Hic) as (k & Hk & Hv & Hr & Hm).
        assert (Hpk : p <= k).
        { destruct (Z_le_dec p 0) as [L|L]; [lia|].
          assert (valid softcrc32 n3 c (p - 1) = true) by (apply Vc; lia).
          assert (p - 1 < k) by (apply Hv; [lia|assumption]). lia. }
        exists p. rewrite Ep. split; [lia|]. split; [|split].
        + intros q Hq. destruct (Z_lt_dec q p) as [L|L].
          * rewrite (valid_sp n4 n3 t q c q) by (apply Esp_in; lia).
            split; [intros _; exact L|intros _; apply Vc; lia].
          * rewrite Eout by lia. split; [discriminate|lia].
        + intros q Hq. rewrite (rid_sp n4 n3 t q c q) by (apply Esp_in; lia).
          apply Hr. lia.
        + intros q1 q2 H1 H12 H2.
          rewrite (rid_sp n4 n3 t q1 c q1) by (apply Esp_in; lia).
          rewrite (rid_sp n4 n3 t q2 c q2) by (apply Esp_in; lia).
          apply Hm; lia.
      - apply (block_inv_ext n3); auto. }
    assert (Hrid_t0 : 1 <= rid n4 t 0 -> 0 < p /\ rid n4 t 0 = rid n3 c 0).
    { intros H1. destruct (Z_lt_dec 0 p) as [L|L].
      - split; [exact L|]. apply rid_sp. apply Esp_in. lia.
      - rewrite rid_invalid in H1 by (apply Eout; lia). lia. }
    assert (Hother : forall b q, in_ring cfg b -> good n4 b -> b <> t ->
                       0 <= q < ppb n3 -> 0 < p -> rid n4 b q < rid n3 c 0).
    { intros b q Hb Gb Hne Hq Hp0.
      rewrite (rid_sp n4 n3 b q b q) by (apply Esp_other; exact Hne).
      unfold good in Gb. rewrite B in Gb.
      apply Oc; auto. intros ->. congruence. }
    split.
    + split; [eapply frame_cfg_ok; eauto|]. split; [eapply frame_geo_ok; eauto|].
      split; [exact Hblk4|].
      intros b1 b2 H1 H2 G1 G2 Hne R1 R2. rewrite Ep.
      destruct (Z.eq_dec b1 t) as [E1|E1]; [|destruct (Z.eq_dec b2 t) as [E2|E2]].
      * subst b1. destruct (Hrid_t0 R1) as (Hp0 & E0). right. rewrite E0.
        intros q Hq. apply Hother; auto.
      * subst b2. destruct (Hrid_t0 R2) as (Hp0 & E0). left. rewrite E0.
        intros q Hq. apply Hother; auto.
      * unfold good in G1, G2. rewrite B in G1, G2.
        rewrite (rid_sp n4 n3 b1 0 b1 0) in * by (apply Esp_other; exact E1).
        rewrite (rid_sp n4 n3 b2 0 b2 0) in * by (apply Esp_other; exact E2).
        destruct (Hord b1 b2 H1 H2 G1 G2 Hne R1 R2) as [L|L]; [left|right];
          intros q Hq.
        -- rewrite (rid_sp n4 n3 b1 q b1 q) by (apply Esp_other; exact E1). auto.
        -- rewrite (rid_sp n4 n3 b2 q b2 q) by (apply Esp_other; exact E2). auto.
    + split; [rewrite Ep; lia|]. split; [exact Hi|]. split; [|split].
      * intros b q Hb Gb Hq. rewrite Ep in Hq.
        destruct (Z.eq_dec b t) as [->|Hne].
        -- destruct (Z_lt_dec q p) as [L|L].
           ++ rewrite (rid_sp n4 n3 t q c q) by (apply Esp_in; lia).
              apply Vc. lia.
           ++ rewrite rid_invalid by (apply Eout; lia). lia.
        -- rewrite (rid_sp n4 n3 b q b q) by (apply Esp_other; exact Hne).
           unfold good in Gb. rewrite B in Gb. apply Hbelow; auto.
      * intros _. split; [unfold good; rewrite B; exact Gt|].
        split; [|split].
        -- intros q Hq. rewrite (valid_sp n4 n3 t q c q) by (apply Esp_in; lia).
           apply Vc. lia.
        -- intros q Hq. apply Eout. lia.
        -- intros Hp0 b q Hb Gb Hne Hq. rewrite Ep in Hq.
           rewrite (rid_sp n4 n3 t 0 c 0) by (apply Esp_in; lia).
           apply Hother; auto.
      * intros Hn. contradiction.
  - assert (HS : shrinks softcrc32 cfg n3 n4).
    { split; [exact F|]. intros b Hb. exists (ppb n3). intros q Hq.
      split; [|lia]. intros _. apply Esp_other. intros ->. contradiction. }
    split; [eapply shrinks_nand_inv; eauto|].
    split; [rewrite Ep; lia|]. split; [exact Hi|].
    split; [eapply shrinks_ids_below; eauto; lia|]. split.
    + intros Hn. contradiction.
    + intros _. eapply frame_all_bad; eauto.
Qed.

Lemma src_inv_shrinks n n' c p i :
  nand_inv softcrc32 cfg n -> src_inv softcrc32 cfg n c p i -> shrinks softcrc32 cfg n n' ->
  (in_ring cfg c -> forall q, sp n' c q = sp n c q) ->
  src_inv softcrc32 cfg n' c p i.
Proof.
  intros Hinv (Hp & Hi & Hbelow & Hin & Hout) HS Esp.
  pose proof HS as (F & _). pose proof Hinv as (Hc & Hg & Hblk & _).
  split; [rewrite (frame_ppb _ _ F); exact Hp|]. split; [exact Hi|].
  split; [eapply shrinks_ids_below; eauto; lia|]. split.
  - intros Hc'. destruct (Hin Hc') as (B & V & O). specialize (Esp Hc').
    split; [destruct F as (_ & _ & _ & M & _); auto|]. split.
    + intros q Hq. rewrite (valid_sp n' n c q c q) by apply Esp.
      rewrite (rid_sp n' n c q c q) by apply Esp. auto.
    + intros Hp0 b q Hb Gb Hne Hq. rewrite (frame_ppb _ _ F) in Hq.
      rewrite (rid_sp n' n c 0 c 0) by apply Esp.
      pose proof (O Hp0 b q Hb (frame_good _ _ _ F Gb) Hne Hq) as Lt.
      assert (1 <= rid n c 0).
      { apply first_page_valid_rid; [auto| |unfold geo_ok in Hg; lia].
        apply V. lia. }
      destruct (shrinks_rid n n' b q HS Hb Hq) as [Eq|Eq]; lia.
  - intros Hc'. eapply frame_all_bad; eauto.
Qed.

Lemma block_data_rescue_retry_spec fuel :
  forall ring n c p i t n',
    cur_blk ring = c -> nand_inv softcrc32 cfg n -> src_inv softcrc32 cfg n c p i ->
    block_data_rescue_retry fuel cfg ring n c p = Ok (t, n') ->
    rescue_post softcrc32 cfg n c p i t n'.
Proof.
  induction fuel as [|fuel IH]; intros ring n c p i t n' Hcur Hinv Hsrc H;
    cbn [block_data_rescue_retry] in H; [discriminate|].
  rewrite Hcur in H.
  destruct (erase_next fuel cfg n c) as [[t3 n3]| |] eqn:He; cbn [bind] in H;
    try discriminate.
  apply erase_next_spec in He; [|apply Hinv].
  destruct (rescue_erase_step _ _ _ _ _ _ Hinv Hsrc He)
    as (Hinv3 & Hsrc3 & Ht3 & Hsame3 & Hout3).
  pose proof He as (F3 & P3 & E3 & G3 & N3).
  destruct (nandDataMove n3 c t3 p) as [status n4] eqn:Hm.
  apply nandDataMove_spec in Hm. destruct Hm as (F4 & B4 & Hfail & Hsucc).
  destruct status; cbn [nandFailed] in H.
  - destruct (Hfail eq_refl) as (Pg4 & _).
    assert (HS : shrinks softcrc32 cfg n3 (nandMarkBad n4 t3)).
    { eapply shrinks_trans; [|apply mark_bad_shrinks].
      apply same_log_shrinks. split; [exact F4|]. split; [exact B4|].
      intros b q. unfold sp. rewrite Pg4. reflexivity. }
    assert (Esp : forall b q, nd_pages (nandMarkBad n4 t3) b q = nd_pages n3 b q).
    { intros b q. cbn. rewrite Pg4. reflexivity. }
    apply (IH ring _ c p i t n' Hcur) in H.
    + destruct H as (Hinv' & Htail' & F' & Hin' & Hout').
      split; [exact Hinv'|]. split; [exact Htail'|]. split; [|split].
      * eapply frame_trans; [exact F3|]. destruct HS as (FS & _).
        eapply frame_trans; [exact FS|exact F'].
      * intros Ht. destruct (Hin' Ht) as (Hc & Hne & Hpg).
        split; [exact Hc|]. split; [exact Hne|].
        intros q Hq. rewrite Hpg by exact Hq. rewrite Esp. auto.
      * exact Hout'.
    + eapply shrinks_nand_inv; eauto.
    + eapply src_inv_shrinks; eauto.
      intros _ q. unfold sp. rewrite Esp. reflexivity.
  - inversion H; subst t3 n4. clear H. specialize (Hsucc eq_refl).
    destruct (rescue_move_step n3 c p i t n' Hinv3 Hsrc3 E3 Ht3 Hout3 F4 B4 Hsucc)
      as (Hinv' & Htail').
    split; [exact Hinv'|]. split; [exact Htail'|].
    split; [eapply frame_trans; eauto|]. split.
    + intros Ht. destruct (Ht3 Ht) as (Hc & Hne & _).
      split; [exact Hc|]. split; [exact Hne|].
      intros q Hq. rewrite Hsucc. rewrite Z.eqb_refl.
      destruct (Z.leb_spec 0 q); [|lia]. destruct (Z.ltb_spec q p); [|lia].
      cbn [andb]. auto.
    + intros q Hq. rewrite Hsucc. rewrite Z.eqb_refl.
      destruct (Z.leb_spec 0 q); destruct (Z.ltb_spec q p); try lia;
        cbn [andb]; rewrite E3; apply eq_sym, erased_page_frame; exact F4.
Qed.

Lemma block_data_rescue_spec fuel ring n c p i t n' :
  cur_blk ring = c -> nand_inv softcrc32 cfg n -> src_inv softcrc32 cfg n c p i ->
  block_data_rescue fuel cfg ring n c p = Ok (t, n') ->
  rescue_post softcrc32 cfg n c p i t n'.
Proof.
  intros Hcur Hinv Hsrc H. unfold block_data_rescue in H.
  destruct (Z.ltb_spec 0 p) as [Hp|Hp].
  - eapply block_data_rescue_retry_spec; eauto.
  - rewrite Hcur in H. apply erase_next_spec in H; [|apply Hinv].
    destruct (rescue_erase_step _ _ _ _ _ _ Hinv Hsrc H)
      as (Hinv3 & Hsrc3 & Ht3 & Hsame3 & Hout3).
    pose proof H as (F3 & P3 & E3 & G3 & N3).
    assert (Hp0 : p = 0) by (destruct Hsrc as (? & _); lia). subst p.
    destruct (rescue_move_step n' c 0 i t n' Hinv3 Hsrc3 E3 Ht3 Hout3
                (frame_refl n') eq_refl) as (Hinv' & Htail').
    { intros b q. destruct (b =? t); destruct (0 <=? q) eqn:E1;
        destruct (q <? 0) eqn:E2; cbn [andb]; try reflexivity. zbool. lia. }
    split; [exact Hinv'|]. split; [exact Htail'|]. split; [exact F3|]. split.
    + intros Ht. destruct (Ht3 Ht) as (Hc & Hne & _).
      split; [exact Hc|]. split; [exact Hne|]. intros q Hq. lia.
    + intros q _. apply E3.
Qed.

(** *** Sealing a page *)

Lemma seal_step n c p i n2 h :
  nand_inv softcrc32 cfg n -> tail_inv softcrc32 cfg n c p i -> p < ppb n -> i < 2 ^ 64 - 1 ->
  frame n n2 -> nd_bad n2 = nd_bad n ->
  (forall b q, sp n2 b q =
               if (b =? c) && (q =? p) then SpareHeader h else sp n b q) ->
  id h = i -> header_crc_valid softcrc32 (SpareHeader h) = true ->
  nand_inv softcrc32 cfg n2 /\ tail_inv softcrc32 cfg n2 c (p + 1) (i + 1).
Proof.
  intros Hinv (Hp & Hi & Hbelow & Hin & Hout) Hlt Hmax F B Esp Hid Hval.
  pose proof Hinv as (Hc & Hg & Hblk & Hord).
  pose proof (frame_ppb _ _ F) as Ep.
  assert (Esp_other : forall b q, b <> c \/ q <> p -> sp n2 b q = sp n b q).
  { intros b q Hne. rewrite Esp.
    destruct (Z.eqb_spec b c); destruct (Z.eqb_spec q p); cbn [andb];
      try reflexivity. lia. }
  assert (Esp_new : sp n2 c p = SpareHeader h).
  { rewrite Esp. rewrite !Z.eqb_refl. reflexivity. }
  assert (Hrid_new : rid n2 c p = i).
  { unfold read_page_id, nandReadPageSpare. fold (sp n2 c p).
    rewrite Esp_new, Hval. cbn. exact Hid. }
  assert (Hval_new : valid softcrc32 n2 c p = true).
  { unfold valid. rewrite Esp_new. exact Hval. }
  destruct (in_ring_dec c) as [Hic|Hoc].
  - destruct (Hin Hic) as (G & V & I & O).
    assert (Hrid_c0 : forall b q, in_ring cfg b -> good n b -> b <> c ->
                        0 <= q < ppb n -> rid n b q < rid n2 c 0).
    { intros b q Hb Gb Hne Hq. destruct (Z.eq_dec p 0) as [->|Hp0].
      - rewrite Hrid_new. apply Hbelow; auto.
      - rewrite (rid_sp n2 n c 0 c 0) by (apply Esp_other; lia).
        apply O; auto. lia. }
    split.
    + split; [eapply frame_cfg_ok; eauto|]. split; [eapply frame_geo_ok; eauto|].
      split.
      * intros b Hb. destruct (Z.eq_dec b c) as [->|Hne].
        -- destruct (Hblk c Hic) as (k & Hk & Hv & Hr & Hm).
           assert (k = p).
           { destruct (Z_lt_dec p k) as [L|L].
             - assert (valid softcrc32 n c p = true) by (apply Hv; lia).
               rewrite I in H by lia. discriminate.
             - destruct (Z_lt_dec k p) as [L'|L']; [|lia].
               assert (k < k) by (apply Hv; [lia|apply V; lia]). lia. }
           subst k. exists (p + 1). rewrite Ep. split; [lia|]. split; [|split].
           ++ intros q Hq. destruct (Z.eq_dec q p) as [->|Hqp].
              ** rewrite Hval_new. split; [lia|reflexivity].
              ** rewrite (valid_sp n2 n c q c q) by (apply Esp_other; lia).
                 rewrite Hv by lia. lia.
           ++ intros q Hq. destruct (Z.eq_dec q p) as [->|Hqp].
              ** rewrite Hrid_new. lia.
              ** rewrite (rid_sp n2 n c q c q) by (apply Esp_other; lia).
                 apply Hr. lia.
           ++ intros q1 q2 H1 H12 H2.
              rewrite (rid_sp n2 n c q1 c q1) by (apply Esp_other; lia).
              destruct (Z.eq_dec q2 p) as [->|Hqp].
              ** rewrite Hrid_new. apply Hbelow; auto. lia.
              ** rewrite (rid_sp n2 n c q2 c q2) by (apply Esp_other; lia).
                 apply Hm; lia.
        -- apply (block_inv_ext n); auto.
      * intros b1 b2 H1 H2 G1 G2 Hne R1 R2. rewrite Ep.
        unfold good in G1, G2. rewrite B in G1, G2.
        destruct (Z.eq_dec b1 c) as [E1|E1]; [|destruct (Z.eq_dec b2 c) as [E2|E2]].
        -- subst b1. right. intros q Hq.
           rewrite (rid_sp n2 n b2 q b2 q) by (apply Esp_other; auto).
           apply Hrid_c0; auto.
        -- subst b2. left. intros q Hq.
           rewrite (rid_sp n2 n b1 q b1 q) by (apply Esp_other; auto).
           apply Hrid_c0; auto.
        -- rewrite (rid_sp n2 n b1 0 b1 0) in * by (apply Esp_other; auto).
           rewrite (rid_sp n2 n b2 0 b2 0) in * by (apply Esp_other; auto).
           destruct (Hord b1 b2 H1 H2 G1 G2 Hne R1 R2) as [L|L]; [left|right];
             intros q Hq.
           ++ rewrite (rid_sp n2 n b1 q b1 q) by (apply Esp_other; auto). auto.
           ++ rewrite (rid_sp n2 n b2 q b2 q) by (apply Esp_other; auto). auto.
    + split; [rewrite Ep; lia|]. split; [lia|]. split; [|split].
      * intros b q Hb Gb Hq. rewrite Ep in Hq. unfold good in Gb. rewrite B in Gb.
        destruct (Z.eq_dec b c) as [->|Hne]; [destruct (Z.eq_dec q p) as [->|Hqp]|].
        -- rewrite Hrid_new. lia.
        -- rewrite (rid_sp n2 n c q c q) by (apply Esp_other; lia).
           specialize (Hbelow c q Hb Gb Hq). lia.
        -- rewrite (rid_sp n2 n b q b q) by (apply Esp_other; auto).
           specialize (Hbelow b q Hb Gb Hq). lia.
      * intros _. split; [unfold good; rewrite B; exact G|]. split; [|split].
        -- intros q Hq. destruct (Z.eq_dec q p) as [->|Hqp]; [exact Hval_new|].
           rewrite (valid_sp n2 n c q c q) by (apply Esp_other; lia).
           apply V. lia.
        -- intros q Hq. rewrite Ep in Hq.
           rewrite (valid_sp n2 n c q c q) by (apply Esp_other; lia).
           apply I. lia.
        -- intros _ b q Hb Gb Hne Hq. rewrite Ep in Hq.
           unfold good in Gb. rewrite B in Gb.
           rewrite (rid_sp n2 n b q b q) by (apply Esp_other; auto).
           apply Hrid_c0; auto.
      * intros Hn. contradiction.
  - assert (HS : shrinks softcrc32 cfg n n2).
    { split; [exact F|]. intros b Hb. exists (ppb n). intros q Hq.
      split; [|lia]. intros _. apply Esp_other. left. intros ->. contradiction. }
    split; [eapply shrinks_nand_inv; eauto|].
    split; [rewrite Ep; lia|]. split; [lia|]. split; [|split].
    + intros b q Hb Gb Hq.
      pose proof (shrinks_ids_below n n2 i HS Hinv (proj1 Hi) Hbelow b q Hb Gb Hq).
      lia.
    + intros Hn. contradiction.
    + intros _. eapply frame_all_bad; eauto.
Qed.

(** *** The append path *)

Lemma nandWritePageData_status nand blk page data status ecc nand1 :
  nandWritePageData nand blk page data = (status, ecc, nand1) ->
  status = hd false (nd_faults nand) /\ nd_faults nand1 = tl (nd_faults nand).
Proof.
  unfold nandWritePageData, pop_fault.
  destruct (nd_faults nand) as [|[|] rest] eqn:E; intros H; inversion H; subst;
    cbn; rewrite ?E; auto.
Qed.

Lemma nandWritePageSpare_status nand blk page buf status nand1 :
  nandWritePageSpare nand blk page buf = (status, nand1) ->
  status = hd false (nd_faults nand) /\ nd_faults nand1 = tl (nd_faults nand).
Proof.
  unfold nandWritePageSpare, pop_fault.
  destruct (nd_faults nand) as [|[|] rest] eqn:E; intros H; inversion H; subst;
    cbn; rewrite ?E; auto.
Qed.

Lemma sealed_header_valid ecc i utc time :
  header_crc_valid softcrc32
    (SpareHeader
       (mkHeader ecc 0xFFFF i utc time
          (calc_spare_crc softcrc32 (mkHeader ecc 0xFFFF i utc time 0)))) = true.
Proof.
  unfold header_crc_valid, calc_spare_crc. cbn [page_ecc bad_mark id utc_correction
    time_boot_uS spare_crc]. rewrite Z.eqb_refl. reflexivity.
Qed.

Lemma set_cur_blk_same ring : set_cur_blk ring (cur_blk ring) = ring.
Proof. destruct ring. reflexivity. Qed.

Lemma nandRingWritePage_retry_spec fuel :
  forall ring n data ring1 n1,
    nand_inv softcrc32 cfg n ->
    tail_inv softcrc32 cfg n (cur_blk ring) (cur_page ring) (cur_id ring) ->
    cur_page ring < ppb n -> cur_id ring < 2 ^ 64 - 1 ->
    nandRingWritePage_retry softcrc32 fuel cfg ring n data = Ok (ring1, n1) ->
    write_post softcrc32 cfg ring n data ring1 n1.
Proof.
  induction fuel as [|fuel IH]; intros ring n data ring1 n1 Hinv Htail Hlt Hmax H;
    cbn [nandRingWritePage_retry] in H; [discriminate|].
  assert (Hfail : forall nx,
             same_log n nx ->
             (forall q, q <> cur_page ring ->
                        nd_pages nx (cur_blk ring) q = nd_pages n (cur_blk ring) q) ->
             program_failed n = true ->
             bind (block_data_rescue fuel cfg ring (nandMarkBad nx (cur_blk ring))
                                     (cur_blk ring) (cur_page ring))
                  (fun x => match x with
                            | (blk, n3) =>
                                nandRingWritePage_retry softcrc32 fuel cfg
                                  (set_cur_blk ring blk) n3 data
                            end) = Ok (ring1, n1) ->
             write_post softcrc32 cfg ring n data ring1 n1).
  { intros nx HSL Hpg Hpf Hb.
    destruct (block_data_rescue fuel cfg ring (nandMarkBad nx (cur_blk ring))
                                (cur_blk ring) (cur_page ring))
      as [[t n3]| |] eqn:Hr; cbn [bind] in Hb; try discriminate.
    pose proof HSL as (Fx & Bx & Sx).
    assert (Hinvx : nand_inv softcrc32 cfg nx)
      by (eapply shrinks_nand_inv; [apply same_log_shrinks|]; eauto).
    assert (Htailx := same_log_tail_inv _ _ _ _ _ HSL Htail).
    assert (Hsrc : src_inv softcrc32 cfg (nandMarkBad nx (cur_blk ring)) (cur_blk ring)
                           (cur_page ring) (cur_id ring)).
    { apply tail_to_src; [exact Htailx|]. rewrite (frame_ppb _ _ Fx). exact Hlt. }
    assert (Hinv2 : nand_inv softcrc32 cfg (nandMarkBad nx (cur_blk ring)))
      by (eapply shrinks_nand_inv; [apply mark_bad_shrinks|]; eauto).
    apply (block_data_rescue_spec fuel ring _ _ _ (cur_id ring)) in Hr; auto.
    destruct Hr as (Hinv3 & Htail3 & F3 & Hin3 & Hout3).
    assert (F03 : frame n n3).
    { eapply frame_trans; [exact Fx|].
      eapply frame_trans; [apply frame_mark_bad|exact F3]. }
    apply IH in Hb; auto.
    2:{ cbn. rewrite (frame_ppb _ _ F03). exact Hlt. }
    destruct Hb as (W1 & W2 & W3 & W4 & W5 & W6 & W7 & W8 & W9 & W10).
    cbn [cur_blk cur_page cur_id set_cur_blk] in *.
    split; [rewrite W1; reflexivity|]. split; [exact W2|]. split; [exact W3|].
    split; [eapply frame_trans; eauto|]. split; [exact W5|]. split; [exact W6|].
    split; [exact W7|]. split; [|split].
    - intros Hc'. destruct (W8 Hc') as (Ht & Hpg').
      destruct (Hin3 Ht) as (Hc & Hne & Hpg3). split; [exact Hc|].
      intros q Hq. rewrite Hpg' by exact Hq. rewrite Hpg3 by exact Hq.
      cbn. apply Hpg. lia.
    - intros _. split.
      + destruct W4 as (_ & _ & _ & M & _). apply M.
        destruct F3 as (_ & _ & _ & M3 & _). apply M3.
        cbn. rewrite Z.eqb_refl. reflexivity.
      + intros q Hq. destruct (program_failed n3) eqn:Hpf3.
        * apply (proj2 (W9 eq_refl)). exact Hq.
        * destruct (W10 eq_refl) as (Ec & _ & Hsame).
          rewrite Ec. rewrite Hsame by lia. rewrite Hout3 by lia.
          symmetry. apply erased_page_frame. exact W4.
    - intros Hf. congruence. }
  destruct (nandWritePageData n (cur_blk ring) (cur_page ring) data)
    as [[st ecc] na] eqn:Hd.
  pose proof (nandWritePageData_status _ _ _ _ _ _ _ Hd) as (Hst & Hfa).
  apply nandWritePageData_spec in Hd. destruct Hd as (Fa & Ba & Hdf & Hds).
  destruct st; cbn [nandFailed] in H.
  - destruct (Hdf eq_refl) as (Pa & _).
    apply (Hfail na); auto.
    + split; [exact Fa|]. split; [exact Ba|]. intros b q. unfold sp.
      rewrite Pa. reflexivity.
    + intros q _. rewrite Pa. reflexivity.
    + unfold program_failed. rewrite <- Hst. reflexivity.
  - specialize (Hds eq_refl).
    assert (Espa : forall b q, sp na b q = sp n b q).
    { intros b q. unfold sp at 1. rewrite Hds.
      destruct ((b =? cur_blk ring) && (q =? cur_page ring)) eqn:E; [|reflexivity].
      apply andb_true_iff in E. destruct E as (E1 & E2). zbool. subst.
      reflexivity. }
    match type of H with
    | context [nandWritePageSpare na ?b ?p ?buf] =>
        destruct (nandWritePageSpare na b p buf) as [st2 nb] eqn:Hs
    end.
    pose proof (nandWritePageSpare_status _ _ _ _ _ _ Hs) as (Hst2 & Hfb).
    apply nandWritePageSpare_spec in Hs. destruct Hs as (Fb & Bb & Hsf & Hss).
    destruct st2; cbn [nandFailed] in H.
    + destruct (Hsf eq_refl) as (Pb & _).
      apply (Hfail nb); auto.
      * split; [eapply frame_trans; eauto|]. split; [congruence|].
        intros b q. unfold sp at 1. rewrite Pb. apply Espa.
      * intros q Hq. rewrite Pb, Hds.
        apply Z.eqb_neq in Hq. rewrite Hq, andb_false_r. reflexivity.
      * unfold program_failed. rewrite <- Hst. rewrite <- Hfa, <- Hst2. reflexivity.
    + inversion H; subst ring1 n1. clear H. specialize (Hss eq_refl).
      unfold header2spare in Hss.
      match type of Hss with
      | context [SpareHeader ?h] => set (hdr := h) in *
      end.
      assert (Fn : frame n nb) by (eapply frame_trans; eauto).
      assert (Bn : nd_bad nb = nd_bad n) by congruence.
      assert (Espb : forall b q, sp nb b q =
                if (b =? cur_blk ring) && (q =? cur_page ring)
                then SpareHeader hdr else sp n b q).
      { intros b q. unfold sp at 1. rewrite Hss.
        destruct ((b =? cur_blk ring) && (q =? cur_page ring)); [reflexivity|].
        apply Espa. }
      destruct (seal_step n (cur_blk ring) (cur_page ring) (cur_id ring) nb hdr
                  Hinv Htail Hlt Hmax Fn Bn Espb eq_refl
                  (sealed_header_valid _ _ _ _)) as (Hinv' & Htail').
      assert (Enew : sp nb (cur_blk ring) (cur_page ring) = SpareHeader hdr).
      { rewrite Espb, !Z.eqb_refl. reflexivity. }
      split; [symmetry; apply set_cur_blk_same|]. split; [exact Hinv'|].
      split; [exact Htail'|]. split; [exact Fn|]. split; [|split; [|split]].
      * unfold valid. rewrite Enew. apply sealed_header_valid.
      * assert (Hv : header_crc_valid softcrc32 (SpareHeader hdr) = true)
          by apply sealed_header_valid.
        unfold read_page_id, nandReadPageSpare. fold (sp nb (cur_blk ring) (cur_page ring)).
        rewrite Enew, Hv. reflexivity.
      * rewrite Hss, !Z.eqb_refl. cbn [andb pg_data].
        rewrite Hds, !Z.eqb_refl. reflexivity.
      * split; [|split].
        -- intros Hc. split; [exact Hc|]. intros q Hq.
           rewrite Hss.
           destruct (Z.eqb_spec q (cur_page ring)) as [|Hne]; [lia|].
           rewrite andb_false_r, Hds. apply Z.eqb_neq in Hne.
           rewrite Hne, andb_false_r. reflexivity.
        -- unfold program_failed. rewrite <- Hst. rewrite <- Hfa, <- Hst2.
           discriminate.
        -- intros _. split; [reflexivity|]. split; [exact Bn|].
           intros b q Hne. rewrite Hss.
           destruct ((b =? cur_blk ring) && (q =? cur_page ring)) eqn:E.
           ++ apply andb_true_iff in E. destruct E as (E1' & E2'). zbool. lia.
           ++ rewrite Hds, E. reflexivity.
Qed.

Lemma tail_inv_cur_in_or_lost n c p i :
  tail_inv softcrc32 cfg n c p i -> in_ring cfg c \/ ring_all_bad cfg n.
Proof.
  intros (_ & _ & _ & _ & Hout). destruct (in_ring_dec c); auto.
Qed.

(** One call of [nandRingWritePage] on a mounted ring: the write-and-seal
    loop, then the step to the next page or to the next erased block. *)
Lemma nandRingWritePage_spec fuel ring n data ring' n' :
  ring_inv softcrc32 cfg ring n -> state ring = NAND_RING_MOUNTED ->
  cur_id ring < 2 ^ 64 - 1 ->
  nandRingWritePage softcrc32 fuel ring n (Some data) = Ok (ring', n') ->
  exists ring1 n1,
    write_post softcrc32 cfg ring n data ring1 n1 /\
    cur_id ring' = cur_id ring + 1 /\
    state ring' = NAND_RING_MOUNTED /\
    ring_inv softcrc32 cfg ring' n' /\
    ((cur_page ring + 1 < ppb n /\
      ring' = set_cur_page (set_cur_id ring1 (cur_id ring + 1)) (cur_page ring + 1) /\
      n' = n1) \/
     (cur_page ring + 1 = ppb n /\ cur_page ring' = 0 /\
      ring' = set_cur_blk (set_cur_page (set_cur_id ring1 (cur_id ring + 1)) 0)
                          (cur_blk ring') /\
      erase_next_post cfg n1 (cur_blk ring1) (cur_blk ring') n')).
Proof.
  intros (Hcfg & Hinv & Hm) Hst Hmax H. destruct (Hm Hst) as (Hlt & Htail).
  unfold nandRingWritePage in H. rewrite Hst, Hcfg in H.
  cbn [nandringstate_eqb osalDbgCheck bind] in H.
  destruct (nandRingWritePage_retry softcrc32 fuel cfg ring n data)
    as [[ring1 n1]| |] eqn:Hr; cbn [bind] in H; try discriminate.
  pose proof (nandRingWritePage_retry_spec _ _ _ _ _ _ Hinv Htail Hlt Hmax Hr) as W.
  exists ring1, n1. split; [exact W|].
  destruct W as (W1 & W2 & W3 & W4 & W5 & W6 & W7 & W8 & W9 & W10).
  pose proof Hinv as (_ & Hg & _). unfold geo_ok in Hg.
  pose proof Htail as (Hp & Hi & _).
  assert (E1 : cur_id ring1 = cur_id ring) by (rewrite W1; reflexivity).
  assert (E2 : cur_page ring1 = cur_page ring) by (rewrite W1; reflexivity).
  assert (E3 : state ring1 = state ring) by (rewrite W1; reflexivity).
  assert (E4 : config ring1 = config ring) by (rewrite W1; reflexivity).
  cbn [cur_id cur_page cur_blk set_cur_id set_cur_page] in H.
  rewrite E1, E2 in H.
  rewrite (u64_small (cur_id ring + 1)) in H by lia.
  rewrite (u32_small (cur_page ring + 1)) in H by lia.
  fold (ppb n) in H.
  destruct (Z.eqb_spec (cur_page ring + 1) (ppb n)) as [Heq|Hne].
  - destruct (erase_next fuel cfg n1 (cur_blk ring1)) as [[blk n2]| |] eqn:He;
      cbn [bind] in H; try discriminate.
    inversion H; subst ring' n'. clear H.
    apply erase_next_spec in He; [|apply W2].
    split; [reflexivity|]. split; [cbn; congruence|]. split.
    + split; [cbn; congruence|]. split.
      * eapply shrinks_nand_inv; [eapply erase_next_shrinks; eauto|exact W2].
      * intros _. split.
        -- cbn. destruct He as (F & _). rewrite (frame_ppb _ _ F).
           rewrite (frame_ppb _ _ W4). lia.
        -- cbn. eapply tail_after_erase; eauto.
           ++ lia.
           ++ apply W3.
           ++ eapply tail_inv_cur_in_or_lost; eauto.
    + right. split; [exact Heq|]. split; [reflexivity|]. split; [|exact He].
      reflexivity.
  - inversion H; subst ring' n'. clear H.
    split; [reflexivity|]. split; [cbn; congruence|]. split.
    + split; [cbn; congruence|]. split; [exact W2|].
      intros _. split.
      * cbn. rewrite (frame_ppb _ _ W4). lia.
      * cbn. exact W3.
    + left. split; [lia|]. split; reflexivity.
Qed.

(** *** The recovery scan *)

Lemma count_good_all_bad n nand b :
  (forall x, b <= x < b + Z.of_nat n -> nd_bad nand x = true) ->
  count_good n nand b = 0.
Proof.
  revert b. induction n as [|n IH]; intros b H; [reflexivity|].
  cbn [count_good]. rewrite H by lia. rewrite IH; [reflexivity|].
  intros x Hx. apply H. lia.
Qed.

Lemma good_blocks_some nand :
  0 < good_blocks cfg nand -> ~ ring_all_bad cfg nand.
Proof.
  intros Hpos Hall. unfold good_blocks in Hpos.
  rewrite count_good_all_bad in Hpos; [lia|].
  intros x Hx. apply Hall. unfold in_ring. lia.
Qed.

Lemma first_good_spec fuel nand f :
  cfg_ok cfg nand -> ~ ring_all_bad cfg nand ->
  first_good fuel cfg nand = Ok f ->
  in_ring cfg f /\ good nand f /\
  forall x, in_ring cfg x -> x < f -> nd_bad nand x = true.
Proof.
  intros Hok Hsome H. pose proof Hok as (Hs & Hl & Hb & Hk).
  unfold first_good in H.
  rewrite (u32_small (start_blk cfg + len cfg)) in H by lia.
  rewrite (u32_small (start_blk cfg + len cfg - 1)) in H by lia.
  apply next_good_spec in H; [|exact Hok|unfold in_ring; lia].
  destruct H as [(_ & A)|(A & G & Bt)]; [contradiction|].
  split; [exact A|]. split; [exact G|].
  intros x Hx Hlt. apply Bt; [exact Hx|].
  unfold in_ring in A. unfold between.
  destruct (Z.ltb_spec (start_blk cfg + len cfg - 1) f); lia.
Qed.

Lemma last_written_block_loop_spec nand first fuel :
  cfg_ok cfg nand ->
  in_ring cfg first -> good nand first ->
  (forall x, in_ring cfg x -> x < first -> nd_bad nand x = true) ->
  forall b last_blk last_id lb,
    in_ring cfg b -> good nand b -> first <= b ->
    scan_acc softcrc32 cfg nand b last_blk last_id ->
    last_written_block_loop softcrc32 fuel cfg nand first b last_blk last_id = Ok lb ->
    scan_post softcrc32 cfg nand lb.
Proof.
  intros Hok Hf Gf Hlow.
  induction fuel as [|fuel IH]; intros b last_blk last_id lb Hb Gb Hfb Hacc H;
    cbn [last_written_block_loop] in H; [discriminate|].
  set (idb := rid nand b 0) in *.
  assert (Hacc' : exists lb' li',
             (if last_id <=? idb then (b, idb) else (last_blk, last_id)) = (lb', li')
             /\ scan_acc softcrc32 cfg nand (b + 1) lb' li').
  { destruct (Z.leb_spec last_id idb) as [L|L].
    - exists b, idb. split; [reflexivity|]. right.
      split; [exact Hb|]. split; [exact Gb|]. split; [reflexivity|].
      destruct Hacc as [(_ & E & A)|(_ & _ & _ & L1 & A)].
      + split; [lia|]. intros x Hx Gx Hlt.
        destruct (Z.eq_dec x b) as [->|Hne]; [unfold idb; lia|].
        specialize (A x Hx Gx). lia.
      + split; [lia|]. intros x Hx Gx Hlt.
        destruct (Z.eq_dec x b) as [->|Hne]; [unfold idb; lia|].
        specialize (A x Hx Gx). lia.
    - exists last_blk, last_id. split; [reflexivity|].
      destruct Hacc as [(E0 & E & A)|(I1 & G1 & E1 & L1 & A)]; [left|right].
      + split; [exact E0|]. split; [exact E|]. intros x Hx Gx Hlt.
        destruct (Z.eq_dec x b) as [->|Hne]; [fold idb; lia|].
        apply A; auto. lia.
      + split; [exact I1|]. split; [exact G1|]. split; [exact E1|].
        split; [exact L1|]. intros x Hx Gx Hlt.
        destruct (Z.eq_dec x b) as [->|Hne]; [fold idb; lia|].
        apply A; auto. lia. }
  destruct Hacc' as (lb' & li' & Epair & Hacc').
  rewrite Epair in H. clear Epair.
  destruct (next_good fuel cfg nand b) as [b'| |] eqn:Hng; cbn [bind] in H;
    try discriminate.
  apply next_good_spec in Hng; [|exact Hok|exact Hb].
  destruct Hng as [(_ & A)|(Ib' & Gb' & Bt)].
  { specialize (A b Hb). unfold good in Gb. congruence. }
  destruct (Z.ltb_spec first b') as [L|L].
  - assert (Hbb' : b < b').
    { destruct (Z_lt_dec b b') as [Y|N]; [exact Y|]. exfalso.
      assert (nd_bad nand first = true).
      { apply Bt; [exact Hf|]. unfold between.
        destruct (Z.ltb_spec b b'); lia. }
      unfold good in Gf. congruence. }
    apply (IH b' lb' li' lb); auto; [lia|].
    assert (Hcover : forall x, in_ring cfg x -> good nand x -> x < b' -> x < b + 1).
    { intros x Hx Gx Hlt. destruct (Z_lt_dec x (b + 1)) as [Y|N]; [exact Y|].
      exfalso. assert (nd_bad nand x = true).
      { apply Bt; [exact Hx|]. unfold between.
        destruct (Z.ltb_spec b b'); lia. }
      unfold good in Gx. congruence. }
    destruct Hacc' as [(E0 & E & A)|(I1 & G1 & E1 & L1 & A)]; [left|right].
    + split; [exact E0|]. split; [exact E|]. intros x Hx Gx Hlt. auto.
    + split; [exact I1|]. split; [exact G1|]. split; [exact E1|].
      split; [exact L1|]. intros x Hx Gx Hlt. auto.
  - inversion H; subst lb'. clear H.
    assert (Hb'f : b' = first).
    { destruct (Z.eq_dec b' first) as [Y|N]; [exact Y|]. exfalso.
      assert (nd_bad nand b' = true) by (apply Hlow; [exact Ib'|lia]).
      unfold good in Gb'. congruence. }
    subst b'.
    assert (Hcover : forall x, in_ring cfg x -> good nand x -> x < b + 1).
    { intros x Hx Gx. destruct (Z_lt_dec x (b + 1)) as [Y|N]; [exact Y|].
      exfalso. assert (nd_bad nand x = true).
      { apply Bt; [exact Hx|]. unfold between.
        destruct (Z.ltb_spec b first); lia. }
      unfold good in Gx. congruence. }
    destruct Hacc' as [(E0 & E & A)|(I1 & G1 & E1 & L1 & A)]; [left|right].
    + split; [exact E0|]. intros x Hx Gx. auto.
    + split; [exact I1|]. split; [exact G1|]. split; [lia|].
      intros x Hx Gx. rewrite E1. auto.
Qed.

Lemma last_written_block_spec fuel nand lb :
  cfg_ok cfg nand -> ~ ring_all_bad cfg nand ->
  last_written_block softcrc32 fuel cfg nand = Ok lb ->
  scan_post softcrc32 cfg nand lb.
Proof.
  intros Hok Hsome H. unfold last_written_block in H.
  destruct (first_good fuel cfg nand) as [f| |] eqn:Hfg; cbn [bind] in H;
    try discriminate.
  destruct (first_good_spec _ _ _ Hok Hsome Hfg) as (If & Gf & Hlow).
  eapply last_written_block_loop_spec; eauto; [lia|].
  left. split; [reflexivity|]. split; [reflexivity|].
  intros x Hx Gx Hlt. specialize (Hlow x Hx Hlt). unfold good in Gx. congruence.
Qed.

Lemma last_written_page_loop_spec nand lb k :
  1 <= k <= ppb nand ->
  (forall p, 0 <= p < ppb nand -> (valid softcrc32 nand lb p = true <-> p < k)) ->
  (forall p, 0 <= p < k -> 1 <= rid nand lb p < 2 ^ 64 - 1) ->
  (forall p q, 0 <= p -> p < q -> q < k -> rid nand lb p < rid nand lb q) ->
  forall m page last_page last_id,
    0 <= page -> page + Z.of_nat m = ppb nand ->
    (page = 0 /\ last_id = 1) \/
    (0 < page /\ last_page = Z.min page k - 1 /\ last_id = rid nand lb last_page) ->
    last_written_page_loop softcrc32 m nand lb page last_page last_id = k - 1.
Proof.
  intros Hk Hv Hr Hm.
  induction m as [|m IH]; intros page last_page last_id Hp Hpm Hacc.
  - cbn. destruct Hacc as [(E & _)|(_ & E & _)]; lia.
  - cbn [last_written_page_loop].
    assert (Hpp : 0 <= page < ppb nand) by lia.
    destruct (Z_lt_dec page k) as [L|L].
    + assert (Hle : last_id <= rid nand lb page).
      { destruct Hacc as [(E0 & E1)|(P0 & E0 & E1)].
        - specialize (Hr page). lia.
        - subst. rewrite Z.min_l by lia.
          specialize (Hm (page - 1) page). lia. }
      apply Z.leb_le in Hle. rewrite Hle.
      apply IH; [lia|lia|]. right. split; [lia|].
      rewrite Z.min_l by lia. split; [lia|reflexivity].
    + assert (E : rid nand lb page = 0).
      { apply rid_invalid. destruct (valid softcrc32 nand lb page) eqn:V; [|reflexivity].
        apply Hv in V; [lia|exact Hpp]. }
      destruct Hacc as [(E0 & E1)|(P0 & E0 & E1)]; [lia|].
      rewrite Z.min_r in E0 by lia.
      assert (Hlt : rid nand lb page < last_id).
      { rewrite E, E1, E0. specialize (Hr (k - 1)). lia. }
      apply Z.leb_gt in Hlt. rewrite Hlt.
      apply IH; [lia|lia|]. right. split; [lia|].
      rewrite Z.min_r by lia. split; [exact E0|exact E1].
Qed.

Lemma last_written_page_spec nand lb k :
  geo_ok nand -> lb <> BLOCK_NOT_FOUND ->
  1 <= k <= ppb nand ->
  (forall p, 0 <= p < ppb nand -> (valid softcrc32 nand lb p = true <-> p < k)) ->
  (forall p, 0 <= p < k -> 1 <= rid nand lb p < 2 ^ 64 - 1) ->
  (forall p q, 0 <= p -> p < q -> q < k -> rid nand lb p < rid nand lb q) ->
  last_written_page softcrc32 nand lb = Ok (k - 1).
Proof.
  intros Hg Hne Hk Hv Hr Hm. unfold last_written_page.
  apply Z.eqb_neq in Hne. rewrite Z.eqb_sym in Hne. rewrite Hne.
  cbn [negb osalDbgCheck bind]. fold (ppb nand).
  rewrite (last_written_page_loop_spec nand lb k Hk Hv Hr Hm);
    [| lia | unfold geo_ok in Hg; lia | left; split; reflexivity].
  unfold geo_ok in Hg.
  assert (Hn : (LAST_PAGE_NOT_FOUND =? k - 1) = false)
    by (apply Z.eqb_neq; unfold LAST_PAGE_NOT_FOUND; lia).
  rewrite Hn. reflexivity.
Qed.

(** *** Closing the previous session *)

Lemma program_page_frame n1 n2 old bytes :
  frame n1 n2 -> program_page n2 old bytes = program_page n1 old bytes.
Proof. unfold frame, program_page. intros (A & _). rewrite A. reflexivity. Qed.

(** A raw program leaves the spare area as it was or leaves something that
    does not validate. *)
Lemma program_page_spare nand old bytes :
  pg_spare (program_page nand old bytes) = pg_spare old \/
  header_crc_valid softcrc32 (pg_spare (program_page nand old bytes)) = false.
Proof.
  unfold program_page, program_spare. cbn [pg_spare].
  destruct (firstn _ (skipn _ bytes)); [left; reflexivity|right].
  destruct (_ && _); reflexivity.
Qed.

Lemma close_prev_session_loop_spec lb buf :
  forall m nand page,
    let nand' := close_prev_session_loop m nand buf lb page in
    let closed q := program_page nand (nd_pages nand lb q)
                                 (firstn (Z.to_nat SCRATCHPAD_SIZE) buf) in
    frame nand nand' /\
    (forall b q, b <> lb \/ q < page \/ page + Z.of_nat m <= q ->
                 nd_pages nand' b q = nd_pages nand b q) /\
    (forall q, page <= q < page + Z.of_nat m ->
               nd_pages nand' lb q = nd_pages nand lb q \/
               nd_pages nand' lb q = closed q) /\
    (nd_faults nand = [] ->
     nd_bad nand' = nd_bad nand /\ nd_faults nand' = [] /\
     forall q, page <= q < page + Z.of_nat m -> nd_pages nand' lb q = closed q).
Proof.
  induction m as [|m IH]; intros nand page; cbn zeta.
  - cbn [close_prev_session_loop]. split; [apply frame_refl|].
    split; [reflexivity|]. split; [intros q Hq; lia|].
    intros E. split; [reflexivity|]. split; [exact E|]. intros q Hq. lia.
  - cbn [close_prev_session_loop].
    destruct (nandWritePageWhole nand lb page buf SCRATCHPAD_SIZE) as [st n1] eqn:Hw.
    assert (Hnf : nd_faults nand = [] -> st = false /\ nd_faults n1 = []).
    { intros E. unfold nandWritePageWhole, pop_fault in Hw. rewrite E in Hw.
      inversion Hw; subst. split; [reflexivity|]. cbn. exact E. }
    apply nandWritePageWhole_spec in Hw. destruct Hw as (F1 & B1 & Hf & Hs).
    set (n2 := if nandFailed st then nandMarkBad n1 lb else n1).
    assert (F2 : frame nand n2).
    { unfold n2. destruct st; cbn [nandFailed]; [|exact F1].
      eapply frame_trans; [exact F1|apply frame_mark_bad]. }
    assert (P2 : forall b q, nd_pages n2 b q = nd_pages n1 b q).
    { intros b q. unfold n2. destruct st; reflexivity. }
    specialize (IH n2 (page + 1)). cbn zeta in IH.
    destruct IH as (F' & Same' & Cl' & NF').
    assert (Hone : forall b q, b <> lb \/ q <> page ->
                     nd_pages n1 b q = nd_pages nand b q).
    { intros b q Hne. destruct st.
      - destruct (Hf eq_refl) as (E & _). rewrite E. reflexivity.
      - rewrite (Hs eq_refl).
        destruct (Z.eqb_spec b lb); destruct (Z.eqb_spec q page); cbn [andb];
          try reflexivity. lia. }
    assert (Hlater : forall q, q <> page ->
                       program_page n2 (nd_pages n2 lb q)
                                    (firstn (Z.to_nat SCRATCHPAD_SIZE) buf) =
                       program_page nand (nd_pages nand lb q)
                                    (firstn (Z.to_nat SCRATCHPAD_SIZE) buf)).
    { intros q Hq. rewrite (program_page_frame nand n2) by exact F2.
      rewrite P2, Hone by auto. reflexivity. }
    split; [eapply frame_trans; eauto|]. split; [|split].
    + intros b q Hq. rewrite Same' by lia. rewrite P2. apply Hone. lia.
    + intros q Hq. destruct (Z.eq_dec q page) as [->|Hne].
      * rewrite Same' by lia. rewrite P2. destruct st.
        -- left. destruct (Hf eq_refl) as (E & _). rewrite E. reflexivity.
        -- right. rewrite (Hs eq_refl), !Z.eqb_refl. reflexivity.
      * destruct (Cl' q) as [E|E]; [lia| |].
        -- left. rewrite E, P2. apply Hone. auto.
        -- right. rewrite E. apply Hlater. exact Hne.
    + intros E. destruct (Hnf E) as (-> & E1).
      assert (E2 : nd_faults n2 = []) by exact E1.
      destruct (NF' E2) as (Bn & Fn & Cn).
      split; [rewrite Bn; exact B1|]. split; [exact Fn|].
      intros q Hq. destruct (Z.eq_dec q page) as [->|Hne].
      * rewrite Same' by lia. rewrite P2, (Hs eq_refl), !Z.eqb_refl. reflexivity.
      * rewrite Cn by lia. apply Hlater. exact Hne.
Qed.

Lemma close_loop_shrinks nand lb buf k m :
  in_ring cfg lb -> 1 <= k ->
  (forall p, 0 <= p < ppb nand -> (valid softcrc32 nand lb p = true <-> p < k)) ->
  shrinks softcrc32 cfg nand (close_prev_session_loop m nand buf lb (k - 1)).
Proof.
  intros Hlb Hk Hv.
  destruct (close_prev_session_loop_spec lb buf m nand (k - 1)) as (F & Same & Cl & _).
  set (n1 := close_prev_session_loop m nand buf lb (k - 1)) in *.
  split; [exact F|]. intros b Hb.
  destruct (Z.eq_dec b lb) as [->|Hne].
  - assert (Hpage : forall q, 0 <= q < ppb nand ->
               sp n1 lb q = sp nand lb q \/
               (k - 1 <= q /\ valid softcrc32 n1 lb q = false)).
    { intros q Hq. unfold sp, valid.
      destruct (Z_lt_dec q (k - 1)) as [L|L]; [left; rewrite Same by lia; reflexivity|].
      destruct (Z_le_dec (k - 1 + Z.of_nat m) q) as [L'|L'];
        [left; rewrite Same by lia; reflexivity|].
      destruct (Cl q) as [E|E]; [lia|left; rewrite E; reflexivity|].
      unfold sp. rewrite E.
      destruct (program_page_spare nand (nd_pages nand lb q)
                  (firstn (Z.to_nat SCRATCHPAD_SIZE) buf)) as [S|V];
        [left; exact S|right; split; [lia|exact V]]. }
    exists (if valid softcrc32 n1 lb (k - 1) then k else k - 1).
    intros p Hp. destruct (Hpage p Hp) as [E|(L & Vp)].
    + split; [intros _; exact E|].
      intros Hkp. destruct (valid softcrc32 n1 lb (k - 1)) eqn:V.
      * rewrite (valid_sp n1 nand lb p lb p) by exact E.
        destruct (valid softcrc32 nand lb p) eqn:V'; [|reflexivity].
        apply Hv in V'; [lia|exact Hp].
      * destruct (Z.eq_dec p (k - 1)) as [->|Hne]; [exact V|].
        rewrite (valid_sp n1 nand lb p lb p) by exact E.
        destruct (valid softcrc32 nand lb p) eqn:V'; [|reflexivity].
        apply Hv in V'; [lia|exact Hp].
    + assert (Hge : (if valid softcrc32 n1 lb (k - 1) then k else k - 1) <= p).
      { destruct (valid softcrc32 n1 lb (k - 1)) eqn:V; [|exact L].
        destruct (Z.eq_dec p (k - 1)) as [->|Hne]; [congruence|lia]. }
      split; [lia|intros _; exact Vp].
  - exists (ppb nand). intros p Hp. split; [|lia].
    intros _. unfold sp. rewrite Same by auto. reflexivity.
Qed.

Lemma close_prev_session_spec fuel nand lb k blk nand' :
  nand_inv softcrc32 cfg nand -> in_ring cfg lb -> 1 <= k <= ppb nand ->
  (forall p, 0 <= p < ppb nand -> (valid softcrc32 nand lb p = true <-> p < k)) ->
  close_prev_session fuel cfg nand lb (k - 1) = Ok (blk, nand') ->
  exists nand1,
    shrinks softcrc32 cfg nand nand1 /\ erase_next_post cfg nand1 lb blk nand'.
Proof.
  intros Hinv Hlb Hk Hv H. unfold close_prev_session in H.
  match type of H with
  | erase_next _ _ ?n1 _ = _ => set (nand1 := n1) in *
  end.
  assert (HS : shrinks softcrc32 cfg nand nand1).
  { unfold nand1. destruct (negb (k - 1 =? u32 (pages_per_block (nd_config nand) - 1))).
    - apply close_loop_shrinks; auto. lia.
    - apply shrinks_refl. }
  exists nand1. split; [exact HS|].
  apply erase_next_spec in H; [exact H|].
  destruct HS as (F & _). eapply frame_cfg_ok; [exact F|apply Hinv].
Qed.

Lemma durable_max_empty nand :
  nand_inv softcrc32 cfg nand ->
  (forall b, in_ring cfg b -> good nand b -> rid nand b 0 < 1) ->
  durable_max softcrc32 cfg nand 0.
Proof.
  intros (_ & _ & Hblk & _) H. split; [lia|]. split; [|left; reflexivity].
  intros b q Hb Gb Hq.
  rewrite (block_inv_first_invalid nand b q); auto. lia.
Qed.

Lemma durable_max_scan nand lb k :
  nand_inv softcrc32 cfg nand ->
  in_ring cfg lb -> good nand lb -> 1 <= rid nand lb 0 ->
  (forall b, in_ring cfg b -> good nand b -> rid nand b 0 <= rid nand lb 0) ->
  1 <= k <= ppb nand ->
  (forall p, 0 <= p < ppb nand -> (valid softcrc32 nand lb p = true <-> p < k)) ->
  (forall p, 0 <= p < k -> 1 <= rid nand lb p < 2 ^ 64 - 1) ->
  (forall p q, 0 <= p -> p < q -> q < k -> rid nand lb p < rid nand lb q) ->
  durable_max softcrc32 cfg nand (rid nand lb (k - 1)).
Proof.
  intros (_ & Hg & Hblk & Hord) Hlb Glb H0 Hmax0 Hk Hv Hr Hm.
  assert (Hown : forall q, 0 <= q < ppb nand -> rid nand lb q <= rid nand lb (k - 1)).
  { intros q Hq. destruct (Z_lt_dec q k) as [L|L].
    - destruct (Z.eq_dec q (k - 1)) as [->|Hne]; [lia|].
      specialize (Hm q (k - 1)). lia.
    - rewrite (rid_invalid nand lb q).
      + specialize (Hr (k - 1)). lia.
      + destruct (valid softcrc32 nand lb q) eqn:V; [|reflexivity].
        apply Hv in V; [lia|exact Hq]. }
  split; [specialize (Hr (k - 1)); lia|]. split.
  - intros b q Hb Gb Hq. destruct (Z.eq_dec b lb) as [->|Hne]; [auto|].
    destruct (Z_lt_dec (rid nand b 0) 1) as [L|L].
    + rewrite (block_inv_first_invalid nand b q); auto.
      specialize (Hr (k - 1)). lia.
    + destruct (Hord b lb Hb Hlb Gb Glb Hne) as [A|A]; [lia|exact H0| |].
      * specialize (A q Hq). specialize (Hown 0). unfold geo_ok in Hg. lia.
      * unfold geo_ok in Hg. specialize (A 0). specialize (Hmax0 b Hb Gb). lia.
  - right. exists lb, (k - 1).
    split; [exact Hlb|]. split; [exact Glb|]. split; [lia|reflexivity].
Qed.

Lemma durable_max_below nand m : durable_max softcrc32 cfg nand m -> ids_below softcrc32 cfg nand (m + 1).
Proof.
  intros (_ & H & _) b q Hb Gb Hq. specialize (H b q Hb Gb Hq). lia.
Qed.

Lemma nandRingMount_spec fuel ring n b ring' n' :
  config ring = Some cfg -> nand_inv softcrc32 cfg n ->
  nandRingMount softcrc32 fuel ring n = Ok (b, ring', n') ->
  state ring = NAND_RING_IDLE /\
  ((b = OSAL_FAILED /\ ring' = ring /\ n' = n /\ good_blocks cfg n < 32) \/
   (b = OSAL_SUCCESS /\ exists m, mount_post softcrc32 cfg ring n m ring' n')).
Proof.
  intros Hcfg Hinv H. pose proof Hinv as (Hok & Hg & Hblk & Hord).
  unfold nandRingMount in H.
  destruct (state ring) eqn:Hst; cbn [nandringstate_eqb osalDbgCheck bind] in H;
    try discriminate.
  split; [reflexivity|].
  rewrite (get_total_good_count _ _ _ Hcfg Hok) in H. cbn [bind] in H.
  change (MIN_RING_SIZE / 2) with 32 in H.
  destruct (Z.ltb_spec (good_blocks cfg n) 32) as [Hfew|Hmany].
  { inversion H; subst. left. auto. }
  right. rewrite Hcfg in H.
  assert (Hsome : ~ ring_all_bad cfg n) by (apply good_blocks_some; lia).
  destruct (last_written_block softcrc32 fuel cfg n) as [lb| |] eqn:Hlwb;
    cbn [bind] in H; try discriminate.
  apply last_written_block_spec in Hlwb; auto.
  destruct (Z.eqb_spec BLOCK_NOT_FOUND lb) as [Enf|Enf].
  - subst lb.
    destruct Hlwb as [(_ & Hnone)|(Habs & _)];
      [|exfalso; eapply not_found_outside; eauto].
    unfold mkfs in H.
    destruct (first_good fuel cfg n) as [f| |] eqn:Hfg; cbn [bind] in H;
      try discriminate.
    destruct (first_good_spec _ _ _ Hok Hsome Hfg) as (If & _ & _).
    destruct (erase_next fuel cfg n f) as [[blk n1]| |] eqn:He; cbn [bind] in H;
      try discriminate.
    inversion H; subst b ring' n1. clear H.
    apply erase_next_spec in He; [|exact Hok].
    pose proof (durable_max_empty n Hinv Hnone) as Hmax.
    split; [reflexivity|]. exists 0. cbn [cur_blk set_state set_cur_id set_cur_page set_cur_blk].
    split; [exact Hmax|]. split; [reflexivity|].
    split; [apply He|]. split; [eapply erase_next_shrinks; eauto|].
    split; [eapply shrinks_nand_inv; [eapply erase_next_shrinks; eauto|exact Hinv]|].
    split; [|exact Hmany].
    eapply tail_after_erase; eauto; [lia|].
    apply (durable_max_below n 0 Hmax).
  - destruct Hlwb as [(Habs & _)|(Ilb & Glb & H0 & Hmax0)]; [congruence|].
    destruct (Hblk lb Ilb) as (k & Hk & Hv & Hr & Hm).
    assert (Hk1 : 1 <= k).
    { destruct (Z_lt_dec 0 k) as [L|L]; [lia|].
      rewrite (rid_invalid n lb 0) in H0; [lia|].
      destruct (valid softcrc32 n lb 0) eqn:V; [|reflexivity].
      apply Hv in V; [lia|unfold geo_ok in Hg; lia]. }
    rewrite (last_written_page_spec n lb k) in H; auto; [|lia].
    cbn [bind] in H.
    set (L := rid n lb (k - 1)) in *.
    destruct (close_prev_session fuel cfg n lb (k - 1)) as [[blk n1]| |] eqn:Hc;
      cbn [bind] in H; try discriminate.
    inversion H; subst b ring' n1. clear H.
    apply close_prev_session_spec in Hc; auto; [|lia].
    destruct Hc as (nand1 & HS1 & He).
    pose proof (durable_max_scan n lb k Hinv Ilb Glb H0 Hmax0 (conj Hk1 (proj2 Hk))
                  Hv Hr Hm) as Hmax.
    fold L in Hmax.
    assert (HL : 1 <= L < 2 ^ 64 - 1) by (apply Hr; lia).
    rewrite (u64_small (L + 1)) by lia.
    split; [reflexivity|]. exists L.
    cbn [cur_blk set_state set_cur_id set_cur_page set_cur_blk].
    assert (Hinv1 : nand_inv softcrc32 cfg nand1) by (eapply shrinks_nand_inv; eauto).
    pose proof (erase_next_shrinks _ _ _ _ He) as HS2.
    split; [exact Hmax|]. split; [reflexivity|].
    split; [apply He|]. split; [eapply shrinks_trans; eauto|].
    split; [eapply shrinks_nand_inv; eauto|]. split; [|exact Hmany].
    eapply tail_after_erase; eauto; [lia|].
    eapply shrinks_ids_below; eauto; [lia|].
    apply (durable_max_below n L Hmax).
Qed.

Lemma count_good_ext m n1 n2 x :
  (forall b, nd_bad n2 b = nd_bad n1 b) -> count_good m n2 x = count_good m n1 x.
Proof.
  intros E. revert x. induction m as [|m IH]; intros x; [reflexivity|].
  cbn [count_good]. rewrite E, IH. reflexivity.
Qed.

Lemma count_good_mark_bad m nand blk x :
  count_good m nand x - 1 <= count_good m (nandMarkBad nand blk) x <= count_good m nand x /\
  (~ x <= blk < x + Z.of_nat m ->
   count_good m (nandMarkBad nand blk) x = count_good m nand x).
Proof.
  revert x. induction m as [|m IH]; intros x.
  - cbn. split; [lia|reflexivity].
  - cbn [count_good]. destruct (IH (x + 1)) as (IH1 & IH2).
    change (nd_bad (nandMarkBad nand blk) x)
      with (if x =? blk then true else nd_bad nand x).
    destruct (Z.eqb_spec x blk) as [->|Hne].
    + rewrite IH2 by lia. split; [destruct (nd_bad nand blk); lia|]. intros Hn. lia.
    + split; [destruct (nd_bad nand x); lia|].
      intros Hn. rewrite IH2 by lia. reflexivity.
Qed.

Lemma budget_mark_bad_after_fault nand n1 blk :
  nd_bad n1 = nd_bad nand ->
  S (List.length (nd_faults n1)) = List.length (nd_faults nand) ->
  budget cfg nand <= budget cfg (nandMarkBad n1 blk).
Proof.
  intros B L. unfold budget, good_blocks.
  destruct (count_good_mark_bad (Z.to_nat (len cfg)) n1 blk (start_blk cfg)) as (H & _).
  rewrite (count_good_ext _ nand n1) in H by (intros b; rewrite B; reflexivity).
  change (nd_faults (nandMarkBad n1 blk)) with (nd_faults n1). lia.
Qed.

Lemma budget_same_bad nand n1 :
  nd_bad n1 = nd_bad nand ->
  (List.length (nd_faults n1) <= List.length (nd_faults nand))%nat ->
  budget cfg nand <= budget cfg n1.
Proof.
  intros B L. unfold budget, good_blocks.
  rewrite (count_good_ext _ nand n1) by (intros b; rewrite B; reflexivity). lia.
Qed.

Lemma budget_some nand : 1 <= budget cfg nand -> ~ ring_all_bad cfg nand.
Proof. intros H. apply good_blocks_some. unfold budget in H. lia. Qed.

Lemma erase_next_budget fuel :
  forall nand cur blk nand',
    erase_next fuel cfg nand cur = Ok (blk, nand') -> budget cfg nand <= budget cfg nand'.
Proof.
  induction fuel as [|fuel IH]; intros nand cur blk nand' H;
    cbn [erase_next] in H; [discriminate|].
  destruct (next_good fuel cfg nand cur) as [b| |]; cbn [bind] in H; try discriminate.
  destruct (nandErase nand b) as [status n1] eqn:He.
  apply nandErase_spec in He. destruct He as (F & B & Hfail & _).
  destruct status; cbn [nandFailed] in H.
  - destruct (Hfail eq_refl) as (_ & L). apply IH in H.
    pose proof (budget_mark_bad_after_fault nand n1 b B L). lia.
  - inversion H; subst. apply budget_same_bad; [exact B|apply F].
Qed.

Lemma erase_next_total fuel nand cur :
  cfg_ok cfg nand -> in_ring cfg cur -> 1 <= budget cfg nand ->
  len cfg + Z.of_nat (List.length (nd_faults nand)) < Z.of_nat fuel ->
  exists blk nand',
    erase_next fuel cfg nand cur = Ok (blk, nand') /\
    in_ring cfg blk /\ budget cfg nand <= budget cfg nand'.
Proof.
  intros Hok Hc Hb Hf.
  destruct (erase_next_terminates cfg fuel nand cur Hok Hc Hf) as (blk & nand' & H).
  exists blk, nand'. split; [exact H|].
  pose proof (erase_next_budget _ _ _ _ _ H) as Hbud.
  apply erase_next_spec in H; [|exact Hok].
  destruct H as (_ & _ & _ & _ & N). split; [|exact Hbud].
  destruct (N Hc) as [(_ & A)|(A & _)]; [|exact A].
  exfalso. apply (budget_some nand'); [lia|exact A].
Qed.

Lemma block_data_rescue_retry_total fuel :
  forall ring n fb fp,
    cfg_ok cfg n -> in_ring cfg (cur_blk ring) -> 1 <= budget cfg n ->
    len cfg + Z.of_nat (List.length (nd_faults n)) + 1 < Z.of_nat fuel ->
    exists t n',
      block_data_rescue_retry fuel cfg ring n fb fp = Ok (t, n') /\
      in_ring cfg t /\ budget cfg n <= budget cfg n' /\ frame n n'.
Proof.
  induction fuel as [|fuel IH]; intros ring n fb fp Hok Hc Hb Hf;
    [destruct Hok as (? & ? & ? & ?); lia|].
  cbn [block_data_rescue_retry].
  destruct (erase_next_total fuel n (cur_blk ring) Hok Hc Hb) as (t & n3 & He & It & B3);
    [lia|].
  rewrite He. cbn [bind].
  apply erase_next_spec in He; [|exact Hok]. destruct He as (F3 & _).
  destruct (nandDataMove n3 fb t fp) as [status n4] eqn:Hm.
  apply nandDataMove_spec in Hm. destruct Hm as (F4 & B4 & Hfail & _).
  pose proof F3 as (_ & _ & _ & _ & L3).
  destruct status; cbn [nandFailed].
  - destruct (Hfail eq_refl) as (_ & L4).
    pose proof (budget_mark_bad_after_fault n3 n4 t B4 L4) as B5.
    destruct (IH ring (nandMarkBad n4 t) fb fp) as (t' & n' & H' & I' & B' & F'); auto.
    + eapply frame_cfg_ok; [apply frame_mark_bad|].
      eapply frame_cfg_ok; [exact F4|]. eapply frame_cfg_ok; eauto.
    + lia.
    + change (nd_faults (nandMarkBad n4 t)) with (nd_faults n4). lia.
    + exists t', n'. split; [exact H'|]. split; [exact I'|]. split; [lia|].
      eapply frame_trans; [exact F3|]. eapply frame_trans; [exact F4|].
      eapply frame_trans; [apply frame_mark_bad|exact F'].
  - exists t, n4. split; [reflexivity|]. split; [exact It|]. split.
    + pose proof (budget_same_bad n3 n4 B4 (proj2 (proj2 (proj2 (proj2 F4))))). lia.
    + eapply frame_trans; eauto.
Qed.

Lemma block_data_rescue_total fuel ring n fb fp :
  cfg_ok cfg n -> in_ring cfg (cur_blk ring) -> 1 <= budget cfg n ->
  len cfg + Z.of_nat (List.length (nd_faults n)) + 1 < Z.of_nat fuel ->
  exists t n',
    block_data_rescue fuel cfg ring n fb fp = Ok (t, n') /\
    in_ring cfg t /\ budget cfg n <= budget cfg n' /\ frame n n'.
Proof.
  intros Hok Hc Hb Hf. unfold block_data_rescue.
  destruct (0 <? fp).
  - apply block_data_rescue_retry_total; auto.
  - destruct (erase_next_total fuel n (cur_blk ring) Hok Hc Hb) as (t & n3 & He & It & B3);
      [lia|].
    exists t, n3. split; [exact He|]. split; [exact It|]. split; [exact B3|].
    apply erase_next_spec in He; [apply He|exact Hok].
Qed.

Lemma nandRingWritePage_retry_total fuel :
  forall ring n data,
    cfg_ok cfg n -> in_ring cfg (cur_blk ring) -> 1 <= budget cfg n ->
    len cfg + Z.of_nat (List.length (nd_faults n)) + 2 < Z.of_nat fuel ->
    exists ring1 n1,
      nandRingWritePage_retry softcrc32 fuel cfg ring n data = Ok (ring1, n1) /\
      in_ring cfg (cur_blk ring1) /\ budget cfg n <= budget cfg n1 /\ frame n n1.
Proof.
  induction fuel as [|fuel IH]; intros ring n data Hok Hc Hb Hf;
    [destruct Hok as (? & ? & ? & ?); lia|].
  cbn [nandRingWritePage_retry].
  assert (Hfail : forall nx,
             frame n nx -> nd_bad nx = nd_bad n ->
             (S (List.length (nd_faults nx)) <= List.length (nd_faults n))%nat ->
             budget cfg n <= budget cfg (nandMarkBad nx (cur_blk ring)) ->
             exists ring1 n1,
               bind (block_data_rescue fuel cfg ring (nandMarkBad nx (cur_blk ring))
                                       (cur_blk ring) (cur_page ring))
                    (fun x => match x with
                              | (blk, n3) =>
                                  nandRingWritePage_retry softcrc32 fuel cfg
                                    (set_cur_blk ring blk) n3 data
                              end) = Ok (ring1, n1) /\
               in_ring cfg (cur_blk ring1) /\ budget cfg n <= budget cfg n1 /\ frame n n1).
  { intros nx Fx Bx Lx Bud.
    assert (Hok2 : cfg_ok cfg (nandMarkBad nx (cur_blk ring))).
    { eapply frame_cfg_ok; [apply frame_mark_bad|]. eapply frame_cfg_ok; eauto. }
    destruct (block_data_rescue_total fuel ring (nandMarkBad nx (cur_blk ring))
                (cur_blk ring) (cur_page ring) Hok2 Hc)
      as (t & n3 & Hr & It & B3 & F3); [lia| |].
    { change (nd_faults (nandMarkBad nx (cur_blk ring))) with (nd_faults nx). lia. }
    rewrite Hr. cbn [bind].
    pose proof F3 as (_ & _ & _ & _ & L3).
    change (nd_faults (nandMarkBad nx (cur_blk ring))) with (nd_faults nx) in L3.
    destruct (IH (set_cur_blk ring t) n3 data) as (r1 & n1 & H1 & I1 & B1 & F1); auto.
    - eapply frame_cfg_ok; eauto.
    - lia.
    - lia.
    - exists r1, n1. split; [exact H1|]. split; [exact I1|]. split; [lia|].
      eapply frame_trans; [exact Fx|]. eapply frame_trans; [apply frame_mark_bad|].
      eapply frame_trans; eauto. }
  destruct (nandWritePageData n (cur_blk ring) (cur_page ring) data)
    as [[st ecc] na] eqn:Hd.
  apply nandWritePageData_spec in Hd. destruct Hd as (Fa & Ba & Hdf & _).
  pose proof Fa as (_ & _ & _ & _ & La).
  destruct st; cbn [nandFailed].
  - destruct (Hdf eq_refl) as (_ & L). apply Hfail; auto; [lia|].
    apply budget_mark_bad_after_fault; auto.
  - match goal with
    | |- context [nandWritePageSpare na ?b ?p ?buf] =>
        destruct (nandWritePageSpare na b p buf) as [st2 nb] eqn:Hs
    end.
    apply nandWritePageSpare_spec in Hs. destruct Hs as (Fb & Bb & Hsf & _).
    pose proof Fb as (_ & _ & _ & _ & Lb).
    destruct st2; cbn [nandFailed].
    + destruct (Hsf eq_refl) as (_ & L). apply Hfail.
      * eapply frame_trans; eauto.
      * congruence.
      * lia.
      * pose proof (budget_same_bad n na Ba La).
        pose proof (budget_mark_bad_after_fault na nb (cur_blk ring) Bb L). lia.
    + exists ring, nb. split; [reflexivity|]. split; [exact Hc|]. split.
      * pose proof (budget_same_bad n na Ba La).
        pose proof (budget_same_bad na nb Bb Lb). lia.
      * eapply frame_trans; eauto.
Qed.

Lemma nandRingWritePage_total fuel ring n data :
  config ring = Some cfg -> state ring = NAND_RING_MOUNTED ->
  cfg_ok cfg n -> in_ring cfg (cur_blk ring) -> 1 <= budget cfg n ->
  len cfg + Z.of_nat (List.length (nd_faults n)) + 2 < Z.of_nat fuel ->
  exists ring' n',
    nandRingWritePage softcrc32 fuel ring n (Some data) = Ok (ring', n') /\
    in_ring cfg (cur_blk ring') /\ budget cfg n <= budget cfg n'.
Proof.
  intros Hcfg Hst Hok Hc Hb Hf. unfold nandRingWritePage.
  rewrite Hst, Hcfg. cbn [nandringstate_eqb osalDbgCheck bind].
  destruct (nandRingWritePage_retry_total fuel ring n data Hok Hc Hb Hf)
    as (r1 & n1 & H1 & I1 & B1 & F1).
  rewrite H1. cbn [bind].
  match goal with
  | |- context [if ?c then _ else _] => destruct c
  end.
  - cbn [cur_blk set_cur_page set_cur_id].
    pose proof F1 as (_ & _ & _ & _ & L1).
    destruct (erase_next_total fuel n1 (cur_blk r1)) as (blk & n2 & He & Ib & B2); auto.
    + eapply frame_cfg_ok; eauto.
    + lia.
    + lia.
    + rewrite He. cbn [bind]. exists (set_cur_blk
        (set_cur_page (set_cur_page (set_cur_id r1 (u64 (cur_id r1 + 1)))
                          (u32 (cur_page r1 + 1))) 0) blk), n2.
      split; [reflexivity|]. split; [exact Ib|lia].
  - eexists _, n1. split; [reflexivity|]. split; [exact I1|exact B1].
Qed.

Lemma last_written_block_loop_terminates nand first fuel :
  cfg_ok cfg nand ->
  in_ring cfg first -> good nand first ->
  forall b last_blk last_id,
    in_ring cfg b -> good nand b ->
    len cfg + (start_blk cfg + len cfg - b) <= Z.of_nat fuel ->
    exists lb,
      last_written_block_loop softcrc32 fuel cfg nand first b last_blk last_id = Ok lb.
Proof.
  intros Hok Hf Gf.
  induction fuel as [|fuel IH]; intros b last_blk last_id Hb Gb Hfuel.
  - unfold in_ring in Hb. destruct Hok as (? & ? & ? & ?). lia.
  - cbn [last_written_block_loop].
    destruct (if last_id <=? read_page_id softcrc32 nand b 0
              then (b, read_page_id softcrc32 nand b 0)
              else (last_blk, last_id)) as [lb' li'].
    destruct (next_good_terminates cfg nand Hok fuel b Hb) as (b' & Hng);
      [unfold in_ring in Hb; lia|].
    rewrite Hng. cbn [bind].
    apply next_good_spec in Hng; [|exact Hok|exact Hb].
    destruct Hng as [(_ & A)|(Ib' & Gb' & Bt)].
    { specialize (A b Hb). unfold good in Gb. congruence. }
    destruct (Z.ltb_spec first b') as [L|L]; [|eauto].
    assert (Hbb' : b < b').
    { destruct (Z_lt_dec b b') as [Y|N]; [exact Y|]. exfalso.
      assert (nd_bad nand first = true).
      { apply Bt; [exact Hf|]. unfold between.
        destruct (Z.ltb_spec b b'); unfold in_ring in *; lia. }
      unfold good in Gf. congruence. }
    apply IH; auto. lia.
Qed.

Lemma last_written_block_terminates fuel nand :
  cfg_ok cfg nand -> ~ ring_all_bad cfg nand ->
  2 * len cfg <= Z.of_nat fuel ->
  exists lb, last_written_block softcrc32 fuel cfg nand = Ok lb.
Proof.
  intros Hok Hsome Hfuel. pose proof Hok as (Hs & Hl & Hb & Hk).
  unfold last_written_block.
  assert (Hfg : exists f, first_good fuel cfg nand = Ok f).
  { unfold first_good.
    rewrite (u32_small (start_blk cfg + len cfg)) by lia.
    rewrite (u32_small (start_blk cfg + len cfg - 1)) by lia.
    apply next_good_terminates; [exact Hok|unfold in_ring; lia|lia]. }
  destruct Hfg as (f & Hfg). rewrite Hfg. cbn [bind].
  destruct (first_good_spec _ _ _ Hok Hsome Hfg) as (If & Gf & _).
  apply last_written_block_loop_terminates; auto.
  unfold in_ring in If. lia.
Qed.


End Invariant.

(** ** Durable pages and reachable states *)

Section Reachable.

Variable softcrc32 : list Z -> Z -> Z.
Variable cfg : NandRingConfig.

Local Notation "'rid'" := (read_page_id softcrc32).




Lemma fresh_nand_inv nand :
  cfg_ok cfg nand -> geo_ok nand -> fresh nand -> nand_inv softcrc32 cfg nand.
Proof.
  intros Hok Hg Hf.
  assert (Hrid : forall b p, rid nand b p = 0).
  { intros b p. apply rid_invalid. apply valid_erased. apply Hf. }
  split; [exact Hok|]. split; [exact Hg|]. split.
  - intros b _. exists 0. unfold geo_ok in Hg. split; [lia|]. split; [|split].
    + intros p Hp. rewrite (valid_erased softcrc32 nand b p (Hf b p)).
      split; [discriminate|lia].
    + intros p Hp. lia.
    + intros p q Hp Hpq Hq. lia.
  - intros b1 b2 _ _ _ _ _ R1 _. rewrite Hrid in R1. lia.
Qed.

Lemma boot_spec ring0 nand ring :
  boot ring0 nand cfg = Ok ring ->
  config ring = Some cfg /\ state ring = NAND_RING_IDLE.
Proof.
  unfold boot, nandRingObjectInit, nandRingStart. cbn [bind].
  repeat match goal with
  | |- context [osalDbgAssert ?c ?m] => destruct c; cbn [osalDbgAssert bind]
  | |- context [osalDbgCheck ?c] => destruct c; cbn [osalDbgCheck bind]
  end; intros H; inversion H; subst; auto.
Qed.

Lemma ring_inv_idle ring nand :
  config ring = Some cfg -> state ring = NAND_RING_IDLE ->
  nand_inv softcrc32 cfg nand -> ring_inv softcrc32 cfg ring nand.
Proof.
  intros Hc Hs Hinv. split; [exact Hc|]. split; [exact Hinv|].
  intros H. congruence.
Qed.

Lemma nandRingWritePage_mounted fuel ring nand data ring' nand' :
  nandRingWritePage softcrc32 fuel ring nand data = Ok (ring', nand') ->
  state ring = NAND_RING_MOUNTED.
Proof.
  unfold nandRingWritePage. destruct data; [|discriminate].
  destruct (state ring); cbn [nandringstate_eqb osalDbgCheck bind];
    try discriminate. reflexivity.
Qed.

(** Every reachable state satisfies the log invariant. *)
Lemma reachable_inv ring nand :
  reachable softcrc32 cfg ring nand -> ring_inv softcrc32 cfg ring nand.
Proof.
  induction 1 as [ring0 ring nand Hf Hok Hg Hb
                 |fuel ring nand b ring' nand' _ IH Hm
                 |fuel ring nand data ring' nand' _ IH Hmax Hw
                 |ring nand ring' _ IH Hu
                 |ring nand ring0 ring' _ IH Hb
                 |ring nand faults time _ IH].
  - destruct (boot_spec _ _ _ Hb). apply ring_inv_idle; auto.
    apply fresh_nand_inv; auto.
  - destruct IH as (Hc & Hinv & _).
    destruct (nandRingMount_spec _ _ _ _ _ _ _ _ Hc Hinv Hm)
      as (Hst & [(_ & -> & -> & _)|(_ & m & Hpost)]).
    + apply ring_inv_idle; auto.
    + destruct Hpost as (_ & E & _ & _ & Hinv' & Htail & _).
      split; [rewrite E; exact Hc|]. split; [exact Hinv'|].
      intros _. split.
      * rewrite E. cbn. destruct Hinv' as (_ & Hg & _). unfold geo_ok in Hg. lia.
      * rewrite E at 2 3. cbn. exact Htail.
  - pose proof (nandRingWritePage_mounted _ _ _ _ _ _ Hw) as Hst.
    destruct (nandRingWritePage_spec _ _ _ _ _ _ _ _ IH Hst Hmax Hw)
      as (r1 & n1 & _ & _ & _ & Hinv' & _).
    exact Hinv'.
  - destruct IH as (Hc & Hinv & _). unfold nandRingUmount in Hu.
    inversion Hu; subst. apply ring_inv_idle; auto.
  - destruct IH as (_ & Hinv & _). destruct (boot_spec _ _ _ Hb).
    apply ring_inv_idle; auto.
  - exact IH.
Qed.

End Reachable.

(** ** Cold start *)

Lemma count_good_all_good m nand x :
  (forall b, x <= b < x + Z.of_nat m -> nd_bad nand b = false) ->
  count_good m nand x = Z.of_nat m.
Proof.
  revert x. induction m as [|m IH]; intros x H; [reflexivity|].
  cbn [count_good]. rewrite H by lia. rewrite IH; [lia|].
  intros b Hb. apply H. lia.
Qed.

Lemma erase_next_no_fault fuel cfg nand cur blk :
  nd_faults nand = [] ->
  next_good fuel cfg nand cur = Ok blk ->
  exists nand',
    erase_next (S fuel) cfg nand cur = Ok (blk, nand') /\
    nd_bad nand' = nd_bad nand /\ nd_faults nand' = [] /\
    forall b p, nd_pages nand' b p =
                if b =? blk then erased_page nand else nd_pages nand b p.
Proof.
  intros Hf Hng. cbn [erase_next]. rewrite Hng. cbn [bind].
  unfold nandErase, pop_fault. rewrite Hf. cbn [nandFailed].
  eexists. split; [reflexivity|]. cbn. auto.
Qed.

(** A mount of a fresh ring without bad blocks and without injected faults:
    [mkfs] hands the first good block to [erase_next], which erases and
    returns the good block after it. *)
Lemma mount_fresh_ring softcrc32 fuel ring nand cfg :
  config ring = Some cfg -> state ring = NAND_RING_IDLE ->
  cfg_ok cfg nand -> geo_ok nand -> fresh nand ->
  (forall b, in_ring cfg b -> nd_bad nand b = false) ->
  MIN_RING_SIZE <= len cfg -> nd_faults nand = [] ->
  2 * len cfg < Z.of_nat fuel ->
  exists nand',
    nandRingMount softcrc32 fuel ring nand =
      Ok (OSAL_SUCCESS,
          set_state (set_cur_id (set_cur_page (set_cur_blk ring (start_blk cfg + 1)) 0)
                                PAGE_ID_FIRST) NAND_RING_MOUNTED,
          nand') /\
    block_erased nand' (start_blk cfg + 1) /\
    nd_bad nand' = nd_bad nand.
Proof.
  intros Hcfg Hst Hok Hg Hfresh Hgood Hlen Hnf Hfuel.
  pose proof Hok as (Hs & Hl & Hb & Hk). unfold MIN_RING_SIZE in Hlen.
  assert (Hsome : ~ ring_all_bad cfg nand).
  { intros A.
    assert (Hin : in_ring cfg (start_blk cfg)) by (unfold in_ring; lia).
    specialize (A _ Hin). rewrite (Hgood _ Hin) in A. discriminate. }
  assert (Hrid : forall b p, read_page_id softcrc32 nand b p = 0).
  { intros b p. apply rid_invalid. apply valid_erased. apply Hfresh. }
  unfold nandRingMount. rewrite Hst. cbn [nandringstate_eqb osalDbgCheck bind].
  rewrite (get_total_good_count _ _ _ Hcfg Hok). cbn [bind].
  assert (Hcount : good_blocks cfg nand = len cfg).
  { unfold good_blocks. rewrite count_good_all_good; [lia|].
    intros b Hb'. apply Hgood. unfold in_ring. lia. }
  rewrite Hcount. change (MIN_RING_SIZE / 2) with 32.
  destruct (Z.ltb_spec (len cfg) 32) as [|_]; [lia|]. rewrite Hcfg.
  destruct (last_written_block_terminates softcrc32 cfg fuel nand Hok Hsome)
    as (lb & Hlwb); [lia|].
  rewrite Hlwb. cbn [bind].
  apply last_written_block_spec in Hlwb; auto.
  destruct Hlwb as [(-> & _)|(_ & _ & R & _)]; [|rewrite Hrid in R; lia].
  rewrite Z.eqb_refl. unfold mkfs.
  assert (Hfg : exists f, first_good fuel cfg nand = Ok f).
  { unfold first_good.
    rewrite (u32_small (start_blk cfg + len cfg)) by lia.
    rewrite (u32_small (start_blk cfg + len cfg - 1)) by lia.
    apply next_good_terminates; [exact Hok|unfold in_ring; lia|lia]. }
  destruct Hfg as (f & Hfg). rewrite Hfg. cbn [bind].
  destruct (first_good_spec cfg _ _ _ Hok Hsome Hfg) as (If & _ & Hlow).
  assert (f = start_blk cfg).
  { destruct (Z.eq_dec f (start_blk cfg)) as [E|E]; [exact E|]. exfalso.
    assert (Hin : in_ring cfg (start_blk cfg)) by (unfold in_ring; lia).
    assert (Hbad : nd_bad nand (start_blk cfg) = true)
      by (apply Hlow; [exact Hin|unfold in_ring in If; lia]).
    rewrite (Hgood _ Hin) in Hbad. discriminate. }
  subst f.
  destruct fuel as [|[|fuel]]; [lia|lia|].
  assert (Hng : next_good (S fuel) cfg nand (start_blk cfg) = Ok (start_blk cfg + 1)).
  { unfold next_good. cbn [next_good_loop].
    rewrite (u32_small (start_blk cfg + 1)) by lia.
    rewrite (u32_small (start_blk cfg + len cfg)) by lia.
    destruct (Z.eqb_spec (start_blk cfg + 1) (start_blk cfg + len cfg)); [lia|].
    unfold nandIsBad. rewrite Hgood by (unfold in_ring; lia). reflexivity. }
  destruct (erase_next_no_fault _ _ _ _ _ Hnf Hng) as (nand' & He & Hbad & _ & Hpg).
  rewrite He. cbn [bind]. exists nand'. split; [reflexivity|]. split; [|exact Hbad].
  intros p. rewrite Hpg, Z.eqb_refl.
  unfold erased_page. f_equal.
  apply erase_next_spec in He; [|exact Hok]. destruct He as ((E & _) & _).
  rewrite E. reflexivity.
Qed.

Lemma count_good_at_most_one m nand x c :
  (forall b, x <= b < x + Z.of_nat m -> b <> c -> nd_bad nand b = true) ->
  count_good m nand x <= 1.
Proof.
  revert x. induction m as [|m IH]; intros x H; [cbn; lia|].
  cbn [count_good]. destruct (Z.eq_dec x c) as [->|Hne].
  - rewrite count_good_all_bad; [destruct (nd_bad nand c); lia|].
    intros b Hb. apply H; lia.
  - rewrite H by lia. specialize (IH (x + 1)).
    assert (count_good m nand (x + 1) <= 1); [|lia].
    apply IH. intros b Hb. apply H. lia.
Qed.

Lemma next_good_post_other cfg nand c r :
  2 <= good_blocks cfg nand ->
  next_good_post cfg nand c r ->
  in_ring cfg r /\ good nand r /\ r <> c /\
  forall x, in_ring cfg x -> between c r x -> nd_bad nand x = true.
Proof.
  intros H2 [(_ & A)|(I & G & Bt)].
  - exfalso. apply (good_blocks_some cfg nand); [lia|exact A].
  - split; [exact I|]. split; [exact G|]. split; [|exact Bt].
    intros ->. unfold good_blocks in H2.
    assert (count_good (Z.to_nat (len cfg)) nand (start_blk cfg) <= 1); [|lia].
    apply (count_good_at_most_one _ _ _ c). intros b Hb Hne.
    apply Bt; [unfold in_ring; lia|]. unfold between.
    rewrite Z.ltb_irrefl. lia.
Qed.

Lemma frame_good_blocks cfg n1 n2 :
  frame n1 n2 -> good_blocks cfg n2 <= good_blocks cfg n1.
Proof.
  intros (_ & _ & _ & M & _). unfold good_blocks.
  generalize (start_blk cfg). induction (Z.to_nat (len cfg)) as [|m IH]; intros x.
  - cbn. lia.
  - cbn [count_good]. specialize (IH (x + 1)).
    destruct (nd_bad n1 x) eqn:B; [rewrite (M _ B); lia|].
    destruct (nd_bad n2 x); lia.
Qed.

(** ** Claims about recovery *)


(** ** Claims about the blocks of the ring *)

(** *** The scratchpad and the page size *)




Lemma memset_outside buf c n :
  forall off, (List.length buf <= off)%nat -> memset buf off c n = buf.
Proof.
  induction buf as [|x rest IH]; intros off H; [reflexivity|].
  cbn [List.length] in H. destruct off as [|off]; [lia|].
  cbn [memset]. rewrite IH by lia. reflexivity.
Qed.



Lemma scratchpad_zeros nand :
  SCRATCHPAD_SIZE <= page_data_size (nd_config nand) ->
  scratchpad nand = repeat 0 (Z.to_nat SCRATCHPAD_SIZE).
Proof.
  intros H. unfold scratchpad. apply memset_outside. rewrite repeat_length. lia.
Qed.





(** ** Claims about the append path *)

Lemma erase_next_keeps cfg n1 c blk nand' :
  in_ring cfg c -> 2 <= good_blocks cfg nand' ->
  erase_next_post cfg n1 c blk nand' ->
  in_ring cfg blk /\ good nand' blk /\ blk <> c /\
  (forall x, in_ring cfg x -> between c blk x -> nd_bad nand' x = true) /\
  forall q, nd_pages nand' c q = nd_pages n1 c q.
Proof.
  intros Hc H2 (F & P & E & G & N).
  destruct (next_good_post_other cfg nand' c blk H2 (N Hc)) as (I & G' & Hne & Bt).
  repeat (split; [assumption|]). intros q. apply P. auto.
Qed.


Lemma reachable_mounted_in_ring softcrc32 cfg ring nand :
  reachable softcrc32 cfg ring nand -> state ring = NAND_RING_MOUNTED ->
  1 <= budget cfg nand ->
  config ring = Some cfg /\ cfg_ok cfg nand /\ in_ring cfg (cur_blk ring).
Proof.
  intros Hreach Hst Hb.
  destruct (reachable_inv _ _ _ _ Hreach) as (Hc & (Hok & _) & Hm).
  split; [exact Hc|]. split; [exact Hok|].
  destruct (Hm Hst) as (_ & (_ & _ & _ & _ & Hout)).
  destruct (in_ring_dec cfg (cur_blk ring)) as [Y|N]; [exact Y|]. exfalso.
  apply (budget_some cfg nand Hb). auto.
Qed.

(** C5: rescue on program failure.  When the program of the data area or of
    the spare area fails during a call of [nandRingWritePage] at page [p] of
    the current block, on a ring that holds at least two good blocks more
    than there are faults left to inject, the call returns normally; the
    failing block is marked bad; another block [blk] of the ring, erased for
    the purpose, holds the pages [[0, p)] of the failing block as they were,
    the page [p] sealed with the data and the identifier the call started
    with, and erased pages after it; [blk] is the current block unless the
    write filled it; and one identifier is consumed. *)
Theorem rescue_on_program_failure :
  forall softcrc32 cfg fuel ring nand data,
    reachable softcrc32 cfg ring nand ->
    state ring = NAND_RING_MOUNTED ->
    cur_id ring < 2 ^ 64 - 1 ->
    program_failed nand = true ->
    2 <= budget cfg nand ->
    len cfg + Z.of_nat (List.length (nd_faults nand)) + 2 < Z.of_nat fuel ->
    exists ring' nand' blk,
      nandRingWritePage softcrc32 fuel ring nand (Some data) = Ok (ring', nand') /\
      nd_bad nand' (cur_blk ring) = true /\
      in_ring cfg blk /\ blk <> cur_blk ring /\
      (forall q, 0 <= q < cur_page ring ->
                 nd_pages nand' blk q = nd_pages nand (cur_blk ring) q) /\
      valid softcrc32 nand' blk (cur_page ring) = true /\
      read_page_id softcrc32 nand' blk (cur_page ring) = cur_id ring /\
      pg_data (nd_pages nand' blk (cur_page ring)) = data /\
      (forall q, cur_page ring < q -> nd_pages nand' blk q = erased_page nand') /\
      cur_id ring' = cur_id ring + 1 /\
      (cur_page ring + 1 < ppb nand ->
       cur_blk ring' = blk /\ cur_page ring' = cur_page ring + 1 /\ good nand' blk) /\
      (cur_page ring + 1 = ppb nand -> cur_page ring' = 0).
Proof.
  intros crc cfg fuel ring nand data Hreach Hst Hmax Hpf Hbud Hfuel.
  destruct (reachable_mounted_in_ring _ _ _ _ Hreach Hst) as (Hc & Hok & Hin); [lia|].
  destruct (nandRingWritePage_total crc cfg fuel ring nand data Hc Hst Hok Hin)
    as (ring' & nand' & Hw & _ & Hbud'); [lia|exact Hfuel|].
  pose proof (reachable_inv _ _ _ _ Hreach) as Hinv.
  destruct (nandRingWritePage_spec _ _ _ _ _ _ _ _ Hinv Hst Hmax Hw)
    as (r1 & n1 & W & Hid & _ & _ & Hcase).
  destruct W as (W1 & W2 & W3 & W4 & W5 & W6 & W7 & W8 & W9 & W10).
  destruct (W9 Hpf) as (Hbad & Her).
  assert (H2 : 2 <= good_blocks cfg nand') by (unfold budget in *; lia).
  assert (F1 : frame n1 nand').
  { destruct Hcase as [(_ & _ & ->)|(_ & _ & _ & (F & _))]; [apply frame_refl|exact F]. }
  assert (Hin1 : in_ring cfg (cur_blk r1)).
  { destruct (in_ring_dec cfg (cur_blk r1)) as [Y|N]; [exact Y|]. exfalso.
    destruct W3 as (_ & _ & _ & _ & Hout).
    apply (good_blocks_some cfg nand'); [lia|].
    eapply frame_all_bad; eauto. }
  assert (Hgood1 : good n1 (cur_blk r1)) by (apply W3; exact Hin1).
  assert (Hpg : forall q, nd_pages nand' (cur_blk r1) q = nd_pages n1 (cur_blk r1) q).
  { destruct Hcase as [(_ & _ & ->)|(_ & _ & _ & He)]; [reflexivity|].
    apply (erase_next_keeps _ _ _ _ _ Hin1 H2 He). }
  assert (Esp : forall q, sp nand' (cur_blk r1) q = sp n1 (cur_blk r1) q)
    by (intros q; unfold sp; rewrite Hpg; reflexivity).
  exists ring', nand', (cur_blk r1). split; [exact Hw|].
  split; [destruct F1 as (_ & _ & _ & M & _); auto|].
  split; [exact Hin1|].
  split; [intros E; rewrite E in Hgood1; unfold good in Hgood1; congruence|].
  split; [intros q Hq; rewrite Hpg; apply (proj2 (W8 Hin1)); exact Hq|].
  split; [rewrite (valid_sp crc _ _ _ _ _ _ (Esp _)); exact W5|].
  split; [rewrite (rid_sp crc _ _ _ _ _ _ (Esp _)); exact W6|].
  split; [rewrite Hpg; exact W7|].
  split; [intros q Hq; rewrite Hpg, (Her q Hq); symmetry;
          apply erased_page_frame; exact F1|].
  split; [exact Hid|]. split.
  - intros Hlt. destruct Hcase as [(_ & -> & ->)|(E & _)]; [|lia].
    cbn. auto.
  - intros Heq. destruct Hcase as [(Hlt & _)|(_ & E & _)]; [lia|exact E].
Qed.

(** C7: block rollover.  When a call of [nandRingWritePage] writes the last
    page of a block ([cur_page = ppb - 1]) on a ring that holds at least two
    good blocks more than there are faults left to inject, the call returns
    normally with [cur_page] back at [0]; the block [filled], the current one
    unless a program failure led to a rescue, now holds [ppb] valid pages;
    and [cur_blk] is the next good block of the ring after [filled] (every
    block between them in ring order is bad), is another block, and is fully
    erased. *)
Theorem block_rollover :
  forall softcrc32 cfg fuel ring nand data,
    reachable softcrc32 cfg ring nand ->
    state ring = NAND_RING_MOUNTED ->
    cur_id ring < 2 ^ 64 - 1 ->
    cur_page ring = ppb nand - 1 ->
    2 <= budget cfg nand ->
    len cfg + Z.of_nat (List.length (nd_faults nand)) + 2 < Z.of_nat fuel ->
    exists ring' nand' filled,
      nandRingWritePage softcrc32 fuel ring nand (Some data) = Ok (ring', nand') /\
      cur_page ring' = 0 /\
      in_ring cfg filled /\
      (forall q, 0 <= q < ppb nand -> valid softcrc32 nand' filled q = true) /\
      (program_failed nand = false -> filled = cur_blk ring) /\
      in_ring cfg (cur_blk ring') /\ good nand' (cur_blk ring') /\
      cur_blk ring' <> filled /\
      (forall x, in_ring cfg x -> between filled (cur_blk ring') x ->
                 nd_bad nand' x = true) /\
      block_erased nand' (cur_blk ring').
Proof.
  intros crc cfg fuel ring nand data Hreach Hst Hmax Hlast Hbud Hfuel.
  destruct (reachable_mounted_in_ring _ _ _ _ Hreach Hst) as (Hc & Hok & Hin); [lia|].
  destruct (nandRingWritePage_total crc cfg fuel ring nand data Hc Hst Hok Hin)
    as (ring' & nand' & Hw & _ & Hbud'); [lia|exact Hfuel|].
  pose proof (reachable_inv _ _ _ _ Hreach) as Hinv.
  destruct (nandRingWritePage_spec _ _ _ _ _ _ _ _ Hinv Hst Hmax Hw)
    as (r1 & n1 & W & Hid & _ & _ & Hcase).
  destruct W as (W1 & W2 & W3 & W4 & W5 & W6 & W7 & W8 & W9 & W10).
  destruct Hcase as [(Hlt & _)|(_ & E0 & _ & He)]; [lia|].
  assert (H2 : 2 <= good_blocks cfg nand') by (unfold budget in *; lia).
  pose proof He as (F1 & _ & Hers & _).
  assert (Hin1 : in_ring cfg (cur_blk r1)).
  { destruct (in_ring_dec cfg (cur_blk r1)) as [Y|N]; [exact Y|]. exfalso.
    destruct W3 as (_ & _ & _ & _ & Hout).
    apply (good_blocks_some cfg nand'); [lia|].
    eapply frame_all_bad; eauto. }
  destruct (erase_next_keeps _ _ _ _ _ Hin1 H2 He) as (Ib & Gb & Hne & Bt & Hpg).
  exists ring', nand', (cur_blk r1). split; [exact Hw|]. split; [exact E0|].
  split; [exact Hin1|]. split; [|split].
  - intros q Hq.
    rewrite (valid_sp crc nand' n1 (cur_blk r1) q (cur_blk r1) q)
      by (unfold sp; rewrite Hpg; reflexivity).
    destruct W3 as (_ & _ & _ & Hin' & _). destruct (Hin' Hin1) as (_ & V & _).
    apply V. lia.
  - intros Hnf. apply (W10 Hnf).
  - repeat (split; [assumption|]). exact Hers.
Qed.

(** ** Lifecycle state checks *)

(** C9 (as amended): [nandRingMount] and [nandRingStop] raise the fatal
    assertion unless the ring is [IDLE], and [nandRingWritePage] and
    [nandRingTotalGood] unless it is [MOUNTED]; [nandRingStop] takes an
    [IDLE] ring to [STOP]; [nandRingObjectInit] checks no state and leaves
    the ring [UNINIT]. *)
Theorem lifecycle_state_checks :
  forall softcrc32 fuel ring nand data,
    (state ring <> NAND_RING_IDLE ->
     nandRingMount softcrc32 fuel ring nand = Halt "osalDbgCheck" /\
     nandRingStop ring = Halt "osalDbgCheck") /\
    (state ring <> NAND_RING_MOUNTED ->
     nandRingWritePage softcrc32 fuel ring nand (Some data) = Halt "osalDbgCheck" /\
     nandRingTotalGood ring nand = Halt "osalDbgCheck") /\
    (state ring = NAND_RING_IDLE ->
     exists ring', nandRingStop ring = Ok ring' /\ state ring' = NAND_RING_STOP) /\
    (exists ring', nandRingObjectInit ring = Ok ring' /\
                   state ring' = NAND_RING_UNINIT).
Proof.
  intros crc fuel ring nand data.
  unfold nandRingMount, nandRingStop, nandRingWritePage, nandRingTotalGood,
    nandRingObjectInit.
  split; [|split; [|split]].
  - intros H. destruct (state ring); try congruence; split; reflexivity.
  - intros H. destruct (state ring); try congruence; split; reflexivity.
  - intros H. rewrite H. cbn. eexists. split; reflexivity.
  - eexists. split; reflexivity.
Qed.

(** ** Worked examples on the reference device *)

(** C4, at the cold-start scenario: the mount of the fresh 64-block device
    returns [OSAL_SUCCESS] with [cur_page = 0] and [cur_id = PAGE_ID_FIRST],
    but [cur_blk] is block 1, the good block after the first good block
    [start_blk = 0], which is the one erased. *)
Theorem cold_mkfs_second_block :
  exists nand',
    nandRingMount crc32 ex_fuel ex_ring_idle spec_nand =
      Ok (OSAL_SUCCESS, mkRing (Some ex_cfg) NAND_RING_MOUNTED 1 0 1 0 0, nand') /\
    block_erased nand' 1 /\ start_blk ex_cfg = 0.
Proof.
  assert (Hok : cfg_ok ex_cfg spec_nand) by (unfold cfg_ok; simpl; lia).
  assert (Hg : geo_ok spec_nand) by (unfold geo_ok, ppb; simpl; lia).
  assert (Hf : fresh spec_nand) by (intros b p; reflexivity).
  assert (Hgood : forall b, in_ring ex_cfg b -> nd_bad spec_nand b = false)
    by (intros b _; reflexivity).
  assert (Hlen : MIN_RING_SIZE <= len ex_cfg) by (unfold MIN_RING_SIZE; simpl; lia).
  assert (Hfuel : 2 * len ex_cfg < Z.of_nat ex_fuel)
    by (apply Z.ltb_lt; vm_compute; reflexivity).
  destruct (mount_fresh_ring crc32 ex_fuel ex_ring_idle spec_nand ex_cfg
              eq_refl eq_refl Hok Hg Hf Hgood Hlen eq_refl Hfuel)
    as (nand' & E & Her & _).
  exists nand'. split; [exact E|]. split; [exact Her|reflexivity].
Qed.

(** C2, at a session of two appends: one uninterrupted recovery after the
    power loss sets [cur_id = 3]; a recovery run after one that was cut by a
    power loss inside [close_prev_session], or after one that ran to its end,
    sets [cur_id = 2], because the close-out loop starts at the last valid
    page and so destroys it. *)
Theorem close_prev_session_not_idempotent :
  summary ex_session = Some (1, 2, 3) /\
  summary ex_recover_once = Some (2, 0, 3) /\
  summary ex_recover_interrupted = Some (2, 0, 2) /\
  summary ex_recover_twice = Some (2, 0, 2).
Proof. repeat split; vm_compute; reflexivity. Qed.

(** C9, counterexample: [nandRingUmount] on a ring that is not [MOUNTED],
    [nandRingStart] on a ring that is not [UNINIT] and [nandRingObjectInit]
    on a mounted ring all return normally. *)
Lemma umount_start_init_check_no_state :
  nandRingUmount ex_ring_idle = Ok ex_ring_idle /\
  nandRingStart (mkRing (Some ex_cfg) NAND_RING_MOUNTED 1 0 1 0 0) spec_nand
                (Some ex_cfg) = Ok (mkRing (Some ex_cfg) NAND_RING_IDLE 1 0 1 0 0) /\
  nandRingObjectInit (mkRing (Some ex_cfg) NAND_RING_MOUNTED 1 0 1 0 0) =
    Ok (mkRing None NAND_RING_UNINIT 1 0 1 0 0).
Proof. repeat split; vm_compute; reflexivity. Qed.

Lemma small_nand_ok faults :
  fresh (small_nand faults) /\ cfg_ok ex_cfg (small_nand faults) /\
  geo_ok (small_nand faults).
Proof.
  split; [intros b p; reflexivity|]. split.
  - unfold cfg_ok. simpl. lia.
  - unfold geo_ok, ppb. simpl. lia.
Qed.

Lemma ex_reach_idle : reachable crc32 ex_cfg ex_ring_idle (small_nand []).
Proof.
  destruct (small_nand_ok []) as (A & B & C).
  apply (reach_boot crc32 ex_cfg ex_ring_raw); auto.
Qed.

Lemma ex_reach_s1 : reachable crc32 ex_cfg (fst ex_s1) (snd ex_s1).
Proof.
  apply (reach_mount crc32 ex_cfg ex_fuel ex_ring_idle (small_nand []) OSAL_SUCCESS).
  - exact ex_reach_idle.
  - vm_compute. reflexivity.
Qed.

Lemma ex_append_eq s b :
  summary (nandRingWritePage crc32 ex_fuel (fst s) (snd s) (Some (ex_data b))) <> None ->
  nandRingWritePage crc32 ex_fuel (fst s) (snd s) (Some (ex_data b)) =
    Ok (fst (ex_append s b), snd (ex_append s b)).
Proof.
  unfold ex_append.
  destruct (nandRingWritePage crc32 ex_fuel (fst s) (snd s) (Some (ex_data b)))
    as [[r n]| |]; cbn; congruence.
Qed.

Lemma ex_reach_append s b :
  reachable crc32 ex_cfg (fst s) (snd s) ->
  cur_id (fst s) < 2 ^ 64 - 1 ->
  summary (nandRingWritePage crc32 ex_fuel (fst s) (snd s) (Some (ex_data b))) <> None ->
  reachable crc32 ex_cfg (fst (ex_append s b)) (snd (ex_append s b)).
Proof.
  intros Hr Hid Hs. eapply reach_write; [exact Hr|exact Hid|].
  apply ex_append_eq. exact Hs.
Qed.

Lemma ex_reach_s2 : reachable crc32 ex_cfg (fst ex_s2) (snd ex_s2).
Proof.
  apply ex_reach_append; [exact ex_reach_s1| |].
  - apply Z.ltb_lt. vm_compute. reflexivity.
  - vm_compute. discriminate.
Qed.

Lemma ex_reach_s3 : reachable crc32 ex_cfg (fst ex_s3) (snd ex_s3).
Proof.
  apply ex_reach_append; [exact ex_reach_s2| |].
  - apply Z.ltb_lt. vm_compute. reflexivity.
  - vm_compute. discriminate.
Qed.

Lemma ex_reach_s4 : reachable crc32 ex_cfg (fst ex_s4) (snd ex_s4).
Proof.
  apply ex_reach_append; [exact ex_reach_s3| |].
  - apply Z.ltb_lt. vm_compute. reflexivity.
  - vm_compute. discriminate.
Qed.





(** *** The theorems at concrete inputs *)

Lemma mount_too_few_good_blocks_witness :
  nandRingMount crc32 ex_fuel ex_ring_idle worn_nand =
    Ok (OSAL_FAILED, ex_ring_idle, worn_nand).
Proof.
  assert (Hok : cfg_ok ex_cfg worn_nand) by (unfold cfg_ok; simpl; lia).
  apply (proj1 (mount_too_few_good_blocks crc32 ex_fuel ex_ring_idle worn_nand ex_cfg
                  eq_refl eq_refl Hok)).
  vm_compute. reflexivity.
Defined.

Lemma lifecycle_state_checks_witness :
  nandRingMount crc32 ex_fuel ex_ring_raw spec_nand = Halt "osalDbgCheck" /\
  nandRingStop ex_ring_raw = Halt "osalDbgCheck" /\
  nandRingWritePage crc32 ex_fuel ex_ring_idle spec_nand (Some (ex_data 0)) =
    Halt "osalDbgCheck".
Proof.
  destruct (lifecycle_state_checks crc32 ex_fuel ex_ring_raw spec_nand (ex_data 0))
    as (A & _).
  destruct (lifecycle_state_checks crc32 ex_fuel ex_ring_idle spec_nand (ex_data 0))
    as (_ & B & _).
  assert (H1 : state ex_ring_raw <> NAND_RING_IDLE) by (simpl; discriminate).
  assert (H2 : state ex_ring_idle <> NAND_RING_MOUNTED) by (simpl; discriminate).
  split; [exact (proj1 (A H1))|]. split; [exact (proj2 (A H1))|exact (proj1 (B H2))].
Defined.




Lemma rescue_on_program_failure_witness :
  exists ring' nand' blk,
    nandRingWritePage crc32 ex_fuel (fst ex_s2) (inject (snd ex_s2) [true] 0)
                      (Some (ex_data 0x5A)) = Ok (ring', nand') /\
    nd_bad nand' (cur_blk (fst ex_s2)) = true /\
    blk <> cur_blk (fst ex_s2) /\
    (forall q, 0 <= q < cur_page (fst ex_s2) ->
               nd_pages nand' blk q =
               nd_pages (inject (snd ex_s2) [true] 0) (cur_blk (fst ex_s2)) q) /\
    read_page_id crc32 nand' blk (cur_page (fst ex_s2)) = cur_id (fst ex_s2) /\
    cur_id ring' = cur_id (fst ex_s2) + 1.
Proof.
  assert (Hr : reachable crc32 ex_cfg (fst ex_s2) (inject (snd ex_s2) [true] 0))
    by (apply reach_inject; exact ex_reach_s2).
  assert (Hst : state (fst ex_s2) = NAND_RING_MOUNTED) by (vm_compute; reflexivity).
  assert (Hid : cur_id (fst ex_s2) < 2 ^ 64 - 1)
    by (apply Z.ltb_lt; vm_compute; reflexivity).
  assert (Hb : 2 <= budget ex_cfg (inject (snd ex_s2) [true] 0))
    by (apply Z.leb_le; vm_compute; reflexivity).
  assert (Hf : len ex_cfg +
               Z.of_nat (List.length (nd_faults (inject (snd ex_s2) [true] 0))) + 2
               < Z.of_nat ex_fuel)
    by (apply Z.ltb_lt; vm_compute; reflexivity).
  destruct (rescue_on_program_failure crc32 ex_cfg ex_fuel (fst ex_s2)
              (inject (snd ex_s2) [true] 0) (ex_data 0x5A) Hr Hst Hid eq_refl Hb Hf)
    as (r & n & blk & H1 & H2 & _ & H4 & H5 & _ & H7 & _ & _ & H10 & _).
  exists r, n, blk. repeat (split; [assumption|]). exact H10.
Defined.

Lemma block_rollover_witness :
  exists ring' nand' filled,
    nandRingWritePage crc32 ex_fuel (fst ex_s4) (snd ex_s4) (Some (ex_data 0xC3)) =
      Ok (ring', nand') /\
    cur_page ring' = 0 /\
    cur_blk ring' <> filled /\
    (forall x, in_ring ex_cfg x -> between filled (cur_blk ring') x ->
               nd_bad nand' x = true) /\
    block_erased nand' (cur_blk ring').
Proof.
  assert (Hst : state (fst ex_s4) = NAND_RING_MOUNTED) by (vm_compute; reflexivity).
  assert (Hid : cur_id (fst ex_s4) < 2 ^ 64 - 1)
    by (apply Z.ltb_lt; vm_compute; reflexivity).
  assert (Hp : cur_page (fst ex_s4) = ppb (snd ex_s4) - 1) by (vm_compute; reflexivity).
  assert (Hb : 2 <= budget ex_cfg (snd ex_s4))
    by (apply Z.leb_le; vm_compute; reflexivity).
  assert (Hf : len ex_cfg + Z.of_nat (List.length (nd_faults (snd ex_s4))) + 2
               < Z.of_nat ex_fuel)
    by (apply Z.ltb_lt; vm_compute; reflexivity).
  destruct (block_rollover crc32 ex_cfg ex_fuel (fst ex_s4) (snd ex_s4) (ex_data 0xC3)
              ex_reach_s4 Hst Hid Hp Hb Hf)
    as (r & n & filled & H1 & H2 & _ & _ & _ & _ & _ & H8 & H9 & H10).
  exists r, n, filled. repeat (split; [assumption|]). exact H10.
Defined.


(** * Further properties of the engine *)

(** ** The block iterator *)

(** X1: started at a block of the ring with fuel for one lap, [next_good]
    returns; its result is [BLOCK_NOT_FOUND] only when every block of the
    ring is bad, and otherwise the first good block after [current] in ring
    order, every block passed over being bad. *)
Theorem next_good_finds_successor :
  forall cfg nand fuel current,
    cfg_ok cfg nand -> in_ring cfg current -> len cfg <= Z.of_nat fuel ->
    exists r,
      next_good fuel cfg nand current = Ok r /\
      ((r = BLOCK_NOT_FOUND /\ ring_all_bad cfg nand) \/
       (in_ring cfg r /\ nd_bad nand r = false /\
        forall x, in_ring cfg x -> between current r x -> nd_bad nand x = true)).
Proof.
  intros cfg nand fuel current Hok Hc Hf.
  destruct (next_good_terminates cfg nand Hok fuel current Hc Hf) as [r Hr].
  exists r. split; [exact Hr|].
  exact (next_good_spec cfg nand Hok fuel current r Hc Hr).
Qed.

(** X2: when [current] is the only good block of the ring the search goes
    once around the ring and hands [current] itself back. *)
Theorem next_good_sole_good_block :
  forall cfg nand fuel current,
    cfg_ok cfg nand -> in_ring cfg current -> len cfg <= Z.of_nat fuel ->
    nd_bad nand current = false ->
    (forall x, in_ring cfg x -> x <> current -> nd_bad nand x = true) ->
    next_good fuel cfg nand current = Ok current.
Proof.
  intros cfg nand fuel current Hok Hc Hf Hgood Hothers.
  destruct (next_good_terminates cfg nand Hok fuel current Hc Hf) as [r Hr].
  rewrite Hr. f_equal.
  destruct (next_good_spec cfg nand Hok fuel current r Hc Hr)
    as [(_ & Hall)|(Hin & Hg & _)].
  - specialize (Hall current Hc). congruence.
  - destruct (Z.eq_dec r current) as [E|N]; [exact E|].
    specialize (Hothers r Hin N). unfold good in Hg. congruence.
Qed.

(** X3: the sentinel is not a block of the ring, so a search started at
    [BLOCK_NOT_FOUND] never comes back to its starting point: when no block
    up to the end of the ring is good, [next_good] and [erase_next] called
    with the sentinel never return, whatever the fuel. *)
Theorem next_good_from_not_found_spins :
  forall cfg nand fuel,
    cfg_ok cfg nand ->
    (forall x, 0 <= x < start_blk cfg + len cfg -> nd_bad nand x = true) ->
    next_good fuel cfg nand BLOCK_NOT_FOUND = Hang /\
    erase_next fuel cfg nand BLOCK_NOT_FOUND = Hang.
Proof.
  intros cfg nand fuel (Hs & Hl & Hb & Hk) Hbad.
  assert (Hloop : forall n b,
             b = 2 ^ 32 - 1 \/ 0 <= b < start_blk cfg + len cfg ->
             next_good_loop n cfg nand BLOCK_NOT_FOUND b = Hang).
  { induction n as [|n IH]; intros b Hb0; [reflexivity|].
    cbn [next_good_loop]. unfold nandIsBad.
    rewrite (u32_small (start_blk cfg + len cfg)) by lia.
    assert (Hb1 : exists b1,
               (if u32 (b + 1) =? start_blk cfg + len cfg
                then start_blk cfg else u32 (b + 1)) = b1 /\
               0 <= b1 < start_blk cfg + len cfg).
    { destruct Hb0 as [->|Hb0].
      - replace (u32 (2 ^ 32 - 1 + 1)) with 0 by reflexivity.
        exists 0. split; [|lia].
        destruct (Z.eqb_spec 0 (start_blk cfg + len cfg)); [lia|reflexivity].
      - rewrite (u32_small (b + 1)) by lia.
        destruct (Z.eqb_spec (b + 1) (start_blk cfg + len cfg)); eexists; split;
          try reflexivity; lia. }
    destruct Hb1 as (b1 & -> & Hb1).
    rewrite (Hbad b1 Hb1). cbn [negb].
    assert (Hne : (b1 =? BLOCK_NOT_FOUND) = false)
      by (apply Z.eqb_neq; unfold BLOCK_NOT_FOUND; lia).
    rewrite Hne. cbn [negb]. apply IH. right. exact Hb1. }
  assert (Hng : forall n, next_good n cfg nand BLOCK_NOT_FOUND = Hang).
  { intros n. unfold next_good. apply Hloop. left. reflexivity. }
  split; [apply Hng|].
  destruct fuel as [|fuel]; [reflexivity|].
  cbn [erase_next]. rewrite Hng. reflexivity.
Qed.

(** X4: [first_good] returns the lowest good block of the ring, and
    [BLOCK_NOT_FOUND] only when the ring has none. *)
Theorem first_good_is_lowest :
  forall cfg nand fuel,
    cfg_ok cfg nand -> len cfg <= Z.of_nat fuel ->
    exists f,
      first_good fuel cfg nand = Ok f /\
      ((f = BLOCK_NOT_FOUND /\ ring_all_bad cfg nand) \/
       (in_ring cfg f /\ nd_bad nand f = false /\
        forall x, in_ring cfg x -> x < f -> nd_bad nand x = true)).
Proof.
  intros cfg nand fuel Hok Hf. pose proof Hok as (Hs & Hl & Hb & Hk).
  assert (Hlast : in_ring cfg (start_blk cfg + len cfg - 1)) by (unfold in_ring; lia).
  assert (E : first_good fuel cfg nand =
              next_good fuel cfg nand (start_blk cfg + len cfg - 1)).
  { unfold first_good.
    rewrite (u32_small (start_blk cfg + len cfg)) by lia.
    rewrite (u32_small (start_blk cfg + len cfg - 1)) by lia. reflexivity. }
  destruct (next_good_terminates cfg nand Hok fuel _ Hlast Hf) as [f Hr].
  exists f. split; [rewrite E; exact Hr|].
  destruct (next_good_spec cfg nand Hok fuel _ f Hlast Hr)
    as [(E0 & Hall)|(Hin & Hg & Hbt)]; [left; auto|right].
  split; [exact Hin|]. split; [exact Hg|].
  intros x Hx Hlt. apply Hbt; [exact Hx|].
  unfold in_ring in Hin, Hx. unfold between.
  destruct (Z.ltb_spec (start_blk cfg + len cfg - 1) f); lia.
Qed.

(** ** The good-block count *)

Lemma count_good_filter nand b :
  forall n s,
    count_good n nand (b + Z.of_nat s) =
    Z.of_nat (List.length (filter (fun x => negb (nd_bad nand x))
                                  (map (fun i => b + Z.of_nat i) (seq s n)))).
Proof.
  induction n as [|n IH]; intros s; [reflexivity|].
  cbn [count_good seq map filter].
  replace (b + Z.of_nat s + 1) with (b + Z.of_nat (S s)) by lia.
  rewrite IH. destruct (nd_bad nand (b + Z.of_nat s)); cbn [negb List.length]; lia.
Qed.

(** X5: on a mounted ring [nandRingTotalGood], and [get_total_good] under
    it, return the number of blocks of the ring the driver does not report
    bad, which is at most the length of the ring; the 32-bit counter never
    wraps. *)
Theorem total_good_counts_good_blocks :
  forall ring nand cfg,
    config ring = Some cfg -> state ring = NAND_RING_MOUNTED -> cfg_ok cfg nand ->
    exists total,
      nandRingTotalGood ring nand = Ok total /\
      get_total_good ring nand = Ok total /\
      total = Z.of_nat (List.length (filter (fun b => negb (nd_bad nand b))
                                            (ring_blocks cfg))) /\
      0 <= total <= len cfg.
Proof.
  intros ring nand cfg Hc Hst Hok.
  pose proof (get_total_good_count ring nand cfg Hc Hok) as Hg.
  exists (good_blocks cfg nand).
  split; [|split; [exact Hg|split]].
  - unfold nandRingTotalGood. rewrite Hst. cbn [nandringstate_eqb negb osalDbgCheck bind].
    exact Hg.
  - unfold good_blocks, ring_blocks.
    pose proof (count_good_filter nand (start_blk cfg) (Z.to_nat (len cfg)) 0%nat) as E.
    rewrite Z.add_0_r in E. exact E.
  - unfold good_blocks.
    pose proof (count_good_bounds (Z.to_nat (len cfg)) nand (start_blk cfg)).
    destruct Hok as (_ & Hl & _). lia.
Qed.

(** ** Erasing the next block *)


(** X7: every erase that fails uses up one injected fault and retires at
    most one good block: across [erase_next] the ring loses no more good
    blocks than faults were consumed, and never gains one. *)
Theorem erase_next_fault_cost :
  forall cfg fuel nand cur blk nand',
    cfg_ok cfg nand ->
    erase_next fuel cfg nand cur = Ok (blk, nand') ->
    good_blocks cfg nand' <= good_blocks cfg nand /\
    good_blocks cfg nand - good_blocks cfg nand' <=
      Z.of_nat (List.length (nd_faults nand)) - Z.of_nat (List.length (nd_faults nand')).
Proof.
  intros cfg fuel nand cur blk nand' Hok E.
  pose proof (erase_next_budget cfg fuel nand cur blk nand' E) as Hb.
  destruct (erase_next_spec cfg fuel nand cur blk nand' Hok E) as (F & _).
  split; [apply frame_good_blocks; exact F|].
  unfold budget in Hb. lia.
Qed.


(** ** The recovery scan *)

(** Among blocks whose first pages carry the same identifier the scan keeps
    the one it visits last. *)
Lemma last_written_block_loop_latest softcrc32 cfg nand first :
  cfg_ok cfg nand -> in_ring cfg first -> good nand first ->
  (forall x, in_ring cfg x -> x < first -> nd_bad nand x = true) ->
  forall fuel b last_blk last_id lb,
    in_ring cfg b -> good nand b -> first <= b ->
    (last_blk = BLOCK_NOT_FOUND \/ read_page_id softcrc32 nand last_blk 0 = last_id) ->
    (forall x, in_ring cfg x -> good nand x -> last_blk < x -> x < b ->
               read_page_id softcrc32 nand x 0 < last_id) ->
    last_written_block_loop softcrc32 fuel cfg nand first b last_blk last_id = Ok lb ->
    forall x, in_ring cfg x -> good nand x -> lb < x ->
              read_page_id softcrc32 nand x 0 < read_page_id softcrc32 nand lb 0.
Proof.
  intros Hok Hf Gf Hlow.
  induction fuel as [|fuel IH]; intros b last_blk last_id lb Hb Gb Hfb Hl Ht H;
    cbn [last_written_block_loop] in H; [discriminate|].
  set (idb := read_page_id softcrc32 nand b 0) in *.
  assert (Hacc' : exists lb' li',
             (if last_id <=? idb then (b, idb) else (last_blk, last_id)) = (lb', li') /\
             (lb' = BLOCK_NOT_FOUND \/ read_page_id softcrc32 nand lb' 0 = li') /\
             (forall x, in_ring cfg x -> good nand x -> lb' < x -> x < b + 1 ->
                        read_page_id softcrc32 nand x 0 < li')).
  { destruct (Z.leb_spec last_id idb) as [L|L].
    - exists b, idb. split; [reflexivity|]. split; [right; reflexivity|].
      intros; lia.
    - exists last_blk, last_id. split; [reflexivity|]. split; [exact Hl|].
      intros x Hx Gx H1 H2. destruct (Z.eq_dec x b) as [->|Hne]; [fold idb; lia|].
      apply Ht; auto; lia. }
  destruct Hacc' as (lb' & li' & Epair & Hl' & Ht'). rewrite Epair in H. clear Epair.
  destruct (next_good fuel cfg nand b) as [b'| |] eqn:Hng; cbn [bind] in H;
    try discriminate.
  apply next_good_spec in Hng; [|exact Hok|exact Hb].
  destruct Hng as [(_ & A)|(Ib' & Gb' & Bt)].
  { specialize (A b Hb). unfold good in Gb. congruence. }
  destruct (Z.ltb_spec first b') as [L|L].
  - assert (Hbb' : b < b').
    { destruct (Z_lt_dec b b') as [Y|N]; [exact Y|]. exfalso.
      assert (nd_bad nand first = true).
      { apply Bt; [exact Hf|]. unfold between. destruct (Z.ltb_spec b b'); lia. }
      unfold good in Gf. congruence. }
    apply (IH b' lb' li' lb); auto; [lia|].
    intros x Hx Gx H1 H2. apply Ht'; auto.
    destruct (Z_lt_dec x (b + 1)) as [Y|N]; [exact Y|]. exfalso.
    assert (nd_bad nand x = true).
    { apply Bt; [exact Hx|]. unfold between. destruct (Z.ltb_spec b b'); lia. }
    unfold good in Gx. congruence.
  - inversion H; subst lb'. clear H.
    assert (Hb'f : b' = first).
    { destruct (Z.eq_dec b' first) as [Y|N]; [exact Y|]. exfalso.
      assert (nd_bad nand b' = true) by (apply Hlow; [exact Ib'|lia]).
      unfold good in Gb'. congruence. }
    subst b'. intros x Hx Gx Hlt. destruct Hl' as [E|E].
    + exfalso. subst lb. unfold in_ring, BLOCK_NOT_FOUND, cfg_ok in *. lia.
    + rewrite E. apply Ht'; auto.
      destruct (Z_lt_dec x (b + 1)) as [Y|N]; [exact Y|]. exfalso.
      assert (nd_bad nand x = true).
      { apply Bt; [exact Hx|]. unfold between. destruct (Z.ltb_spec b first); lia. }
      unfold good in Gx. congruence.
Qed.

(** X9: on any device contents with a good block in the ring and fuel for
    two laps, [last_written_block] returns; it answers [BLOCK_NOT_FOUND] when
    no good block starts with a valid page, and otherwise the good block
    whose first page carries the largest identifier, the highest such block
    when several carry it. *)
Theorem last_written_block_latest :
  forall softcrc32 cfg nand fuel,
    cfg_ok cfg nand -> ~ ring_all_bad cfg nand -> 2 * len cfg <= Z.of_nat fuel ->
    exists lb,
      last_written_block softcrc32 fuel cfg nand = Ok lb /\
      ((lb = BLOCK_NOT_FOUND /\
        forall b, in_ring cfg b -> nd_bad nand b = false ->
                  read_page_id softcrc32 nand b 0 < 1) \/
       (in_ring cfg lb /\ nd_bad nand lb = false /\
        1 <= read_page_id softcrc32 nand lb 0 /\
        (forall b, in_ring cfg b -> nd_bad nand b = false ->
                   read_page_id softcrc32 nand b 0 <= read_page_id softcrc32 nand lb 0) /\
        (forall b, in_ring cfg b -> nd_bad nand b = false -> lb < b ->
                   read_page_id softcrc32 nand b 0 < read_page_id softcrc32 nand lb 0))).
Proof.
  intros softcrc32 cfg nand fuel Hok Hsome Hfuel.
  destruct (last_written_block_terminates softcrc32 cfg fuel nand Hok Hsome Hfuel)
    as [lb E].
  exists lb. split; [exact E|].
  destruct (last_written_block_spec softcrc32 cfg fuel nand lb Hok Hsome E)
    as [(E0 & A)|(Hin & Hg & H1 & Hmax)]; [left; auto|right].
  split; [exact Hin|]. split; [exact Hg|]. split; [exact H1|]. split; [exact Hmax|].
  unfold last_written_block in E.
  destruct (first_good fuel cfg nand) as [f| |] eqn:Hfg; cbn [bind] in E;
    try discriminate.
  destruct (first_good_spec cfg fuel nand f Hok Hsome Hfg) as (If & Gf & Hlow).
  apply (last_written_block_loop_latest softcrc32 cfg nand f Hok If Gf Hlow
           fuel f BLOCK_NOT_FOUND PAGE_ID_FIRST lb); auto; [lia|].
  intros x Hx Gx _ Hlt. specialize (Hlow x Hx Hlt). unfold good in Gx. congruence.
Qed.

Lemma last_written_page_loop_latest softcrc32 nand lb :
  forall m page last_page last_id,
    0 <= page ->
    (last_page = LAST_PAGE_NOT_FOUND /\ last_id = 1 /\
     forall q, 0 <= q < page -> read_page_id softcrc32 nand lb q < 1) \/
    (0 <= last_page < page /\ read_page_id softcrc32 nand lb last_page = last_id /\
     1 <= last_id /\
     (forall q, 0 <= q < page -> read_page_id softcrc32 nand lb q <= last_id) /\
     (forall q, last_page < q < page -> read_page_id softcrc32 nand lb q < last_id)) ->
    forall r,
      last_written_page_loop softcrc32 m nand lb page last_page last_id = r ->
      (r = LAST_PAGE_NOT_FOUND /\
       forall q, 0 <= q < page + Z.of_nat m -> read_page_id softcrc32 nand lb q < 1) \/
      (0 <= r < page + Z.of_nat m /\ 1 <= read_page_id softcrc32 nand lb r /\
       (forall q, 0 <= q < page + Z.of_nat m ->
                  read_page_id softcrc32 nand lb q <= read_page_id softcrc32 nand lb r) /\
       (forall q, r < q < page + Z.of_nat m ->
                  read_page_id softcrc32 nand lb q < read_page_id softcrc32 nand lb r)).
Proof.
  induction m as [|m IH]; intros page last_page last_id Hp Hacc r Hr.
  - cbn in Hr. subst r. rewrite Z.add_0_r.
    destruct Hacc as [(E0 & _ & A)|(R & E & L & A & B)]; [left; auto|right].
    rewrite E. auto.
  - cbn [last_written_page_loop] in Hr.
    replace (page + Z.of_nat (S m)) with (page + 1 + Z.of_nat m) by lia.
    set (idp := read_page_id softcrc32 nand lb page) in *.
    destruct (Z.leb_spec last_id idp) as [L|L].
    + apply (IH (page + 1) page idp); [lia| |exact Hr]. right.
      split; [lia|]. split; [reflexivity|].
      destruct Hacc as [(_ & E & A)|(_ & _ & L1 & A & _)].
      * split; [lia|]. split; [|intros; lia].
        intros q Hq. destruct (Z.eq_dec q page) as [->|N]; [fold idp; lia|].
        specialize (A q). lia.
      * split; [lia|]. split; [|intros; lia].
        intros q Hq. destruct (Z.eq_dec q page) as [->|N]; [fold idp; lia|].
        specialize (A q). lia.
    + apply (IH (page + 1) last_page last_id); [lia| |exact Hr].
      destruct Hacc as [(E0 & E & A)|(R & E & L1 & A & B)]; [left|right].
      * split; [exact E0|]. split; [exact E|].
        intros q Hq. destruct (Z.eq_dec q page) as [->|N]; [fold idp; lia|].
        apply A. lia.
      * split; [lia|]. split; [exact E|]. split; [exact L1|]. split.
        -- intros q Hq. destruct (Z.eq_dec q page) as [->|N]; [fold idp; lia|].
           apply A. lia.
        -- intros q Hq. destruct (Z.eq_dec q page) as [->|N]; [fold idp; lia|].
           apply B. lia.
Qed.

(** X10: on any block other than the sentinel, whatever its contents,
    [last_written_page] halts when no page of the block validates, and
    otherwise returns the page that carries the largest identifier of the
    block, the last such page when several carry it. *)
Theorem last_written_page_latest :
  forall softcrc32 nand last_blk,
    geo_ok nand -> last_blk <> BLOCK_NOT_FOUND ->
    (last_written_page softcrc32 nand last_blk = Halt "osalDbgCheck" /\
     forall q, 0 <= q < ppb nand -> read_page_id softcrc32 nand last_blk q < 1) \/
    (exists lp,
       last_written_page softcrc32 nand last_blk = Ok lp /\
       0 <= lp < ppb nand /\
       1 <= read_page_id softcrc32 nand last_blk lp /\
       (forall q, 0 <= q < ppb nand ->
                  read_page_id softcrc32 nand last_blk q <=
                  read_page_id softcrc32 nand last_blk lp) /\
       (forall q, lp < q < ppb nand ->
                  read_page_id softcrc32 nand last_blk q <
                  read_page_id softcrc32 nand last_blk lp)).
Proof.
  intros softcrc32 nand lb Hg Hne. unfold geo_ok in Hg.
  unfold last_written_page.
  apply Z.eqb_neq in Hne. rewrite Z.eqb_sym in Hne. rewrite Hne.
  cbn [negb osalDbgCheck bind]. fold (ppb nand).
  set (r := last_written_page_loop softcrc32 (Z.to_nat (ppb nand)) nand lb 0
              LAST_PAGE_NOT_FOUND PAGE_ID_FIRST).
  assert (Hr : (r = LAST_PAGE_NOT_FOUND /\
                forall q, 0 <= q < ppb nand -> read_page_id softcrc32 nand lb q < 1) \/
               (0 <= r < ppb nand /\ 1 <= read_page_id softcrc32 nand lb r /\
                (forall q, 0 <= q < ppb nand ->
                   read_page_id softcrc32 nand lb q <= read_page_id softcrc32 nand lb r) /\
                (forall q, r < q < ppb nand ->
                   read_page_id softcrc32 nand lb q < read_page_id softcrc32 nand lb r))).
  { pose proof (last_written_page_loop_latest softcrc32 nand lb (Z.to_nat (ppb nand)) 0
                  LAST_PAGE_NOT_FOUND PAGE_ID_FIRST (Z.le_refl 0)) as H.
    rewrite Z2Nat.id in H by lia. rewrite Z.add_0_l in H.
    apply H; [|reflexivity]. left. split; [reflexivity|]. split; [reflexivity|].
    intros; lia. }
  destruct Hr as [(E & A)|(R & B)].
  - left. rewrite E. split; [reflexivity|exact A].
  - right. exists r. split; [|split; [exact R|exact B]].
    assert (Hn : (LAST_PAGE_NOT_FOUND =? r) = false)
      by (apply Z.eqb_neq; unfold LAST_PAGE_NOT_FOUND; lia).
    rewrite Hn. reflexivity.
Qed.

(** ** Closing the previous session *)


(** ** Mount *)

(** X12: a mount creates no record.  Whenever [nandRingMount] returns, in a
    state the ring can reach, every page of the ring that validates
    afterwards held the same header before; bad marks are only added and
    the geometry is kept. *)
Theorem mount_fabricates_no_record :
  forall softcrc32 cfg fuel ring nand status ring' nand',
    reachable softcrc32 cfg ring nand ->
    nandRingMount softcrc32 fuel ring nand = Ok (status, ring', nand') ->
    (forall b p, in_ring cfg b -> 0 <= p < ppb nand ->
                 valid softcrc32 nand' b p = true -> sp nand' b p = sp nand b p) /\
    (forall b, nd_bad nand b = true -> nd_bad nand' b = true) /\
    nd_config nand' = nd_config nand.
Proof.
  intros softcrc32 cfg fuel ring nand status ring' nand' Hreach Hm.
  destruct (reachable_inv _ _ _ _ Hreach) as (Hc & Hinv & _).
  destruct (nandRingMount_spec softcrc32 cfg fuel ring nand status ring' nand'
              Hc Hinv Hm) as (_ & [(_ & _ & -> & _)|(_ & m & Hpost)]).
  - repeat split; auto.
  - destruct Hpost as (_ & _ & _ & (F & Hsh) & _).
    split; [|split; [apply F|apply F]].
    intros b p Hb Hp Hv. destruct (Hsh b Hb) as (k' & Hk).
    destruct (Hk p Hp) as (Hlow & Hhigh).
    destruct (Z_lt_dec p k') as [L|L]; [auto|].
    rewrite Hhigh in Hv by lia. discriminate.
Qed.

(** ** Append *)

(** X13: an append that meets no program failure and does not fill the
    block programs one page and nothing else: the page at [cur_blk],
    [cur_page] holds the data under the identifier [cur_id], every other
    page and every bad mark is as before, and the ring moves to the next
    page of the same block. *)
Theorem append_touches_one_page :
  forall softcrc32 cfg fuel ring nand data,
    reachable softcrc32 cfg ring nand ->
    state ring = NAND_RING_MOUNTED ->
    cur_id ring < 2 ^ 64 - 1 ->
    program_failed nand = false ->
    cur_page ring + 1 < ppb nand ->
    exists ring' nand',
      nandRingWritePage softcrc32 (S fuel) ring nand (Some data) = Ok (ring', nand') /\
      (forall b q, b <> cur_blk ring \/ q <> cur_page ring ->
                   nd_pages nand' b q = nd_pages nand b q) /\
      pg_data (nd_pages nand' (cur_blk ring) (cur_page ring)) = data /\
      read_page_id softcrc32 nand' (cur_blk ring) (cur_page ring) = cur_id ring /\
      nd_bad nand' = nd_bad nand /\
      cur_blk ring' = cur_blk ring /\
      cur_page ring' = cur_page ring + 1 /\
      cur_id ring' = cur_id ring + 1.
Proof.
  intros softcrc32 cfg fuel ring nand data Hreach Hst Hid Hpf Hpage.
  pose proof (reachable_inv _ _ _ _ Hreach) as Hinv.
  pose proof Hinv as (Hc & (_ & Hgeo & _) & Hm).
  destruct (Hm Hst) as (_ & (Hp0 & _)).
  assert (Hret : exists nand1,
             nandRingWritePage_retry softcrc32 (S fuel) cfg ring nand data =
               Ok (ring, nand1)).
  { cbn [nandRingWritePage_retry].
    destruct (nandWritePageData nand (cur_blk ring) (cur_page ring) data)
      as [[st ecc] n1] eqn:Ed.
    destruct (nandWritePageData_status _ _ _ _ _ _ _ Ed) as (Es & Ef).
    unfold program_failed in Hpf. apply orb_false_iff in Hpf. destruct Hpf as (Hh1 & Hh2).
    rewrite Hh1 in Es. subst st. cbn [nandFailed].
    match goal with
    | |- context [nandWritePageSpare n1 ?b ?p ?s] =>
        destruct (nandWritePageSpare n1 b p s) as [st2 n2] eqn:Esp
    end.
    destruct (nandWritePageSpare_status _ _ _ _ _ _ Esp) as (Es2 & _).
    rewrite Ef, Hh2 in Es2. subst st2. cbn [nandFailed]. eauto. }
  destruct Hret as (nand1 & Hret).
  assert (Hw : nandRingWritePage softcrc32 (S fuel) ring nand (Some data) =
               Ok (set_cur_page (set_cur_id ring (u64 (cur_id ring + 1)))
                                (u32 (cur_page ring + 1)), nand1)).
  { unfold nandRingWritePage. rewrite Hst, Hc.
    cbn [nandringstate_eqb osalDbgCheck bind]. rewrite Hret. cbn [bind].
    cbn [cur_page set_cur_page set_cur_id cur_id].
    unfold geo_ok in Hgeo. rewrite (u32_small (cur_page ring + 1)) by lia.
    fold (ppb nand).
    destruct (Z.eqb_spec (cur_page ring + 1) (ppb nand)); [lia|reflexivity]. }
  destruct (nandRingWritePage_spec softcrc32 cfg (S fuel) ring nand data _ _
              Hinv Hst Hid Hw)
    as (ring1 & n1 & Hpost & Hid' & _ & _ & Hcase).
  destruct Hcase as [(_ & Er & En)|(Hfull & _)]; [|lia].
  cbn [fst snd] in *. subst n1.
  destruct Hpost as (E1 & _ & _ & _ & _ & Hrid & Hdata & _ & _ & Hquiet).
  destruct (Hquiet Hpf) as (Ec & Hbad & Hpages).
  rewrite Ec in Hrid, Hdata.
  eexists _, nand1. split; [exact Hw|].
  split; [exact Hpages|]. split; [exact Hdata|]. split; [exact Hrid|].
  split; [exact Hbad|].
  cbn [cur_blk cur_page cur_id set_cur_page set_cur_id].
  unfold geo_ok in Hgeo. rewrite (u32_small (cur_page ring + 1)) by lia.
  split; [reflexivity|]. split; [reflexivity|]. exact Hid'.
Qed.

(** X14: whatever faults are injected, an append on a mounted ring that
    holds more good blocks than there are faults left returns, with
    [cur_blk] a block of the ring; the retries cost the ring at most one
    good block for every fault consumed. *)
Theorem append_returns_within_budget :
  forall softcrc32 cfg fuel ring nand data,
    reachable softcrc32 cfg ring nand ->
    state ring = NAND_RING_MOUNTED ->
    Z.of_nat (List.length (nd_faults nand)) < good_blocks cfg nand ->
    len cfg + Z.of_nat (List.length (nd_faults nand)) + 2 < Z.of_nat fuel ->
    exists ring' nand',
      nandRingWritePage softcrc32 fuel ring nand (Some data) = Ok (ring', nand') /\
      in_ring cfg (cur_blk ring') /\
      good_blocks cfg nand - good_blocks cfg nand' <=
        Z.of_nat (List.length (nd_faults nand)) -
        Z.of_nat (List.length (nd_faults nand')).
Proof.
  intros softcrc32 cfg fuel ring nand data Hreach Hst Hb Hf.
  assert (Hb1 : 1 <= budget cfg nand) by (unfold budget; lia).
  destruct (reachable_mounted_in_ring softcrc32 cfg ring nand Hreach Hst Hb1)
    as (Hc & Hok & Hin).
  destruct (nandRingWritePage_total softcrc32 cfg fuel ring nand data
              Hc Hst Hok Hin Hb1 Hf) as (ring' & nand' & E & Hin' & Hbud).
  exists ring', nand'. split; [exact E|]. split; [exact Hin'|].
  unfold budget in Hbud. lia.
Qed.

(** ** Formatting an empty ring *)

Lemma first_good_terminates cfg nand fuel :
  cfg_ok cfg nand -> len cfg <= Z.of_nat fuel ->
  exists f, first_good fuel cfg nand = Ok f.
Proof.
  intros Hok Hf. pose proof Hok as (Hs & Hl & Hb & Hk).
  unfold first_good.
  rewrite (u32_small (start_blk cfg + len cfg)) by lia.
  rewrite (u32_small (start_blk cfg + len cfg - 1)) by lia.
  apply next_good_terminates; [exact Hok| |exact Hf]. unfold in_ring. lia.
Qed.

(** X16: [mkfs] does not hand out the first good block of the ring: on a
    ring that holds at least two good blocks more than there are faults
    left, it returns a good block above the lowest good block [f], erased,
    and leaves the pages of [f] and of every other block as they were. *)
Theorem mkfs_skips_first_good_block :
  forall cfg fuel nand,
    cfg_ok cfg nand ->
    Z.of_nat (List.length (nd_faults nand)) + 2 <= good_blocks cfg nand ->
    len cfg + Z.of_nat (List.length (nd_faults nand)) < Z.of_nat fuel ->
    exists f blk nand',
      first_good fuel cfg nand = Ok f /\
      mkfs fuel cfg nand = Ok (blk, nand') /\
      in_ring cfg f /\ nd_bad nand f = false /\
      (forall x, in_ring cfg x -> x < f -> nd_bad nand x = true) /\
      in_ring cfg blk /\ nd_bad nand' blk = false /\ f < blk /\
      (forall p, nd_pages nand' blk p = erased_page nand') /\
      (forall b p, b <> blk -> nd_pages nand' b p = nd_pages nand b p).
Proof.
  intros cfg fuel nand Hok Hgood Hf.
  assert (Hsome : ~ ring_all_bad cfg nand) by (apply good_blocks_some; lia).
  destruct (first_good_terminates cfg nand fuel Hok) as [f Hfg]; [lia|].
  destruct (first_good_spec cfg fuel nand f Hok Hsome Hfg) as (If & Gf & Hlow).
  assert (Hb1 : 1 <= budget cfg nand) by (unfold budget; lia).
  destruct (erase_next_total cfg fuel nand f Hok If Hb1 Hf)
    as (blk & nand' & E & Hin & Hbud).
  pose proof (erase_next_spec cfg fuel nand f blk nand' Hok E) as Hpost.
  assert (H2 : 2 <= good_blocks cfg nand') by (unfold budget in Hbud; lia).
  destruct (erase_next_keeps cfg nand f blk nand' If H2 Hpost)
    as (_ & Gblk & Hne & _ & _).
  destruct Hpost as (F & P & Er & _).
  exists f, blk, nand'. split; [exact Hfg|]. split.
  { unfold mkfs. rewrite Hfg. cbn [bind]. exact E. }
  split; [exact If|]. split; [exact Gf|]. split; [exact Hlow|].
  split; [exact Hin|]. split; [exact Gblk|]. split; [|split; [exact Er|exact P]].
  destruct (Z_lt_dec f blk) as [Y|N]; [exact Y|]. exfalso.
  assert (Hbad : nd_bad nand blk = true) by (apply Hlow; [exact Hin|lia]).
  pose proof (frame_good nand nand' blk F Gblk) as G. unfold good in G. congruence.
Qed.

(** ** Invariants of the reachable states *)

(** X17: in every state the ring can reach, the identifiers of the valid
    pages of a block of the ring strictly increase with the page number: a
    valid page is preceded by valid pages only, each with a smaller
    identifier, and every identifier lies between [PAGE_ID_FIRST] and
    [2 ^ 64 - 2]. *)
Theorem identifiers_increase_within_block :
  forall softcrc32 cfg ring nand b p q,
    reachable softcrc32 cfg ring nand -> in_ring cfg b ->
    0 <= p -> p < q -> q < ppb nand ->
    valid softcrc32 nand b q = true ->
    valid softcrc32 nand b p = true /\
    PAGE_ID_FIRST <= read_page_id softcrc32 nand b p /\
    read_page_id softcrc32 nand b p < read_page_id softcrc32 nand b q /\
    read_page_id softcrc32 nand b q < 2 ^ 64 - 1.
Proof.
  intros softcrc32 cfg ring nand b p q Hreach Hb Hp Hpq Hq Hv.
  destruct (reachable_inv _ _ _ _ Hreach) as (_ & (_ & _ & Hblk & _) & _).
  destruct (Hblk b Hb) as (k & Hk & Hval & Hrange & Hmono).
  assert (Hqk : q < k) by (apply Hval; [lia|exact Hv]).
  split; [apply Hval; lia|]. unfold PAGE_ID_FIRST.
  pose proof (Hrange p ltac:(lia)). pose proof (Hrange q ltac:(lia)).
  pose proof (Hmono p q Hp Hpq Hqk). lia.
Qed.

(** X18: in every state the ring can reach, no identifier is stored twice:
    two different valid pages of good blocks of the ring carry different
    identifiers. *)
Theorem durable_identifiers_distinct :
  forall softcrc32 cfg ring nand b1 p1 b2 p2,
    reachable softcrc32 cfg ring nand ->
    in_ring cfg b1 -> in_ring cfg b2 ->
    nd_bad nand b1 = false -> nd_bad nand b2 = false ->
    0 <= p1 < ppb nand -> 0 <= p2 < ppb nand ->
    valid softcrc32 nand b1 p1 = true -> valid softcrc32 nand b2 p2 = true ->
    b1 <> b2 \/ p1 <> p2 ->
    read_page_id softcrc32 nand b1 p1 <> read_page_id softcrc32 nand b2 p2.
Proof.
  intros softcrc32 cfg ring nand b1 p1 b2 p2 Hreach Hb1 Hb2 G1 G2 Hp1 Hp2 V1 V2
         Hdiff E.
  cut (b1 = b2 /\ p1 = p2); [intros (A & B); destruct Hdiff; congruence|].
  destruct (reachable_inv _ _ _ _ Hreach) as (_ & (_ & _ & Hblk & Hord) & _).
  destruct (Hblk b1 Hb1) as (k1 & Hk1 & Hval1 & Hrange1 & Hmono1).
  destruct (Hblk b2 Hb2) as (k2 & Hk2 & Hval2 & Hrange2 & Hmono2).
  assert (Hpk1 : p1 < k1) by (apply Hval1; auto).
  assert (Hpk2 : p2 < k2) by (apply Hval2; auto).
  destruct (Z.eq_dec b1 b2) as [Eb|Nb].
  - subst b2. split; [reflexivity|].
    assert (k2 = k1).
    { destruct (Z_lt_dec k1 k2).
      - assert (valid softcrc32 nand b1 k1 = true) by (apply Hval2; lia).
        assert (k1 < k1) by (apply Hval1; [lia|assumption]). lia.
      - destruct (Z_lt_dec k2 k1); [|lia].
        assert (valid softcrc32 nand b1 k2 = true) by (apply Hval1; lia).
        assert (k2 < k2) by (apply Hval2; [lia|assumption]). lia. }
    subst k2.
    destruct (Z_lt_dec p1 p2) as [L|L].
    + pose proof (Hmono1 p1 p2 ltac:(lia) L Hpk2). lia.
    + destruct (Z_lt_dec p2 p1) as [L'|L']; [|lia].
      pose proof (Hmono1 p2 p1 ltac:(lia) L' Hpk1). lia.
  - exfalso.
    assert (F1 : 1 <= read_page_id softcrc32 nand b1 0)
      by (pose proof (Hrange1 0 ltac:(lia)); lia).
    assert (F2 : 1 <= read_page_id softcrc32 nand b2 0)
      by (pose proof (Hrange2 0 ltac:(lia)); lia).
    assert (L1 : read_page_id softcrc32 nand b1 0 <= read_page_id softcrc32 nand b1 p1).
    { destruct (Z.eq_dec p1 0) as [->|N]; [lia|].
      pose proof (Hmono1 0 p1 ltac:(lia) ltac:(lia) Hpk1). lia. }
    assert (L2 : read_page_id softcrc32 nand b2 0 <= read_page_id softcrc32 nand b2 p2).
    { destruct (Z.eq_dec p2 0) as [->|N]; [lia|].
      pose proof (Hmono2 0 p2 ltac:(lia) ltac:(lia) Hpk2). lia. }
    destruct (Hord b1 b2 Hb1 Hb2 G1 G2 Nb F1 F2) as [O|O].
    + specialize (O p1 Hp1). lia.
    + specialize (O p2 Hp2). lia.
Qed.

(** X19: whenever the ring is mounted and holds a good block, its cursor
    is the tail of the log: [cur_blk] is a good block of the ring, its pages
    before [cur_page] validate and those from [cur_page] on do not, and
    every identifier readable in a good block of the ring is below
    [cur_id]. *)
Theorem mounted_cursor_is_log_tail :
  forall softcrc32 cfg ring nand,
    reachable softcrc32 cfg ring nand ->
    state ring = NAND_RING_MOUNTED ->
    ~ ring_all_bad cfg nand ->
    in_ring cfg (cur_blk ring) /\ nd_bad nand (cur_blk ring) = false /\
    0 <= cur_page ring < ppb nand /\ PAGE_ID_FIRST <= cur_id ring /\
    (forall q, 0 <= q < cur_page ring ->
               valid softcrc32 nand (cur_blk ring) q = true) /\
    (forall q, cur_page ring <= q < ppb nand ->
               valid softcrc32 nand (cur_blk ring) q = false) /\
    (forall b p, in_ring cfg b -> nd_bad nand b = false -> 0 <= p < ppb nand ->
                 read_page_id softcrc32 nand b p < cur_id ring).
Proof.
  intros softcrc32 cfg ring nand Hreach Hst Hsome.
  destruct (reachable_inv _ _ _ _ Hreach) as (_ & _ & Hm).
  destruct (Hm Hst) as (Hlt & (Hp & Hi & Hbelow & Hin & Hout)).
  assert (Hc : in_ring cfg (cur_blk ring)).
  { destruct (in_ring_dec cfg (cur_blk ring)) as [Y|N]; [exact Y|].
    exfalso. apply Hsome. auto. }
  destruct (Hin Hc) as (G & Hv & Hnv & _).
  split; [exact Hc|]. split; [exact G|]. split; [lia|].
  split; [unfold PAGE_ID_FIRST; lia|]. split; [exact Hv|]. split; [exact Hnv|].
  exact Hbelow.
Qed.

(** ** Recovery after a full block *)

Lemma next_good_loop_ext cfg n1 n2 current :
  nd_bad n2 = nd_bad n1 ->
  forall fuel b,
    next_good_loop fuel cfg n2 current b = next_good_loop fuel cfg n1 current b.
Proof.
  intros E. induction fuel as [|fuel IH]; intros b; [reflexivity|].
  cbn [next_good_loop]. unfold nandIsBad. rewrite E.
  destruct (negb _); [reflexivity|]. destruct (negb _); [apply IH|reflexivity].
Qed.

Lemma last_written_page_loop_ext softcrc32 n1 n2 lb :
  (forall p, sp n2 lb p = sp n1 lb p) ->
  forall m page last_page last_id,
    last_written_page_loop softcrc32 m n2 lb page last_page last_id =
    last_written_page_loop softcrc32 m n1 lb page last_page last_id.
Proof.
  intros E. induction m as [|m IH]; intros page last_page last_id; [reflexivity|].
  cbn [last_written_page_loop].
  rewrite (rid_sp softcrc32 n2 n1 lb page lb page (E page)).
  destruct (last_id <=? _); apply IH.
Qed.

(** The mount of a ring whose last written block [lb] is full, when no
    fault is injected: the close-out loop is skipped and the good block
    [blk] after [lb] is erased. *)
Lemma mount_after_full_block softcrc32 cfg fuel ring nand lb blk :
  config ring = Some cfg -> state ring = NAND_RING_IDLE ->
  cfg_ok cfg nand -> geo_ok nand -> nd_faults nand = [] ->
  32 <= good_blocks cfg nand ->
  last_written_block softcrc32 (S fuel) cfg nand = Ok lb -> lb <> BLOCK_NOT_FOUND ->
  last_written_page softcrc32 nand lb = Ok (ppb nand - 1) ->
  next_good fuel cfg nand lb = Ok blk ->
  exists nand',
    nandRingMount softcrc32 (S fuel) ring nand =
      Ok (OSAL_SUCCESS,
          set_state (set_cur_id (set_cur_page (set_cur_blk ring blk) 0)
                       (u64 (read_page_id softcrc32 nand lb (ppb nand - 1) + 1)))
                    NAND_RING_MOUNTED,
          nand') /\
    frame nand nand' /\ nd_bad nand' = nd_bad nand /\ nd_faults nand' = [] /\
    forall b p, nd_pages nand' b p =
                if b =? blk then erased_page nand else nd_pages nand b p.
Proof.
  intros Hc Hst Hok Hgeo Hnf Hgood Hlwb Hne Hlwp Hng.
  destruct (erase_next_no_fault fuel cfg nand lb blk Hnf Hng)
    as (nand' & E & Hbad & Hnf' & Hpages).
  destruct (erase_next_spec cfg (S fuel) nand lb blk nand' Hok E) as (F & _).
  exists nand'. split; [|auto].
  unfold nandRingMount. rewrite Hst. cbn [nandringstate_eqb osalDbgCheck bind].
  rewrite (get_total_good_count ring nand cfg Hc Hok). cbn [bind].
  change (MIN_RING_SIZE / 2) with 32.
  destruct (Z.ltb_spec (good_blocks cfg nand) 32) as [L|_]; [lia|].
  rewrite Hc, Hlwb. cbn [bind].
  apply Z.eqb_neq in Hne. rewrite Z.eqb_sym in Hne. rewrite Hne.
  rewrite Hlwp. cbn [bind].
  unfold close_prev_session. fold (ppb nand). unfold geo_ok in Hgeo.
  rewrite (u32_small (ppb nand - 1)) by lia. rewrite Z.eqb_refl. cbn [negb].
  rewrite E. cbn [bind]. reflexivity.
Qed.

(** X20: recovery is repeatable when the last written block is full.  In a
    state the ring can reach, with enough good blocks and no fault injected,
    if the scan finds the last written block full up to its last page, a
    mount followed by a second mount (after an unmount or a power loss, the
    ring object [ringB] being idle on the same configuration) installs the
    same [cur_blk], [cur_id] and [cur_page], and the second mount leaves the
    bad marks and every page as the first one left them. *)
Theorem recovery_repeatable_after_full_block :
  forall softcrc32 cfg fuel ring nand lb ringB,
    reachable softcrc32 cfg ring nand ->
    state ring = NAND_RING_IDLE ->
    config ringB = Some cfg -> state ringB = NAND_RING_IDLE ->
    nd_faults nand = [] ->
    MIN_RING_SIZE / 2 <= good_blocks cfg nand ->
    2 * len cfg < Z.of_nat fuel ->
    last_written_block softcrc32 fuel cfg nand = Ok lb ->
    lb <> BLOCK_NOT_FOUND ->
    last_written_page softcrc32 nand lb = Ok (ppb nand - 1) ->
    exists ring1 nand1 ring2 nand2,
      nandRingMount softcrc32 fuel ring nand = Ok (OSAL_SUCCESS, ring1, nand1) /\
      nandRingMount softcrc32 fuel ringB nand1 = Ok (OSAL_SUCCESS, ring2, nand2) /\
      cur_blk ring2 = cur_blk ring1 /\ cur_id ring2 = cur_id ring1 /\
      cur_page ring2 = cur_page ring1 /\
      nd_bad nand2 = nd_bad nand1 /\
      (forall b p, nd_pages nand2 b p = nd_pages nand1 b p).
Proof.
  intros softcrc32 cfg fuel ring nand lb ringB Hreach Hst HcB HstB Hnf Hgood Hfuel
         Hlwb Hne Hlwp.
  change (MIN_RING_SIZE / 2) with 32 in Hgood.
  destruct (reachable_inv _ _ _ _ Hreach) as (Hc & Hinv & _).
  pose proof Hinv as (Hok & Hgeo & Hblk & Hord).
  pose proof Hok as (Hs & Hl & _).
  destruct fuel as [|f]; [lia|].
  assert (Hsome : ~ ring_all_bad cfg nand) by (apply good_blocks_some; lia).
  destruct (last_written_block_spec softcrc32 cfg (S f) nand lb Hok Hsome Hlwb)
    as [(E0 & _)|(Ilb & Glb & Hfirst & Hmax)]; [contradiction|].
  destruct (next_good_terminates cfg nand Hok f lb Ilb) as [blk Hng]; [lia|].
  pose proof (next_good_spec cfg nand Hok f lb blk Ilb Hng) as Hpost.
  destruct (next_good_post_other cfg nand lb blk ltac:(lia) Hpost)
    as (Iblk & Gblk & Nblk & _).
  destruct (mount_after_full_block softcrc32 cfg f ring nand lb blk
              Hc Hst Hok Hgeo Hnf Hgood Hlwb Hne Hlwp Hng)
    as (nand1 & E1 & F1 & Hbad1 & Hnf1 & Hp1).
  pose proof (reach_mount softcrc32 cfg (S f) ring nand _ _ _ Hreach E1) as Hreach1.
  destruct (reachable_inv _ _ _ _ Hreach1) as (_ & Hinv1 & _).
  pose proof Hinv1 as (Hok1 & Hgeo1 & _).
  assert (Hppb : ppb nand1 = ppb nand) by (apply frame_ppb; exact F1).
  assert (Hsp : forall p, sp nand1 lb p = sp nand lb p).
  { intros p. unfold sp. rewrite Hp1.
    destruct (Z.eqb_spec lb blk); [congruence|reflexivity]. }
  assert (Hsp' : forall b p, b <> blk -> sp nand1 b p = sp nand b p).
  { intros b p Hb. unfold sp. rewrite Hp1.
    destruct (Z.eqb_spec b blk); [congruence|reflexivity]. }
  assert (Hgood1 : 32 <= good_blocks cfg nand1).
  { unfold good_blocks. rewrite (count_good_ext _ nand nand1); [exact Hgood|].
    intros b. rewrite Hbad1. reflexivity. }
  assert (Hsome1 : ~ ring_all_bad cfg nand1) by (apply good_blocks_some; lia).
  destruct (last_written_block_terminates softcrc32 cfg (S f) nand1 Hok1 Hsome1)
    as [lb' Hlwb1]; [lia|].
  assert (Elb : lb' = lb).
  { assert (Rlb : read_page_id softcrc32 nand1 lb 0 = read_page_id softcrc32 nand lb 0)
      by (apply rid_sp; apply Hsp).
    assert (Glb1 : good nand1 lb) by (unfold good; rewrite Hbad1; exact Glb).
    destruct (last_written_block_spec softcrc32 cfg (S f) nand1 lb' Hok1 Hsome1 Hlwb1)
      as [(_ & A)|(Ilb' & Glb' & Hfirst' & Hmax')].
    { specialize (A lb Ilb Glb1). lia. }
    assert (Nlb' : lb' <> blk).
    { intros ->. rewrite (rid_invalid softcrc32 nand1 blk 0) in Hfirst'; [lia|].
      apply valid_erased. rewrite Hp1, Z.eqb_refl.
      symmetry. apply erased_page_frame. exact F1. }
    assert (Rlb' : read_page_id softcrc32 nand1 lb' 0 = read_page_id softcrc32 nand lb' 0)
      by (apply rid_sp; apply Hsp'; exact Nlb').
    assert (Glb'0 : good nand lb') by (unfold good in *; rewrite <- Hbad1; exact Glb').
    destruct (Z.eq_dec lb' lb) as [Y|N]; [exact Y|]. exfalso.
    pose proof (Hmax lb' Ilb' Glb'0) as M0.
    pose proof (Hmax' lb Ilb Glb1) as M1.
    unfold geo_ok in Hgeo.
    destruct (Hord lb' lb Ilb' Ilb Glb'0 Glb N ltac:(lia) Hfirst) as [O|O];
      specialize (O 0 ltac:(lia)); lia. }
  subst lb'.
  assert (Hlwp1 : last_written_page softcrc32 nand1 lb = Ok (ppb nand1 - 1)).
  { rewrite Hppb, <- Hlwp. unfold last_written_page.
    fold (ppb nand1). fold (ppb nand). rewrite Hppb.
    rewrite (last_written_page_loop_ext softcrc32 nand nand1 lb Hsp). reflexivity. }
  assert (Hng1 : next_good f cfg nand1 lb = Ok blk).
  { unfold next_good. rewrite (next_good_loop_ext cfg nand nand1 lb Hbad1). exact Hng. }
  destruct (mount_after_full_block softcrc32 cfg f ringB nand1 lb blk
              HcB HstB Hok1 Hgeo1 Hnf1 Hgood1 Hlwb1 Hne Hlwp1 Hng1)
    as (nand2 & E2 & F2 & Hbad2 & _ & Hp2).
  eexists _, nand1, _, nand2. split; [exact E1|]. split; [exact E2|].
  cbn [cur_blk cur_id cur_page set_state set_cur_id set_cur_page set_cur_blk].
  split; [reflexivity|]. split.
  { rewrite Hppb. rewrite (rid_sp softcrc32 nand1 nand lb (ppb nand - 1) lb (ppb nand - 1));
      [reflexivity|apply Hsp]. }
  split; [reflexivity|]. split; [exact Hbad2|].
  intros b p. rewrite Hp2. destruct (Z.eqb_spec b blk) as [->|_]; [|reflexivity].
  rewrite Hp1, Z.eqb_refl. apply erased_page_frame. exact F1.
Qed.

(** ** What a mount keeps *)

Lemma close_prev_session_keeps cfg fuel nand lb lp blk nand' :
  cfg_ok cfg nand ->
  close_prev_session fuel cfg nand lb lp = Ok (blk, nand') ->
  forall b p, b <> blk -> b <> lb \/ p < lp ->
              nd_pages nand' b p = nd_pages nand b p.
Proof.
  intros Hok H b p Hb Hp. unfold close_prev_session in H.
  set (nand1 := if negb (lp =? u32 (pages_per_block (nd_config nand) - 1))
                then close_prev_session_loop
                       (Z.to_nat (pages_per_block (nd_config nand) - lp)) nand
                       (scratchpad nand) lb lp
                else nand) in H.
  assert (H1 : frame nand nand1 /\ nd_pages nand1 b p = nd_pages nand b p).
  { unfold nand1.
    destruct (negb (lp =? u32 (pages_per_block (nd_config nand) - 1))).
    - destruct (close_prev_session_loop_spec lb (scratchpad nand)
                  (Z.to_nat (pages_per_block (nd_config nand) - lp)) nand lp)
        as (F & Hsame & _).
      split; [exact F|]. apply Hsame. destruct Hp; auto.
    - split; [apply frame_refl|reflexivity]. }
  destruct H1 as (F1 & E1).
  apply erase_next_spec in H; [|eapply frame_cfg_ok; eauto].
  destruct H as (_ & P & _). rewrite P by exact Hb. exact E1.
Qed.

(** X21: a successful mount rewrites nothing it has no reason to touch.
    When the scan finds no written block, only the block installed as
    [cur_blk] changes; otherwise every page keeps its contents except those
    of [cur_blk] and those of the last written block from the last written
    page on. *)
Theorem mount_keeps_older_pages :
  forall softcrc32 cfg fuel ring nand ring' nand',
    config ring = Some cfg -> cfg_ok cfg nand ->
    nandRingMount softcrc32 fuel ring nand = Ok (OSAL_SUCCESS, ring', nand') ->
    exists lb,
      last_written_block softcrc32 fuel cfg nand = Ok lb /\
      (lb = BLOCK_NOT_FOUND ->
       forall b p, b <> cur_blk ring' -> nd_pages nand' b p = nd_pages nand b p) /\
      (lb <> BLOCK_NOT_FOUND ->
       exists lp,
         last_written_page softcrc32 nand lb = Ok lp /\
         forall b p, b <> cur_blk ring' -> b <> lb \/ p < lp ->
                     nd_pages nand' b p = nd_pages nand b p).
Proof.
  intros softcrc32 cfg fuel ring nand ring' nand' Hc Hok H.
  unfold nandRingMount in H.
  destruct (nandringstate_eqb NAND_RING_IDLE (state ring));
    cbn [osalDbgCheck bind] in H; [|discriminate].
  rewrite (get_total_good_count ring nand cfg Hc Hok) in H. cbn [bind] in H.
  destruct (good_blocks cfg nand <? MIN_RING_SIZE / 2); [discriminate|].
  rewrite Hc in H.
  destruct (last_written_block softcrc32 fuel cfg nand) as [lb| |];
    cbn [bind] in H; try discriminate.
  exists lb. split; [reflexivity|].
  destruct (Z.eqb_spec BLOCK_NOT_FOUND lb) as [E|N].
  - split; [|intros N; congruence]. intros _.
    destruct (mkfs fuel cfg nand) as [[blk n1]| |] eqn:Hmk; cbn [bind] in H;
      try discriminate.
    inversion H; subst ring' nand'. clear H.
    cbn [cur_blk set_state set_cur_id set_cur_page set_cur_blk].
    unfold mkfs in Hmk.
    destruct (first_good fuel cfg nand) as [f| |]; cbn [bind] in Hmk;
      try discriminate.
    apply erase_next_spec in Hmk; [|exact Hok].
    destruct Hmk as (_ & P & _). exact P.
  - split; [intros E; congruence|]. intros _.
    destruct (last_written_page softcrc32 nand lb) as [lp| |]; cbn [bind] in H;
      try discriminate.
    exists lp. split; [reflexivity|].
    destruct (close_prev_session fuel cfg nand lb lp) as [[blk n1]| |] eqn:Hcl;
      cbn [bind] in H; try discriminate.
    inversion H; subst ring' nand'. clear H.
    cbn [cur_blk set_state set_cur_id set_cur_page set_cur_blk].
    exact (close_prev_session_keeps cfg fuel nand lb lp blk n1 Hok Hcl).
Qed.

(** ** The header of an appended page *)

Lemma quiet_write_and_seal softcrc32 cfg fuel ring nand data :
  program_failed nand = false ->
  exists nand2 h,
    nandRingWritePage_retry softcrc32 (S fuel) cfg ring nand data = Ok (ring, nand2) /\
    nd_pages nand2 (cur_blk ring) (cur_page ring) = mkPage data (SpareHeader h) /\
    page_ecc h = nand_ecc data /\ bad_mark h = 0xFFFF /\ id h = cur_id ring /\
    utc_correction h = ring_utc_correction ring /\
    time_boot_uS h = timebootU64 nand /\
    spare_crc h = calc_spare_crc softcrc32 h.
Proof.
  intros Hpf. unfold program_failed in Hpf. apply orb_false_iff in Hpf.
  destruct Hpf as (Hh1 & Hh2).
  cbn [nandRingWritePage_retry].
  destruct (nandWritePageData nand (cur_blk ring) (cur_page ring) data)
    as [[st ecc] n1] eqn:Ed.
  destruct (nandWritePageData_status _ _ _ _ _ _ _ Ed) as (Es & Ef).
  rewrite Hh1 in Es. subst st. cbn [nandFailed].
  destruct (nandWritePageData_spec _ _ _ _ _ _ _ Ed) as ((_ & _ & Ht & _) & _ & _ & Hd).
  specialize (Hd eq_refl (cur_blk ring) (cur_page ring)).
  rewrite !Z.eqb_refl in Hd. cbn [andb] in Hd.
  assert (Hecc : ecc = nand_ecc data).
  { unfold nandWritePageData in Ed. destruct (pop_fault nand) as [f n0].
    destruct f; inversion Ed; reflexivity. }
  subst ecc.
  match goal with
  | |- context [nandWritePageSpare n1 ?b ?p (header2spare ?hdr)] =>
      set (h := hdr);
      destruct (nandWritePageSpare n1 b p (header2spare h)) as [st2 n2] eqn:Esp
  end.
  destruct (nandWritePageSpare_status _ _ _ _ _ _ Esp) as (Es2 & _).
  rewrite Ef, Hh2 in Es2. subst st2. cbn [nandFailed].
  destruct (nandWritePageSpare_spec _ _ _ _ _ _ Esp) as (_ & _ & _ & Hs).
  specialize (Hs eq_refl (cur_blk ring) (cur_page ring)).
  rewrite !Z.eqb_refl in Hs. cbn [andb] in Hs.
  exists n2, h. split; [reflexivity|]. split.
  { rewrite Hs, Hd. reflexivity. }
  unfold h. cbn [page_ecc bad_mark id utc_correction time_boot_uS spare_crc].
  repeat (split; [reflexivity|]). split; [|reflexivity].
  unfold timebootU64. rewrite Ht. reflexivity.
Qed.

(** X22: the page an append programs, when no program fails and the block
    is not filled, holds the caller's data and a header made of the ECC the
    driver returned for the data, the bad mark [0xFFFF], the identifier
    [cur_id], the ring's UTC correction and the boot clock, sealed with the
    CRC of these fields; the header validates. *)
Theorem append_seals_header :
  forall softcrc32 cfg fuel ring nand data,
    reachable softcrc32 cfg ring nand ->
    state ring = NAND_RING_MOUNTED ->
    program_failed nand = false ->
    cur_page ring + 1 < ppb nand ->
    exists ring' nand' h,
      nandRingWritePage softcrc32 (S fuel) ring nand (Some data) = Ok (ring', nand') /\
      nd_pages nand' (cur_blk ring) (cur_page ring) = mkPage data (SpareHeader h) /\
      page_ecc h = nand_ecc data /\ bad_mark h = 0xFFFF /\ id h = cur_id ring /\
      utc_correction h = ring_utc_correction ring /\
      time_boot_uS h = timebootU64 nand /\
      spare_crc h = calc_spare_crc softcrc32 h /\
      header_crc_valid softcrc32 (SpareHeader h) = true.
Proof.
  intros softcrc32 cfg fuel ring nand data Hreach Hst Hpf Hpage.
  destruct (reachable_inv _ _ _ _ Hreach) as (Hc & (_ & Hgeo & _) & Hm).
  destruct (Hm Hst) as (_ & (Hp0 & _)).
  destruct (quiet_write_and_seal softcrc32 cfg fuel ring nand data Hpf)
    as (nand2 & h & Hret & Hpg & H1 & H2 & H3 & H4 & H5 & H6).
  eexists _, nand2, h. split.
  { unfold nandRingWritePage. rewrite Hst, Hc.
    cbn [nandringstate_eqb osalDbgCheck bind]. rewrite Hret. cbn [bind].
    cbn [cur_page set_cur_page set_cur_id cur_id].
    unfold geo_ok in Hgeo. rewrite (u32_small (cur_page ring + 1)) by lia.
    fold (ppb nand).
    destruct (Z.eqb_spec (cur_page ring + 1) (ppb nand)); [lia|reflexivity]. }
  split; [exact Hpg|]. repeat (split; [assumption|]).
  cbn [header_crc_valid]. apply Z.eqb_eq in H6. rewrite H6. reflexivity.
Qed.

(** ** Data rescue *)

(** X23: the contract of [block_data_rescue] as [nandRingWritePage] calls
    it, the current block just marked bad after a failed program: on a
    mounted ring that holds at least two good blocks more than there are
    faults left, it returns a good block of the ring other than the failed
    one, which holds the pages of the failed block before [cur_page] as
    they were and reads as erased flash from [cur_page] on; the failed
    block stays marked bad. *)
Theorem block_data_rescue_moves_prefix :
  forall softcrc32 cfg fuel ring nand,
    reachable softcrc32 cfg ring nand ->
    state ring = NAND_RING_MOUNTED ->
    Z.of_nat (List.length (nd_faults nand)) + 2 <= good_blocks cfg nand ->
    len cfg + Z.of_nat (List.length (nd_faults nand)) + 1 < Z.of_nat fuel ->
    exists t nand',
      block_data_rescue fuel cfg ring (nandMarkBad nand (cur_blk ring))
                        (cur_blk ring) (cur_page ring) = Ok (t, nand') /\
      in_ring cfg t /\ t <> cur_blk ring /\ nd_bad nand' t = false /\
      nd_bad nand' (cur_blk ring) = true /\
      (forall q, 0 <= q < cur_page ring ->
                 nd_pages nand' t q = nd_pages nand (cur_blk ring) q) /\
      (forall q, ~ 0 <= q < cur_page ring -> nd_pages nand' t q = erased_page nand').
Proof.
  intros softcrc32 cfg fuel ring nand Hreach Hst Hgood Hfuel.
  assert (Hb1 : 1 <= budget cfg nand) by (unfold budget; lia).
  destruct (reachable_mounted_in_ring softcrc32 cfg ring nand Hreach Hst Hb1)
    as (Hc & Hok & Hin).
  destruct (reachable_inv _ _ _ _ Hreach) as (_ & Hinv & Hm).
  destruct (Hm Hst) as (Hlt & Htail).
  set (c := cur_blk ring) in *. set (n2 := nandMarkBad nand c).
  assert (Hinv2 : nand_inv softcrc32 cfg n2)
    by (apply (shrinks_nand_inv softcrc32 cfg nand); [apply mark_bad_shrinks|exact Hinv]).
  pose proof (tail_to_src softcrc32 cfg nand c _ _ Htail Hlt) as Hsrc.
  fold n2 in Hsrc.
  assert (Hb2 : 1 <= budget cfg n2).
  { unfold budget, good_blocks, n2 in *.
    pose proof (count_good_mark_bad (Z.to_nat (len cfg)) nand c (start_blk cfg))
      as ((L & _) & _).
    cbn [nd_faults nandMarkBad set_bad]. lia. }
  assert (Hf2 : len cfg + Z.of_nat (List.length (nd_faults n2)) + 1 < Z.of_nat fuel)
    by (unfold n2; cbn [nd_faults nandMarkBad set_bad]; exact Hfuel).
  destruct Hinv2 as (Hok2 & Hrest2).
  destruct (block_data_rescue_total cfg fuel ring n2 c (cur_page ring)
              Hok2 Hin Hb2 Hf2) as (t & nand' & E & Hint & _ & F).
  pose proof (block_data_rescue_spec softcrc32 cfg fuel ring n2 c (cur_page ring)
                (cur_id ring) t nand' eq_refl (conj Hok2 Hrest2) Hsrc E)
    as (_ & Htail' & _ & Hcopy & Herased).
  exists t, nand'. split; [exact E|]. split; [exact Hint|].
  destruct (Hcopy Hint) as (_ & Hne & Hpages).
  destruct Htail' as (_ & _ & _ & Hin' & _).
  destruct (Hin' Hint) as (G & _).
  split; [exact Hne|]. split; [exact G|]. split.
  { apply F. unfold n2. cbn. rewrite Z.eqb_refl. reflexivity. }
  split; [|exact Herased].
  intros q Hq. rewrite (Hpages q Hq). reflexivity.
Qed.

(** ** The lifecycle on first use *)

(** X24: the lifecycle on a fresh device whose ring has no bad block.
    With the driver ready and a spare area that can hold a header,
    [nandRingObjectInit], [nandRingStart], [nandRingMount],
    [nandRingUmount] and [nandRingStop] succeed in this order, whatever the
    ring object held: the mount answers [OSAL_SUCCESS] and leaves the ring
    mounted at page [0] of an erased block with [cur_id = PAGE_ID_FIRST]
    and the bad marks as they were, and the ring ends stopped, its
    configuration cleared. *)
Theorem first_use_lifecycle :
  forall softcrc32 fuel ring0 nand cfg,
    nd_state nand = NAND_READY ->
    sizeof_NandPageHeader <= page_spare_size (nd_config nand) ->
    cfg_ok cfg nand -> geo_ok nand -> fresh nand ->
    (forall b, in_ring cfg b -> nd_bad nand b = false) ->
    MIN_RING_SIZE <= len cfg -> nd_faults nand = [] ->
    2 * len cfg < Z.of_nat fuel ->
    exists r1 r2 r3 nand' r4 r5,
      nandRingObjectInit ring0 = Ok r1 /\
      nandRingStart r1 nand (Some cfg) = Ok r2 /\
      nandRingMount softcrc32 fuel r2 nand = Ok (OSAL_SUCCESS, r3, nand') /\
      nandRingUmount r3 = Ok r4 /\
      nandRingStop r4 = Ok r5 /\
      state r1 = NAND_RING_UNINIT /\ state r2 = NAND_RING_IDLE /\
      state r3 = NAND_RING_MOUNTED /\ state r4 = NAND_RING_IDLE /\
      state r5 = NAND_RING_STOP /\ config r5 = None /\
      cur_page r3 = 0 /\ cur_id r3 = PAGE_ID_FIRST /\
      block_erased nand' (cur_blk r3) /\ nd_bad nand' = nd_bad nand.
Proof.
  intros softcrc32 fuel ring0 nand cfg Hready Hspare Hok Hgeo Hfresh Hgood Hlen Hnf
         Hfuel.
  set (r1 := set_dbg (set_state (set_config ring0 None) NAND_RING_UNINIT) 0).
  set (r2 := set_state (set_config r1 (Some cfg)) NAND_RING_IDLE).
  assert (Hstart : nandRingStart r1 nand (Some cfg) = Ok r2).
  { unfold nandRingStart. rewrite Hready.
    cbn [nandstate_eqb osalDbgAssert bind].
    pose proof Hok as (Hs & Hl & Hb & Hk).
    rewrite (u32_small (start_blk cfg + len cfg)) by lia.
    destruct (Z.leb_spec (start_blk cfg + len cfg) (blocks (nd_config nand))); [|lia].
    cbn [bind].
    destruct (Z.leb_spec MIN_RING_SIZE (len cfg)); [|lia]. cbn [osalDbgCheck bind].
    destruct (Z.leb_spec sizeof_NandPageHeader (page_spare_size (nd_config nand)));
      [|lia].
    reflexivity. }
  destruct (mount_fresh_ring softcrc32 fuel r2 nand cfg eq_refl eq_refl
              Hok Hgeo Hfresh Hgood Hlen Hnf Hfuel) as (nand' & Em & Her & Hbad).
  eexists r1, r2, _, nand', _, _.
  split; [reflexivity|]. split; [exact Hstart|]. split; [exact Em|].
  split; [reflexivity|]. split; [reflexivity|].
  cbn. repeat (split; [reflexivity|]). split; [exact Her|exact Hbad].
Qed.

(** ** The further properties at concrete inputs *)

Lemma ex_cfg_ok_patchy faults : cfg_ok ex_cfg (patchy_nand faults).
Proof. unfold cfg_ok. simpl. lia. Qed.

Lemma ex_cfg_ok_worn : cfg_ok ex_cfg worn_nand.
Proof. unfold cfg_ok. simpl. lia. Qed.

Lemma ex_cfg_ok_lone : cfg_ok ex_cfg lone_nand.
Proof. unfold cfg_ok. simpl. lia. Qed.

Lemma ex_in_ring b : (0 <=? b) && (b <? 64) = true -> in_ring ex_cfg b.
Proof.
  intros H. apply andb_true_iff in H. destruct H as (A & B).
  apply Z.leb_le in A. apply Z.ltb_lt in B. unfold in_ring. simpl. lia.
Qed.

Lemma ex_fuel_lap (faults : list bool) :
  (len ex_cfg + Z.of_nat (List.length faults) <? Z.of_nat ex_fuel) = true ->
  len ex_cfg + Z.of_nat (List.length faults) < Z.of_nat ex_fuel.
Proof. apply Z.ltb_lt. Qed.

Lemma next_good_finds_successor_witness :
  exists r,
    next_good ex_fuel ex_cfg (patchy_nand []) 63 = Ok r /\
    ((r = BLOCK_NOT_FOUND /\ ring_all_bad ex_cfg (patchy_nand [])) \/
     (in_ring ex_cfg r /\ nd_bad (patchy_nand []) r = false /\
      forall x, in_ring ex_cfg x -> between 63 r x ->
                nd_bad (patchy_nand []) x = true)).
Proof.
  apply (next_good_finds_successor ex_cfg (patchy_nand []) ex_fuel 63).
  - apply ex_cfg_ok_patchy.
  - apply ex_in_ring. reflexivity.
  - apply Z.leb_le. vm_compute. reflexivity.
Defined.

Lemma next_good_sole_good_block_witness :
  next_good ex_fuel ex_cfg lone_nand 5 = Ok 5.
Proof.
  apply (next_good_sole_good_block ex_cfg lone_nand ex_fuel 5).
  - apply ex_cfg_ok_lone.
  - apply ex_in_ring. reflexivity.
  - apply Z.leb_le. vm_compute. reflexivity.
  - reflexivity.
  - intros x _ Hx. simpl. apply Z.eqb_neq in Hx. rewrite Hx. reflexivity.
Defined.

Lemma next_good_from_not_found_spins_witness :
  next_good ex_fuel ex_cfg worn_nand BLOCK_NOT_FOUND = Hang /\
  erase_next ex_fuel ex_cfg worn_nand BLOCK_NOT_FOUND = Hang.
Proof.
  apply (next_good_from_not_found_spins ex_cfg worn_nand ex_fuel).
  - apply ex_cfg_ok_worn.
  - intros x _. reflexivity.
Defined.

Lemma first_good_is_lowest_witness :
  exists f,
    first_good ex_fuel ex_cfg (patchy_nand []) = Ok f /\
    ((f = BLOCK_NOT_FOUND /\ ring_all_bad ex_cfg (patchy_nand [])) \/
     (in_ring ex_cfg f /\ nd_bad (patchy_nand []) f = false /\
      forall x, in_ring ex_cfg x -> x < f -> nd_bad (patchy_nand []) x = true)).
Proof.
  apply (first_good_is_lowest ex_cfg (patchy_nand []) ex_fuel).
  - apply ex_cfg_ok_patchy.
  - apply Z.leb_le. vm_compute. reflexivity.
Defined.

Lemma total_good_counts_good_blocks_witness :
  exists total,
    nandRingTotalGood (fst ex_s1) (patchy_nand []) = Ok total /\
    get_total_good (fst ex_s1) (patchy_nand []) = Ok total /\
    total = Z.of_nat (List.length (filter (fun b => negb (nd_bad (patchy_nand []) b))
                                          (ring_blocks ex_cfg))) /\
    0 <= total <= len ex_cfg.
Proof.
  apply (total_good_counts_good_blocks (fst ex_s1) (patchy_nand []) ex_cfg).
  - vm_compute. reflexivity.
  - vm_compute. reflexivity.
  - apply ex_cfg_ok_patchy.
Defined.


Lemma erase_next_fault_cost_witness :
  good_blocks ex_cfg (snd ex_erased) <= good_blocks ex_cfg (small_nand [true; true]) /\
  good_blocks ex_cfg (small_nand [true; true]) - good_blocks ex_cfg (snd ex_erased) <=
    Z.of_nat (List.length (nd_faults (small_nand [true; true]))) -
    Z.of_nat (List.length (nd_faults (snd ex_erased))).
Proof.
  apply (erase_next_fault_cost ex_cfg ex_fuel (small_nand [true; true]) 0
           (fst ex_erased) (snd ex_erased)).
  - apply small_nand_ok.
  - vm_compute. reflexivity.
Defined.


Lemma ex_reach_s5 : reachable crc32 ex_cfg (fst ex_s5) (snd ex_s5).
Proof.
  apply ex_reach_append; [exact ex_reach_s4| |].
  - apply Z.ltb_lt. vm_compute. reflexivity.
  - vm_compute. discriminate.
Qed.

(** The ring object after a power loss in a reachable state. *)
Lemma ex_reach_power_loss s :
  reachable crc32 ex_cfg (fst s) (snd s) ->
  boot ex_ring_raw (snd s) ex_cfg = Ok ex_ring_idle ->
  reachable crc32 ex_cfg ex_ring_idle (snd s).
Proof.
  intros H B. exact (reach_power_loss crc32 ex_cfg (fst s) (snd s) ex_ring_raw _ H B).
Qed.

Lemma ex_some_good (s : NandRing * NANDDriver) :
  nd_bad (snd s) 0 = false -> ~ ring_all_bad ex_cfg (snd s).
Proof.
  intros H A. rewrite (A 0) in H; [discriminate|]. apply ex_in_ring. reflexivity.
Qed.

Lemma last_written_block_latest_witness :
  exists lb,
    last_written_block crc32 ex_fuel ex_cfg (snd ex_s3) = Ok lb /\
    ((lb = BLOCK_NOT_FOUND /\
      forall b, in_ring ex_cfg b -> nd_bad (snd ex_s3) b = false ->
                read_page_id crc32 (snd ex_s3) b 0 < 1) \/
     (in_ring ex_cfg lb /\ nd_bad (snd ex_s3) lb = false /\
      1 <= read_page_id crc32 (snd ex_s3) lb 0 /\
      (forall b, in_ring ex_cfg b -> nd_bad (snd ex_s3) b = false ->
                 read_page_id crc32 (snd ex_s3) b 0 <=
                 read_page_id crc32 (snd ex_s3) lb 0) /\
      (forall b, in_ring ex_cfg b -> nd_bad (snd ex_s3) b = false -> lb < b ->
                 read_page_id crc32 (snd ex_s3) b 0 <
                 read_page_id crc32 (snd ex_s3) lb 0))).
Proof.
  apply (last_written_block_latest crc32 ex_cfg (snd ex_s3) ex_fuel).
  - unfold cfg_ok. vm_compute. repeat split; discriminate.
  - apply ex_some_good. vm_compute. reflexivity.
  - apply Z.leb_le. vm_compute. reflexivity.
Defined.

Lemma ex_geometry (s : NandRing * NANDDriver) :
  nd_config (snd s) = mkNANDConfig 64 4 16 64 ->
  cfg_ok ex_cfg (snd s) /\ geo_ok (snd s).
Proof.
  intros E. unfold cfg_ok, geo_ok, ppb. rewrite E. simpl. lia.
Qed.

Lemma last_written_page_latest_witness :
  (last_written_page crc32 (snd ex_s3) 1 = Halt "osalDbgCheck" /\
   forall q, 0 <= q < ppb (snd ex_s3) -> read_page_id crc32 (snd ex_s3) 1 q < 1) \/
  (exists lp,
     last_written_page crc32 (snd ex_s3) 1 = Ok lp /\
     0 <= lp < ppb (snd ex_s3) /\
     1 <= read_page_id crc32 (snd ex_s3) 1 lp /\
     (forall q, 0 <= q < ppb (snd ex_s3) ->
                read_page_id crc32 (snd ex_s3) 1 q <=
                read_page_id crc32 (snd ex_s3) 1 lp) /\
     (forall q, lp < q < ppb (snd ex_s3) ->
                read_page_id crc32 (snd ex_s3) 1 q <
                read_page_id crc32 (snd ex_s3) 1 lp)).
Proof.
  apply (last_written_page_latest crc32 (snd ex_s3) 1).
  - apply (ex_geometry ex_s3). vm_compute. reflexivity.
  - unfold BLOCK_NOT_FOUND. discriminate.
Defined.


(** The mount after a power loss that follows the second append. *)
Lemma ex_mount_s3 :
  nandRingMount crc32 ex_fuel ex_ring_idle (snd ex_s3) =
    Ok (OSAL_SUCCESS, fst (ex_state (recover (snd ex_s3))),
        snd (ex_state (recover (snd ex_s3)))).
Proof. vm_compute. reflexivity. Qed.

Lemma mount_fabricates_no_record_witness :
  (forall b p, in_ring ex_cfg b -> 0 <= p < ppb (snd ex_s3) ->
     valid crc32 (snd (ex_state (recover (snd ex_s3)))) b p = true ->
     sp (snd (ex_state (recover (snd ex_s3)))) b p = sp (snd ex_s3) b p) /\
  (forall b, nd_bad (snd ex_s3) b = true ->
             nd_bad (snd (ex_state (recover (snd ex_s3)))) b = true) /\
  nd_config (snd (ex_state (recover (snd ex_s3)))) = nd_config (snd ex_s3).
Proof.
  apply (mount_fabricates_no_record crc32 ex_cfg ex_fuel ex_ring_idle (snd ex_s3)
           OSAL_SUCCESS (fst (ex_state (recover (snd ex_s3))))).
  - apply (ex_reach_power_loss ex_s3); [exact ex_reach_s3|]. vm_compute. reflexivity.
  - exact ex_mount_s3.
Defined.

Lemma append_touches_one_page_witness :
  exists ring' nand',
    nandRingWritePage crc32 (S ex_fuel) (fst ex_s1) (snd ex_s1) (Some (ex_data 0xA5)) =
      Ok (ring', nand') /\
    (forall b q, b <> cur_blk (fst ex_s1) \/ q <> cur_page (fst ex_s1) ->
                 nd_pages nand' b q = nd_pages (snd ex_s1) b q) /\
    pg_data (nd_pages nand' (cur_blk (fst ex_s1)) (cur_page (fst ex_s1))) =
      ex_data 0xA5 /\
    read_page_id crc32 nand' (cur_blk (fst ex_s1)) (cur_page (fst ex_s1)) =
      cur_id (fst ex_s1) /\
    nd_bad nand' = nd_bad (snd ex_s1) /\
    cur_blk ring' = cur_blk (fst ex_s1) /\
    cur_page ring' = cur_page (fst ex_s1) + 1 /\
    cur_id ring' = cur_id (fst ex_s1) + 1.
Proof.
  apply (append_touches_one_page crc32 ex_cfg ex_fuel (fst ex_s1) (snd ex_s1)
           (ex_data 0xA5)).
  - exact ex_reach_s1.
  - vm_compute. reflexivity.
  - apply Z.ltb_lt. vm_compute. reflexivity.
  - vm_compute. reflexivity.
  - apply Z.ltb_lt. vm_compute. reflexivity.
Defined.

Lemma append_returns_within_budget_witness :
  exists ring' nand',
    nandRingWritePage crc32 ex_fuel (fst ex_s2)
                      (inject (snd ex_s2) [true; false; true; true] 0)
                      (Some (ex_data 0x5A)) = Ok (ring', nand') /\
    in_ring ex_cfg (cur_blk ring') /\
    good_blocks ex_cfg (inject (snd ex_s2) [true; false; true; true] 0) -
    good_blocks ex_cfg nand' <=
      Z.of_nat (List.length (nd_faults (inject (snd ex_s2) [true; false; true; true] 0))) -
      Z.of_nat (List.length (nd_faults nand')).
Proof.
  apply (append_returns_within_budget crc32 ex_cfg ex_fuel (fst ex_s2)
           (inject (snd ex_s2) [true; false; true; true] 0) (ex_data 0x5A)).
  - apply reach_inject. exact ex_reach_s2.
  - vm_compute. reflexivity.
  - apply Z.ltb_lt. vm_compute. reflexivity.
  - apply Z.ltb_lt. vm_compute. reflexivity.
Defined.

Lemma mkfs_skips_first_good_block_witness :
  exists f blk nand',
    first_good ex_fuel ex_cfg (patchy_nand [true]) = Ok f /\
    mkfs ex_fuel ex_cfg (patchy_nand [true]) = Ok (blk, nand') /\
    in_ring ex_cfg f /\ nd_bad (patchy_nand [true]) f = false /\
    (forall x, in_ring ex_cfg x -> x < f -> nd_bad (patchy_nand [true]) x = true) /\
    in_ring ex_cfg blk /\ nd_bad nand' blk = false /\ f < blk /\
    (forall p, nd_pages nand' blk p = erased_page nand') /\
    (forall b p, b <> blk -> nd_pages nand' b p = nd_pages (patchy_nand [true]) b p).
Proof.
  apply (mkfs_skips_first_good_block ex_cfg ex_fuel (patchy_nand [true])).
  - apply ex_cfg_ok_patchy.
  - apply Z.leb_le. vm_compute. reflexivity.
  - apply (ex_fuel_lap [true]). vm_compute. reflexivity.
Defined.

Lemma identifiers_increase_within_block_witness :
  valid crc32 (snd ex_s3) 1 0 = true /\
  PAGE_ID_FIRST <= read_page_id crc32 (snd ex_s3) 1 0 /\
  read_page_id crc32 (snd ex_s3) 1 0 < read_page_id crc32 (snd ex_s3) 1 1 /\
  read_page_id crc32 (snd ex_s3) 1 1 < 2 ^ 64 - 1.
Proof.
  apply (identifiers_increase_within_block crc32 ex_cfg (fst ex_s3) (snd ex_s3) 1 0 1).
  - exact ex_reach_s3.
  - apply ex_in_ring. reflexivity.
  - lia.
  - lia.
  - apply Z.ltb_lt. vm_compute. reflexivity.
  - vm_compute. reflexivity.
Defined.

Lemma durable_identifiers_distinct_witness :
  read_page_id crc32 (snd ex_s5) 1 0 <> read_page_id crc32 (snd ex_s5) 1 3 /\
  read_page_id crc32 (snd ex_s5) 1 2 <> read_page_id crc32 (snd ex_s5) 1 1.
Proof.
  assert (Hin : in_ring ex_cfg 1) by (apply ex_in_ring; reflexivity).
  assert (Hg : nd_bad (snd ex_s5) 1 = false) by (vm_compute; reflexivity).
  assert (Hp : forall p, (0 <=? p) && (p <? 4) = true -> 0 <= p < ppb (snd ex_s5)).
  { intros p H. apply andb_true_iff in H. destruct H as (A & B).
    apply Z.leb_le in A. apply Z.ltb_lt in B.
    replace (ppb (snd ex_s5)) with 4 by (vm_compute; reflexivity). lia. }
  split.
  - apply (durable_identifiers_distinct crc32 ex_cfg (fst ex_s5) (snd ex_s5) 1 0 1 3
             ex_reach_s5 Hin Hin Hg Hg (Hp 0 eq_refl) (Hp 3 eq_refl)).
    + vm_compute. reflexivity.
    + vm_compute. reflexivity.
    + right. discriminate.
  - apply (durable_identifiers_distinct crc32 ex_cfg (fst ex_s5) (snd ex_s5) 1 2 1 1
             ex_reach_s5 Hin Hin Hg Hg (Hp 2 eq_refl) (Hp 1 eq_refl)).
    + vm_compute. reflexivity.
    + vm_compute. reflexivity.
    + right. discriminate.
Defined.

Lemma mounted_cursor_is_log_tail_witness :
  in_ring ex_cfg (cur_blk (fst ex_s3)) /\
  nd_bad (snd ex_s3) (cur_blk (fst ex_s3)) = false /\
  0 <= cur_page (fst ex_s3) < ppb (snd ex_s3) /\
  PAGE_ID_FIRST <= cur_id (fst ex_s3) /\
  (forall q, 0 <= q < cur_page (fst ex_s3) ->
             valid crc32 (snd ex_s3) (cur_blk (fst ex_s3)) q = true) /\
  (forall q, cur_page (fst ex_s3) <= q < ppb (snd ex_s3) ->
             valid crc32 (snd ex_s3) (cur_blk (fst ex_s3)) q = false) /\
  (forall b p, in_ring ex_cfg b -> nd_bad (snd ex_s3) b = false ->
               0 <= p < ppb (snd ex_s3) ->
               read_page_id crc32 (snd ex_s3) b p < cur_id (fst ex_s3)).
Proof.
  apply (mounted_cursor_is_log_tail crc32 ex_cfg (fst ex_s3) (snd ex_s3)).
  - exact ex_reach_s3.
  - vm_compute. reflexivity.
  - apply ex_some_good. vm_compute. reflexivity.
Defined.

Lemma recovery_repeatable_after_full_block_witness :
  exists ring1 nand1 ring2 nand2,
    nandRingMount crc32 ex_fuel ex_ring_idle (snd ex_s5) =
      Ok (OSAL_SUCCESS, ring1, nand1) /\
    nandRingMount crc32 ex_fuel ex_ring_idle nand1 = Ok (OSAL_SUCCESS, ring2, nand2) /\
    cur_blk ring2 = cur_blk ring1 /\ cur_id ring2 = cur_id ring1 /\
    cur_page ring2 = cur_page ring1 /\
    nd_bad nand2 = nd_bad nand1 /\
    (forall b p, nd_pages nand2 b p = nd_pages nand1 b p).
Proof.
  apply (recovery_repeatable_after_full_block crc32 ex_cfg ex_fuel ex_ring_idle
           (snd ex_s5) 1 ex_ring_idle).
  - apply (ex_reach_power_loss ex_s5); [exact ex_reach_s5|]. vm_compute. reflexivity.
  - reflexivity.
  - reflexivity.
  - reflexivity.
  - vm_compute. reflexivity.
  - apply Z.leb_le. vm_compute. reflexivity.
  - apply Z.ltb_lt. vm_compute. reflexivity.
  - vm_compute. reflexivity.
  - unfold BLOCK_NOT_FOUND. discriminate.
  - vm_compute. reflexivity.
Defined.

Lemma mount_keeps_older_pages_witness :
  exists lb,
    last_written_block crc32 ex_fuel ex_cfg (snd ex_s3) = Ok lb /\
    (lb = BLOCK_NOT_FOUND ->
     forall b p, b <> cur_blk (fst (ex_state (recover (snd ex_s3)))) ->
                 nd_pages (snd (ex_state (recover (snd ex_s3)))) b p =
                 nd_pages (snd ex_s3) b p) /\
    (lb <> BLOCK_NOT_FOUND ->
     exists lp,
       last_written_page crc32 (snd ex_s3) lb = Ok lp /\
       forall b p, b <> cur_blk (fst (ex_state (recover (snd ex_s3)))) ->
                   b <> lb \/ p < lp ->
                   nd_pages (snd (ex_state (recover (snd ex_s3)))) b p =
                   nd_pages (snd ex_s3) b p).
Proof.
  apply (mount_keeps_older_pages crc32 ex_cfg ex_fuel ex_ring_idle (snd ex_s3)).
  - reflexivity.
  - apply (ex_geometry ex_s3). vm_compute. reflexivity.
  - exact ex_mount_s3.
Defined.

Lemma append_seals_header_witness :
  exists ring' nand' h,
    nandRingWritePage crc32 (S ex_fuel) (fst ex_s1) (snd ex_s1) (Some (ex_data 0xA5)) =
      Ok (ring', nand') /\
    nd_pages nand' (cur_blk (fst ex_s1)) (cur_page (fst ex_s1)) =
      mkPage (ex_data 0xA5) (SpareHeader h) /\
    page_ecc h = nand_ecc (ex_data 0xA5) /\ bad_mark h = 0xFFFF /\
    id h = cur_id (fst ex_s1) /\
    utc_correction h = ring_utc_correction (fst ex_s1) /\
    time_boot_uS h = timebootU64 (snd ex_s1) /\
    spare_crc h = calc_spare_crc crc32 h /\
    header_crc_valid crc32 (SpareHeader h) = true.
Proof.
  apply (append_seals_header crc32 ex_cfg ex_fuel (fst ex_s1) (snd ex_s1)
           (ex_data 0xA5)).
  - exact ex_reach_s1.
  - vm_compute. reflexivity.
  - vm_compute. reflexivity.
  - apply Z.ltb_lt. vm_compute. reflexivity.
Defined.

Lemma block_data_rescue_moves_prefix_witness :
  exists t nand',
    block_data_rescue ex_fuel ex_cfg (fst ex_s3)
      (nandMarkBad (inject (snd ex_s3) [false; true] 0) (cur_blk (fst ex_s3)))
      (cur_blk (fst ex_s3)) (cur_page (fst ex_s3)) = Ok (t, nand') /\
    in_ring ex_cfg t /\ t <> cur_blk (fst ex_s3) /\ nd_bad nand' t = false /\
    nd_bad nand' (cur_blk (fst ex_s3)) = true /\
    (forall q, 0 <= q < cur_page (fst ex_s3) ->
               nd_pages nand' t q =
               nd_pages (inject (snd ex_s3) [false; true] 0) (cur_blk (fst ex_s3)) q) /\
    (forall q, ~ 0 <= q < cur_page (fst ex_s3) ->
               nd_pages nand' t q = erased_page nand').
Proof.
  apply (block_data_rescue_moves_prefix crc32 ex_cfg ex_fuel (fst ex_s3)
           (inject (snd ex_s3) [false; true] 0)).
  - apply reach_inject. exact ex_reach_s3.
  - vm_compute. reflexivity.
  - apply Z.leb_le. vm_compute. reflexivity.
  - apply Z.ltb_lt. vm_compute. reflexivity.
Defined.

Lemma first_use_lifecycle_witness :
  exists r1 r2 r3 nand' r4 r5,
    nandRingObjectInit ex_ring_raw = Ok r1 /\
    nandRingStart r1 (small_nand []) (Some ex_cfg) = Ok r2 /\
    nandRingMount crc32 ex_fuel r2 (small_nand []) = Ok (OSAL_SUCCESS, r3, nand') /\
    nandRingUmount r3 = Ok r4 /\
    nandRingStop r4 = Ok r5 /\
    state r1 = NAND_RING_UNINIT /\ state r2 = NAND_RING_IDLE /\
    state r3 = NAND_RING_MOUNTED /\ state r4 = NAND_RING_IDLE /\
    state r5 = NAND_RING_STOP /\ config r5 = None /\
    cur_page r3 = 0 /\ cur_id r3 = PAGE_ID_FIRST /\
    block_erased nand' (cur_blk r3) /\ nd_bad nand' = nd_bad (small_nand []).
Proof.
  destruct (small_nand_ok []) as (Hfresh & Hok & Hgeo).
  apply (first_use_lifecycle crc32 ex_fuel ex_ring_raw (small_nand []) ex_cfg).
  - reflexivity.
  - unfold sizeof_NandPageHeader. simpl. lia.
  - exact Hok.
  - exact Hgeo.
  - exact Hfresh.
  - intros b _. reflexivity.
  - unfold MIN_RING_SIZE. simpl. lia.
  - reflexivity.
  - apply Z.ltb_lt. vm_compute. reflexivity.
Defined.
